(** * mac2mqtt: a shallow embedding of the command validators, the media
    stream merge, the activity monitor, the connect cycle, the CPU sampler
    and the periodic publication loop of [mac2mqtt.go]. *)

From Stdlib Require Import ZArith String Ascii List Bool Lia QArith DecimalString.
From Stdlib Require DecimalPos.
From stdpp Require Import gmap strings list fin_maps.
From Equations Require Import Equations.

Local Open Scope string_scope.
Local Open Scope list_scope.
Local Open Scope Z_scope.

(** Constants for the application (the [const] block of [mac2mqtt.go]). *)
Definition MaxVolume : Z := 100.
Definition MinVolume : Z := 0.
Definition MaxBrightness : Z := 100.
Definition MinBrightness : Z := 0.
Definition MaxRetryAttempts : Z := 1.

(** ** Go's [strconv], as far as the validators use it.

    Go strings are byte sequences; [string] (a list of 8-bit [ascii]) is the
    same data.  [int] is the 64-bit signed integer of the supported targets. *)
Module strconv.

Inductive NumError := ErrSyntax | ErrRange.

Definition byte (c : ascii) : Z := Z.of_N (N_of_ascii c).

Definition str_in (l : list string) (s : string) : bool :=
  existsb (String.eqb s) l.

(** [ParseBool]: a [switch] over two lists of literals. *)
Definition ParseBool (str : string) : bool * option NumError :=
  if str_in ["1"; "t"; "T"; "true"; "TRUE"; "True"] str then (true, None)
  else if str_in ["0"; "f"; "F"; "false"; "FALSE"; "False"] str then (false, None)
  else (false, Some ErrSyntax).

Definition FormatBool (b : bool) : string := if b then "true" else "false".

Definition Itoa (i : Z) : string := NilZero.string_of_int (Z.to_int i).

Definition maxUint64 : Z := 2 ^ 64 - 1.

Definition is_digit (c : ascii) : bool := (48 <=? byte c) && (byte c <=? 57).

(** The loop of [ParseUint] at base 10 and bit size 64.  A byte that is not
    a decimal digit is a syntax error (a letter yields a digit value of at
    least 10, which is not below the base; anything else has no digit
    value).  [n] is a [uint64]: the multiplication cannot wrap below the
    cutoff, the addition is written with its wrap-around. *)
Fixpoint ParseUint_loop (s : string) (n : Z) : Z * option NumError :=
  match s with
  | EmptyString => (n, None)
  | String c s' =>
      if is_digit c then
        let d := byte c - 48 in
        let cutoff := maxUint64 / 10 + 1 in
        let maxVal := maxUint64 in
        if cutoff <=? n then (maxVal, Some ErrRange)
        else
          let n10 := n * 10 in
          let n1 := (n10 + d) mod 2 ^ 64 in
          if (n1 <? n10) || (maxVal <? n1) then (maxVal, Some ErrRange)
          else ParseUint_loop s' n1
      else (0, Some ErrSyntax)
  end.

Definition ParseUint (s : string) : Z * option NumError :=
  match s with
  | EmptyString => (0, Some ErrSyntax)
  | _ => ParseUint_loop s 0
  end.

(** Conversion [int64(un)] of a [uint64]. *)
Definition int64_of (z : Z) : Z := (z + 2 ^ 63) mod 2 ^ 64 - 2 ^ 63.

(** [ParseInt(s, 10, 0)]. *)
Definition ParseInt (s : string) : Z * option NumError :=
  match s with
  | EmptyString => (0, Some ErrSyntax)
  | String c0 rest =>
      let neg := Ascii.eqb c0 "-" in
      let s1 := if Ascii.eqb c0 "+" then rest else if neg then rest else s in
      let '(un, err) := ParseUint s1 in
      match err with
      | Some ErrSyntax => (0, err)
      | _ =>
          let cutoff := 2 ^ 63 in
          if negb neg && (cutoff <=? un) then (cutoff - 1, Some ErrRange)
          else if neg && (cutoff <? un) then (- cutoff, Some ErrRange)
          else
            let n := int64_of un in
            let n := if neg then int64_of (- n) else n in
            (n, err)
      end
  end.

(** The fast path of [Atoi]: [ch -= '0'] on a byte, then [ch > 9]. *)
Fixpoint Atoi_fast_loop (s : string) (n : Z) : option Z :=
  match s with
  | EmptyString => Some n
  | String ch s' =>
      let ch' := (byte ch - 48) mod 256 in
      if 9 <? ch' then None else Atoi_fast_loop s' (n * 10 + ch')
  end.

Definition Atoi (s : string) : Z * option NumError :=
  let sLen := Z.of_nat (String.length s) in
  if (0 <? sLen) && (sLen <? 19) then
    match s with
    | EmptyString => (0, Some ErrSyntax)
    | String c0 rest =>
        let signed := Ascii.eqb c0 "-" || Ascii.eqb c0 "+" in
        let s1 := if signed then rest else s in
        if signed && (Z.of_nat (String.length s1) <? 1) then (0, Some ErrSyntax)
        else
          match Atoi_fast_loop s1 0 with
          | None => (0, Some ErrSyntax)
          | Some n => (if Ascii.eqb c0 "-" then - n else n, None)
          end
    end
  else
    let '(i64, err) := ParseInt s in (i64, err).

End strconv.

(** ** Data model *)

(** Go's [error] values: [fmt.Errorf] with its format string ([%w] and [%d]
    arguments are not expanded, no claim reads them). *)
Inductive error := Errorf (format : string).

(** The fields of [Display] that the modelled code reads. *)
Record Display := mkDisplay { DisplayID : string; Name : string }.

Record MediaInfo := mkMediaInfo {
  Title : string;
  Artist : string;
  Album : string;
  AppName : string;
  AppBundleID : string;
  State : string;
  Duration : Z;
  Position : Z
}.

(** [sigar.Cpu]: cumulative tick counters, each a [uint64]. *)
Record Cpu := mkCpu {
  User : Z; Nice : Z; Sys : Z; Idle : Z; Wait : Z; Irq : Z; SoftIrq : Z; Stolen : Z
}.

Record config := mkConfig {
  IP : string;
  Port : string;
  SSL : bool;
  IdleActivityTime : Z
}.

(** A connected [mqtt.Client] and a [*time.Timer] are references. *)
Definition Client := nat.
Definition Timer := nat.

(** [Application], without its two mutexes and the cancel context (the
    activity mutex is part of [World] below). *)
Record Application := mkApplication {
  app_config : config;
  displays : list Display;
  topic : string;
  client : option Client;
  currentMediaState : MediaInfo;
  userActivityState : string;
  activityTimer : option Timer;
  lastCPU : Cpu
}.

Definition getTopicPrefix (app : Application) : string := topic app.

(** What the program does to the outside: capability calls, publications,
    log lines, timer operations. *)
Inductive action :=
| setVolume (i : Z)
| setMute (b : bool)
| commandKeepAwake
| commandAllowSleep
| commandRunShortcut (shortcut : string)
| setDisplayBrightness (displayID : string) (brightness : Z)
| Publish (topic : string) (qos : Z) (retained : bool) (payload : string)
| Log (format : string)
| Timer_Stop (t : Timer)
| AfterFunc (t : Timer) (seconds : Z)
| NewClient_Connect (brokerURL : string)
| Client_Connect.

Definition is_Publish (a : action) : bool :=
  match a with Publish _ _ _ _ => true | _ => false end.

(** A capability call is a call that changes the host. *)
Definition is_capability (a : action) : bool :=
  match a with
  | setVolume _ | setMute _ | commandKeepAwake | commandAllowSleep
  | commandRunShortcut _ | setDisplayBrightness _ _ => true
  | _ => false
  end.

(** ** Input validation functions *)

Definition validateVolumeInput (payload : string) : Z * option error :=
  let '(volume, err) := strconv.Atoi payload in
  match err with
  | Some _ => (0, Some (Errorf "volume must be a number: %w"))
  | None =>
      if (volume <? MinVolume) || (MaxVolume <? volume)
      then (0, Some (Errorf "volume must be between %d and %d, got %d"))
      else (volume, None)
  end.

Definition validateMuteInput (payload : string) : bool * option error :=
  let '(mute, err) := strconv.ParseBool payload in
  match err with
  | Some _ => (false, Some (Errorf "mute must be true or false: %w"))
  | None => (mute, None)
  end.

Definition validateBrightnessInput (payload : string) : Z * option error :=
  let '(brightness, err) := strconv.Atoi payload in
  match err with
  | Some _ => (0, Some (Errorf "brightness must be a number: %w"))
  | None =>
      if (brightness <? MinBrightness) || (MaxBrightness <? brightness)
      then (0, Some (Errorf "brightness must be between %d and %d, got %d"))
      else (brightness, None)
  end.

(** The character class [[a-zA-Z0-9\s\-_]] of the shortcut pattern; in Go's
    regexp syntax [\s] is tab, line feed, form feed, carriage return and
    space.  A byte of 128 or more is (part of) a rune outside the class. *)
Definition re_space (c : ascii) : bool :=
  let b := strconv.byte c in
  (b =? 9) || (b =? 10) || (b =? 12) || (b =? 13) || (b =? 32).

Definition shortcut_class (c : ascii) : bool :=
  let b := strconv.byte c in
  ((97 <=? b) && (b <=? 122)) || ((65 <=? b) && (b <=? 90)) ||
  ((48 <=? b) && (b <=? 57)) || re_space c || (b =? 45) || (b =? 95).

Fixpoint all_in_class (cls : ascii -> bool) (s : string) : bool :=
  match s with
  | EmptyString => true
  | String c s' => cls c && all_in_class cls s'
  end.

(** [regexp.MatchString] at the pattern [^[a-zA-Z0-9\s\-_]+$]: the anchors
    make the one-or-more repetition of the class span the whole text.  The
    pattern compiles, so the returned error is nil. *)
Definition MatchString_shortcut (s : string) : bool * option error :=
  (match s with EmptyString => false | _ => all_in_class shortcut_class s end, None).

Definition validateShortcutInput (payload : string) : option error :=
  if String.eqb payload EmptyString then Some (Errorf "shortcut name cannot be empty")
  else
    let '(matched, err) := MatchString_shortcut payload in
    match err with
    | Some _ => Some (Errorf "error validating shortcut name: %w")
    | None =>
        if negb matched then Some (Errorf "shortcut name contains invalid characters")
        else None
    end.

Definition validateKeepAwakeInput (payload : string) : bool * option error :=
  let '(keepAwake, err) := strconv.ParseBool payload in
  match err with
  | Some _ => (false, Some (Errorf "keep awake must be true or false: %w"))
  | None => (keepAwake, None)
  end.

(** ** Command handlers

    [Host] is what the operating system answers while a handler runs. *)
Record Host := mkHost {
  getCurrentVolume : Z;
  getMuteStatus : bool;
  getCaffeinateStatus : bool;
  setDisplayBrightness_err : string -> Z -> option error;
  isBetterDisplayCLIAvailable : bool
}.

Definition updateVolume (app : Application) (h : Host) : list action :=
  [Publish (getTopicPrefix app +:+ "/status/volume") 0 false (strconv.Itoa (getCurrentVolume h))].

Definition updateMute (app : Application) (h : Host) : list action :=
  [Publish (getTopicPrefix app +:+ "/status/mute") 0 false (strconv.FormatBool (getMuteStatus h))].

Definition updateCaffeinateStatus (app : Application) (h : Host) : list action :=
  [Publish (getTopicPrefix app +:+ "/status/caffeinate") 0 false
     (strconv.FormatBool (getCaffeinateStatus h))].

(** Each handler returns whether it consumed the message, and what it did. *)
Definition handleVolumeCommand (app : Application) (h : Host) (topic payload : string)
  : bool * list action :=
  if negb (String.eqb topic (getTopicPrefix app +:+ "/command/volume")) then (false, [])
  else
    let '(volume, err) := validateVolumeInput payload in
    match err with
    | Some _ => (true, [Log "Invalid volume value: %v"])
    | None => (true, [setVolume volume] ++ updateVolume app h ++ updateMute app h)
    end.

Definition handleMuteCommand (app : Application) (h : Host) (topic payload : string)
  : bool * list action :=
  if negb (String.eqb topic (getTopicPrefix app +:+ "/command/mute")) then (false, [])
  else
    let '(mute, err) := validateMuteInput payload in
    match err with
    | Some _ => (true, [Log "Invalid mute value: %v"])
    | None => (true, [setMute mute] ++ updateVolume app h ++ updateMute app h)
    end.

(** The loop over [app.displays] of [handleDisplayBrightnessCommand]. *)
Fixpoint handleDisplayBrightness_range (app : Application) (h : Host)
    (topic payload : string) (ds : list Display) : bool * list action :=
  match ds with
  | [] => (false, [])
  | display :: ds' =>
      let commandTopic :=
        getTopicPrefix app +:+ "/command/display_" +:+ DisplayID display +:+ "_brightness" in
      if String.eqb topic commandTopic then
        let '(brightness, err) := validateBrightnessInput payload in
        match err with
        | Some _ => (true, [Log "Invalid brightness value for display %s: %v"])
        | None =>
            match setDisplayBrightness_err h (DisplayID display) brightness with
            | Some _ =>
                (true,
                 [setDisplayBrightness (DisplayID display) brightness;
                  Log "Error setting brightness for display %s: %v"] ++
                 (if negb (isBetterDisplayCLIAvailable h)
                  then [Log "BetterDisplay CLI is not available. Please install BetterDisplay and enable CLI access."]
                  else []))
            | None =>
                let statusTopic :=
                  getTopicPrefix app +:+ "/status/display_" +:+ DisplayID display +:+ "_brightness" in
                (true,
                 [setDisplayBrightness (DisplayID display) brightness;
                  Publish statusTopic 0 true (strconv.Itoa brightness)])
            end
        end
      else handleDisplayBrightness_range app h topic payload ds'
  end.

Definition handleDisplayBrightnessCommand (app : Application) (h : Host)
    (topic payload : string) : bool * list action :=
  if (Z.of_nat (length (displays app)) =? 0) then
    (true, [Log "Received display brightness command but no displays are available";
            Log "Topic: %s, Payload: %s";
            Log "This usually means BetterDisplay CLI is not installed or not accessible"])
  else handleDisplayBrightness_range app h topic payload (displays app).

Definition handleShortcutCommand (app : Application) (topic payload : string)
  : bool * list action :=
  if negb (String.eqb topic (getTopicPrefix app +:+ "/command/runshortcut")) then (false, [])
  else
    match validateShortcutInput payload with
    | Some _ => (true, [Log "Invalid shortcut: %v"])
    | None => (true, [commandRunShortcut payload])
    end.

Definition handleKeepAwakeCommand (app : Application) (h : Host) (topic payload : string)
  : bool * list action :=
  if negb (String.eqb topic (getTopicPrefix app +:+ "/command/keepawake")) then (false, [])
  else
    let '(keepAwake, err) := validateKeepAwakeInput payload in
    match err with
    | Some _ => (true, [Log "Invalid keep awake value: %v"])
    | None =>
        (true, (if keepAwake then [commandKeepAwake] else [commandAllowSleep]) ++
               updateCaffeinateStatus app h)
    end.

(** ** Media stream merge *)

Definition with_currentMediaState (app : Application) (m : MediaInfo) : Application :=
  mkApplication (app_config app) (displays app) (topic app) (client app) m
    (userActivityState app) (activityTimer app) (lastCPU app).

Definition with_Title (st : MediaInfo) (s : string) : MediaInfo :=
  mkMediaInfo s (Artist st) (Album st) (AppName st) (AppBundleID st) (State st)
    (Duration st) (Position st).
Definition with_Artist (st : MediaInfo) (s : string) : MediaInfo :=
  mkMediaInfo (Title st) s (Album st) (AppName st) (AppBundleID st) (State st)
    (Duration st) (Position st).
Definition with_Album (st : MediaInfo) (s : string) : MediaInfo :=
  mkMediaInfo (Title st) (Artist st) s (AppName st) (AppBundleID st) (State st)
    (Duration st) (Position st).
Definition with_AppName (st : MediaInfo) (s : string) : MediaInfo :=
  mkMediaInfo (Title st) (Artist st) (Album st) s (AppBundleID st) (State st)
    (Duration st) (Position st).
Definition with_State (st : MediaInfo) (s : string) : MediaInfo :=
  mkMediaInfo (Title st) (Artist st) (Album st) (AppName st) (AppBundleID st) s
    (Duration st) (Position st).
Definition with_Duration (st : MediaInfo) (d : Z) : MediaInfo :=
  mkMediaInfo (Title st) (Artist st) (Album st) (AppName st) (AppBundleID st) (State st)
    d (Position st).
Definition with_Position (st : MediaInfo) (p : Z) : MediaInfo :=
  mkMediaInfo (Title st) (Artist st) (Album st) (AppName st) (AppBundleID st) (State st)
    (Duration st) p.

Section MediaStream.

(** [float64] stays abstract: the merge only converts it, [int(f)] and
    [int(f / 1000000)]. *)
Context {float64 : Type}.
Variable int_of_float64 : float64 -> Z.
Variable div_1000000 : float64 -> float64.

(** Go's [interface{}] with the dynamic types that occur: what
    [json.Unmarshal] produces, and [int] for the published attributes. *)
#[local] Set Warnings "-register-all".
Inductive any :=
| any_nil
| any_bool (b : bool)
| any_float64 (f : float64)
| any_string (s : string)
| any_int (i : Z)
| any_slice (l : list any)
| any_map (m : gmap string any).

(** [json.Marshal] of the attribute map. *)
Variable json_Marshal : gmap string any -> string.

(** [for k, v := range payload] visits every entry once, in an order that
    Go leaves unspecified. *)
Variable range : gmap string any -> list (string * any).

(** The body of the [switch k] inside the loop. *)
Definition mergeField (st : MediaInfo) (kv : string * any) : MediaInfo :=
  let '(k, v) := kv in
  if String.eqb k "title" then
    match v with any_string s => with_Title st s | _ => st end
  else if String.eqb k "artist" then
    match v with any_string s => with_Artist st s | _ => st end
  else if String.eqb k "album" then
    match v with any_string s => with_Album st s | _ => st end
  else if String.eqb k "appName" then
    match v with any_string s => with_AppName st s | _ => st end
  else if String.eqb k "bundleIdentifier" then
    match v with any_string s => with_AppName st s | _ => st end
  else if String.eqb k "playing" then
    match v with
    | any_bool b => if b then with_State st "playing" else with_State st "paused"
    | _ => st
    end
  else if String.eqb k "duration" then
    match v with any_float64 f => with_Duration st (int_of_float64 f) | _ => st end
  else if String.eqb k "durationMicros" then
    match v with
    | any_float64 f => with_Duration st (int_of_float64 (div_1000000 f))
    | _ => st
    end
  else if String.eqb k "totalTime" then
    match v with any_float64 f => with_Duration st (int_of_float64 f) | _ => st end
  else if String.eqb k "totalDuration" then
    match v with any_float64 f => with_Duration st (int_of_float64 f) | _ => st end
  else if String.eqb k "elapsedTime" then
    match v with any_float64 f => with_Position st (int_of_float64 f) | _ => st end
  else if String.eqb k "position" then
    match v with any_float64 f => with_Position st (int_of_float64 f) | _ => st end
  else if String.eqb k "positionMicros" then
    match v with
    | any_float64 f => with_Position st (int_of_float64 (div_1000000 f))
    | _ => st
    end
  else st.

Definition mergePayload (kvs : list (string * any)) (st : MediaInfo) : MediaInfo :=
  fold_left mergeField kvs st.

Definition attributes (st : MediaInfo) : gmap string any :=
  list_to_map
    [("state", any_string (State st)); ("title", any_string (Title st));
     ("artist", any_string (Artist st)); ("album", any_string (Album st));
     ("app_name", any_string (AppName st)); ("duration", any_int (Duration st));
     ("position", any_int (Position st))].

Definition processMediaStreamUpdate (app : Application) (mediaData : gmap string any)
  : Application * list action :=
  match mediaData !! "payload" with
  | Some (any_map payload) =>
      let st := mergePayload (range payload) (currentMediaState app) in
      let st :=
        match payload !! "playing" with
        | Some (any_bool false) => with_State st "idle"
        | _ => st
        end in
      (with_currentMediaState app st,
       [Publish (getTopicPrefix app +:+ "/status/now_playing") 0 false (State st);
        Publish (getTopicPrefix app +:+ "/status/now_playing_attr") 0 false
          (json_Marshal (attributes st));
        Log "Media stream update: %s - %s (%s)"])
  | _ => (app, [Log "Media stream: No payload in event, skipping"])
  end.

(** The media state that an event leaves. *)
Definition merged (app : Application) (mediaData : gmap string any) : MediaInfo :=
  currentMediaState (fst (processMediaStreamUpdate app mediaData)).

End MediaStream.


(** ** Activity monitor

    The activity state and the timer handle live in [Application]; the
    runtime adds the state of [activityMutex] and the timers that
    [time.AfterFunc] has created.  Every timer of this program runs the same
    callback, [app.setUserActivityState(client, "inactive")]. *)

Inductive Mutex := Unlocked | Locked | RLocked.

Record World := mkWorld {
  w_app : Application;
  activityMutex : Mutex;
  armed : gset Timer;   (* timers that have neither fired nor been stopped *)
  allocated : nat;      (* number of timers created so far *)
  fired : nat           (* callbacks of fired timers that have not run yet *)
}.

Definition with_userActivityState (app : Application) (s : string) : Application :=
  mkApplication (app_config app) (displays app) (topic app) (client app)
    (currentMediaState app) s (activityTimer app) (lastCPU app).
Definition with_activityTimer (app : Application) (t : option Timer) : Application :=
  mkApplication (app_config app) (displays app) (topic app) (client app)
    (currentMediaState app) (userActivityState app) t (lastCPU app).

(** A computation reads and writes the world and emits actions; it yields
    [None] when it touches a guarded field without holding the mutex, locks
    a mutex it already holds, or unlocks one it does not hold. *)
Definition M (A : Type) : Type := World -> option (A * World * list action).

#[export] Instance M_ret : MRet M := fun A a w => Some (a, w, []).
#[export] Instance M_bind : MBind M := fun A B f m w =>
  match m w with
  | None => None
  | Some (a, w1, t1) =>
      match f a w1 with
      | None => None
      | Some (b, w2, t2) => Some (b, w2, t1 ++ t2)
      end
  end.

Definition emit (a : action) : M unit := fun w => Some (tt, w, [a]).

Definition with_mutex (w : World) (m : Mutex) : World :=
  mkWorld (w_app w) m (armed w) (allocated w) (fired w).
Definition with_app (w : World) (app : Application) : World :=
  mkWorld app (activityMutex w) (armed w) (allocated w) (fired w).

Definition Lock : M unit := fun w =>
  match activityMutex w with
  | Unlocked => Some (tt, with_mutex w Locked, [])
  | _ => None
  end.
Definition Unlock : M unit := fun w =>
  match activityMutex w with
  | Locked => Some (tt, with_mutex w Unlocked, [])
  | _ => None
  end.
Definition RLock : M unit := fun w =>
  match activityMutex w with
  | Unlocked => Some (tt, with_mutex w RLocked, [])
  | _ => None
  end.
Definition RUnlock : M unit := fun w =>
  match activityMutex w with
  | RLocked => Some (tt, with_mutex w Unlocked, [])
  | _ => None
  end.

Definition read_userActivityState : M string := fun w =>
  match activityMutex w with
  | Unlocked => None
  | _ => Some (userActivityState (w_app w), w, [])
  end.
Definition write_userActivityState (s : string) : M unit := fun w =>
  match activityMutex w with
  | Locked => Some (tt, with_app w (with_userActivityState (w_app w) s), [])
  | _ => None
  end.
Definition read_activityTimer : M (option Timer) := fun w =>
  match activityMutex w with
  | Unlocked => None
  | _ => Some (activityTimer (w_app w), w, [])
  end.
Definition write_activityTimer (t : option Timer) : M unit := fun w =>
  match activityMutex w with
  | Locked => Some (tt, with_app w (with_activityTimer (w_app w) t), [])
  | _ => None
  end.
Definition read_config : M config := fun w => Some (app_config (w_app w), w, []).
Definition read_topicPrefix : M string := fun w => Some (getTopicPrefix (w_app w), w, []).

(** [t.Stop()] and [time.AfterFunc(d, f)]. *)
Definition Timer_stop (t : Timer) : M unit := fun w =>
  Some (tt, mkWorld (w_app w) (activityMutex w) (armed w ∖ {[t]}) (allocated w) (fired w),
        [Timer_Stop t]).
Definition time_AfterFunc (seconds : Z) : M Timer := fun w =>
  let t := allocated w in
  Some (t, mkWorld (w_app w) (activityMutex w) (armed w ∪ {[t]}) (S (allocated w)) (fired w),
        [AfterFunc t seconds]).

Definition when (b : bool) (m : M unit) : M unit := if b then m else mret tt.

(** In the three functions below [connected] is the value of
    [client != nil && client.IsConnected()] when it is evaluated. *)
Definition getUserActivityState : M string :=
  RLock ;;
  s ← read_userActivityState ;
  RUnlock ;;
  mret s.

Definition setUserActivityState (connected : bool) (state : string) : M unit :=
  Lock ;;
  cur ← read_userActivityState ;
  when (negb (String.eqb cur state))
    (write_userActivityState state ;;
     when connected
       (prefix ← read_topicPrefix ;
        emit (Publish (prefix +:+ "/status/user_activity") 0 false state) ;;
        emit (Log "User activity state changed to: %s"))) ;;
  Unlock.

Definition resetActivityTimer (connected : bool) : M unit :=
  Lock ;;
  cur ← read_userActivityState ;
  when (negb (String.eqb cur "active"))
    (write_userActivityState "active" ;;
     when connected
       (prefix ← read_topicPrefix ;
        emit (Publish (prefix +:+ "/status/user_activity") 0 false "active") ;;
        emit (Log "User activity detected - state: active"))) ;;
  timer ← read_activityTimer ;
  match timer with
  | Some t => Timer_stop t
  | None => mret tt
  end ;;
  cfg ← read_config ;
  t ← time_AfterFunc (IdleActivityTime cfg) ;
  write_activityTimer (Some t) ;;
  Unlock.

(** One [ticker.C] iteration of the goroutine of [startUserActivityMonitoring].
    [connected] answers the check at the top of the iteration, [idle] is the
    result of [getSystemIdleTime()], [connected'] answers the check inside
    [resetActivityTimer].  The result is the new [lastIdleTime]. *)
Definition monitorTick (connected : bool) (idle : Z * option error) (connected' : bool)
    (lastIdleTime : Z) : M Z :=
  if negb connected then mret lastIdleTime
  else
    let '(idleTime, err) := idle in
    match err with
    | Some _ => emit (Log "Error getting system idle time: %v") ;; mret lastIdleTime
    | None =>
        when ((idleTime <? lastIdleTime) || (idleTime <? 2)) (resetActivityTimer connected') ;;
        prefix ← read_topicPrefix ;
        emit (Publish (prefix +:+ "/status/idle_time_seconds") 0 false (strconv.Itoa idleTime)) ;;
        mret idleTime
    end.

(** A timer fires: it leaves the armed set, its callback is started and
    will take the mutex when it gets to run. *)
Definition fire (t : Timer) (w : World) : World :=
  mkWorld (w_app w) (activityMutex w) (armed w ∖ {[t]}) (allocated w) (S (fired w)).
Definition callback_started (w : World) : World :=
  mkWorld (w_app w) (activityMutex w) (armed w) (allocated w) (pred (fired w)).

(** What the goroutines of the program do to the activity state, one
    critical section (or timer expiry) at a time. *)
Inductive step : World -> World -> Prop :=
| step_get w s w' tr :
    getUserActivityState w = Some (s, w', tr) -> step w w'
| step_set connected state w w' tr :
    setUserActivityState connected state w = Some (tt, w', tr) -> step w w'
| step_reset connected w w' tr :
    resetActivityTimer connected w = Some (tt, w', tr) -> step w w'
| step_monitor connected idle connected' last last' w w' tr :
    monitorTick connected idle connected' last w = Some (last', w', tr) -> step w w'
| step_fire t w :
    t ∈ armed w -> step w (fire t w)
| step_callback connected w w' tr :
    (0 < fired w)%nat ->
    setUserActivityState connected "inactive" (callback_started w) = Some (tt, w', tr) ->
    step w w'.

(** The goroutine's loop over a sequence of ticks; [lastIdleTime] starts
    at -1. *)
Fixpoint monitorLoop (ticks : list (bool * (Z * option error) * bool)) (lastIdleTime : Z)
  : M Z :=
  match ticks with
  | [] => mret lastIdleTime
  | (connected, idle, connected') :: rest =>
      last ← monitorTick connected idle connected' lastIdleTime ;
      monitorLoop rest last
  end.

(** The world that [NewApplication] leaves: state "inactive", no timer. *)
Definition initial_world (app : Application) : World :=
  mkWorld (with_activityTimer (with_userActivityState app "inactive") None) Unlocked ∅ 0 0.

Definition is_timer_action (a : action) : bool :=
  match a with AfterFunc _ _ | Timer_Stop _ => true | _ => false end.
Definition is_Publish_to (topic payload : string) (a : action) : bool :=
  match a with
  | Publish t _ _ p => String.eqb t topic && String.eqb p payload
  | _ => false
  end.


(** ** Connect cycle *)

Definition with_SSL (app : Application) (b : bool) : Application :=
  mkApplication
    (mkConfig (IP (app_config app)) (Port (app_config app)) b
       (IdleActivityTime (app_config app)))
    (displays app) (topic app) (client app) (currentMediaState app)
    (userActivityState app) (activityTimer app) (lastCPU app).
Definition with_client (app : Application) (c : option Client) : Application :=
  mkApplication (app_config app) (displays app) (topic app) c (currentMediaState app)
    (userActivityState app) (activityTimer app) (lastCPU app).

(** What the network answers during one connect cycle: the result of the
    TCP probe of [isNetworkReachable] and [token.Error()] of
    [client.Connect()].  Every level of the recursion probes and connects at
    most once, so the answers are indexed by the retry count of the level
    that asks. *)
Record Broker := mkBroker {
  isNetworkReachable : Z -> bool;
  Connect_Error : Z -> string -> option error
}.

Definition brokerURL (app : Application) : string :=
  (if SSL (app_config app) then "ssl" else "tcp") +:+ "://" +:+
  IP (app_config app) +:+ ":" +:+ Port (app_config app).

(** The client that [mqtt.NewClient] returns at a level of the recursion. *)
Definition NewClient (retryCount : Z) : Client := Z.to_nat retryCount.

Equations? getMQTTClientWithRetry (net : Broker) (app : Application) (retryCount : Z)
  : option error * Application * list action
  by wf (Z.to_nat (MaxRetryAttempts + 1 - retryCount)) lt :=
getMQTTClientWithRetry net app retryCount with Z_lt_dec MaxRetryAttempts retryCount := {
  | left _ =>
      (Some (Errorf "failed to connect to MQTT broker after multiple attempts"), app, []);
  | right _ =>
      if negb (isNetworkReachable net retryCount) then
        (Some (Errorf "MQTT broker not reachable"), app,
         [Log "Network check failed: MQTT broker %s:%s is not reachable (%v)";
          Log "MQTT broker is not reachable on current network, will retry later"])
      else
        let attempt := [Log "Connecting to MQTT broker: %s"; NewClient_Connect (brokerURL app)] in
        match Connect_Error net retryCount (brokerURL app) with
        | Some _ =>
            if SSL (app_config app) then
              let '(err, app', tr) :=
                getMQTTClientWithRetry net (with_SSL app false) (retryCount + 1) in
              (err, app',
               attempt ++ [Log "SSL connection failed: %v. Trying non-SSL connection..."] ++ tr)
            else (Some (Errorf "failed to connect to MQTT broker: %w"), app, attempt)
        | None => (None, with_client app (Some (NewClient retryCount)), attempt)
        end }.
Proof. unfold MaxRetryAttempts in *. lia. Qed.

Definition getMQTTClient (net : Broker) (app : Application)
  : option error * Application * list action :=
  getMQTTClientWithRetry net app 0.

Definition is_NewClient_Connect (a : action) : bool :=
  match a with NewClient_Connect _ => true | _ => false end.
Definition is_fallback (a : action) : bool :=
  match a with
  | Log f => String.eqb f "SSL connection failed: %v. Trying non-SSL connection..."
  | _ => false
  end.
Definition count (p : action -> bool) (l : list action) : nat := length (List.filter p l).

(** ** CPU usage

    [float64] values are modelled exactly: a finite value is the rational it
    denotes (rounding is left out), a division by zero gives an infinity or
    NaN as in IEEE 754. *)
Inductive Float := Finite (q : Q) | Infinity (negative : bool) | NaN.

Definition Qsign_neg (q : Q) : bool := (Qnum q <? 0)%Z.
Definition Qzero (q : Q) : bool := (Qnum q =? 0)%Z.

Definition float64_of_uint64 (z : Z) : Float := Finite (inject_Z z).

Definition Float_div (a b : Float) : Float :=
  match a, b with
  | Finite x, Finite y =>
      if Qzero y then (if Qzero x then NaN else Infinity (Qsign_neg x))
      else Finite (x / y)%Q
  | Finite _, Infinity _ => Finite 0%Q
  | Infinity n, Finite y => Infinity (xorb n (Qsign_neg y))
  | _, _ => NaN
  end.

Definition Float_mul (a b : Float) : Float :=
  match a, b with
  | Finite x, Finite y => Finite (x * y)%Q
  | Finite x, Infinity n | Infinity n, Finite x =>
      if Qzero x then NaN else Infinity (xorb n (Qsign_neg x))
  | Infinity n, Infinity m => Infinity (xorb n m)
  | _, _ => NaN
  end.

Definition Float_sub (a b : Float) : Float :=
  match a, b with
  | Finite x, Finite y => Finite (x - y)%Q
  | Finite _, Infinity n => Infinity (negb n)
  | Infinity n, Finite _ => Infinity n
  | Infinity n, Infinity m => if Bool.eqb n m then NaN else Infinity n
  | _, _ => NaN
  end.

Record CPUUsage := mkCPUUsage { UsedPercent : Float; FreePercent : Float }.

(** [uint64] arithmetic wraps around. *)
Definition sub64 (a b : Z) : Z := (a - b) mod 2 ^ 64.
Definition add64 (a b : Z) : Z := (a + b) mod 2 ^ 64.

Definition with_lastCPU (app : Application) (c : Cpu) : Application :=
  mkApplication (app_config app) (displays app) (topic app) (client app)
    (currentMediaState app) (userActivityState app) (activityTimer app) c.

Definition idleDelta (cpu last : Cpu) : Z := sub64 (Idle cpu) (Idle last).

Definition totalDelta (cpu last : Cpu) : Z :=
  let userDelta := sub64 (User cpu) (User last) in
  let sysDelta := sub64 (Sys cpu) (Sys last) in
  let idleDelta := sub64 (Idle cpu) (Idle last) in
  let waitDelta := sub64 (Wait cpu) (Wait last) in
  let niceDelta := sub64 (Nice cpu) (Nice last) in
  let irqDelta := sub64 (Irq cpu) (Irq last) in
  let softIrqDelta := sub64 (SoftIrq cpu) (SoftIrq last) in
  let stolenDelta := sub64 (Stolen cpu) (Stolen last) in
  add64 (add64 (add64 (add64 (add64 (add64 (add64 userDelta sysDelta) idleDelta) waitDelta)
    niceDelta) irqDelta) softIrqDelta) stolenDelta.

(** [cpu_Get] is the result of [cpu.Get()]: the sample and its error. *)
Definition getCPUUsage (cpu_Get : Cpu * option error) (app : Application)
  : option CPUUsage * option error * Application :=
  let '(cpu, err) := cpu_Get in
  match err with
  | Some _ => (None, Some (Errorf "failed to get CPU stats: %w"), app)
  | None =>
      let idleDelta := idleDelta cpu (lastCPU app) in
      let totalDelta := totalDelta cpu (lastCPU app) in
      let app := with_lastCPU app cpu in
      if totalDelta =? 0 then
        (Some (mkCPUUsage (Finite 0) (Finite 100)), None, app)
      else
        let idlePercent :=
          Float_mul (Float_div (float64_of_uint64 idleDelta) (float64_of_uint64 totalDelta))
            (Finite 100) in
        let usedPercent := Float_sub (Finite 100) idlePercent in
        (Some (mkCPUUsage usedPercent idlePercent), None, app)
  end.

Definition is_finite (f : Float) : bool :=
  match f with Finite _ => true | _ => false end.

Definition Float_eq (f : Float) (q : Q) : Prop :=
  match f with Finite x => (x == q)%Q | _ => False end.


(** ** Periodic publication: the main event loop of [Run] *)

Record DiskUsage := mkDiskUsage {
  disk_Total : Z; disk_Used : Z; disk_Free : Z;
  disk_UsedPercent : Float; disk_FreePercent : Float
}.
Record MemoryUsage := mkMemoryUsage {
  mem_Total : Z; mem_Used : Z; mem_Free : Z;
  mem_UsedPercent : Float; mem_FreePercent : Float
}.
Record UptimeInfo := mkUptimeInfo { Seconds : Z; Human : string }.

(** What the telemetry sources answer during one iteration of the loop (the
    log lines that the sources write themselves are not recorded). *)
Record Telemetry := mkTelemetry {
  host : Host;
  getMediaDevicesState : bool * bool * option error;
  getBatteryChargePercent : string;
  getDiskUsage : option DiskUsage * option error;
  cpu_Get : Cpu * option error;
  getMemoryUsage : option MemoryUsage * option error;
  getSystemUptime : option UptimeInfo * option error;
  getPublicIP : string * option error;
  getDisplays : option (list Display);      (* [None] is the nil slice *)
  getDisplayBrightness : string -> Z * option error
}.

(** [strings.Contains]. *)
Fixpoint Contains (s substr : string) : bool :=
  String.prefix substr s ||
  match s with
  | EmptyString => false
  | String _ s' => Contains s' substr
  end.

Definition with_displays (app : Application) (ds : list Display) : Application :=
  mkApplication (app_config app) ds (topic app) (client app) (currentMediaState app)
    (userActivityState app) (activityTimer app) (lastCPU app).

Section RunLoop.

(** [fmt.Sprintf("%.2f", f)]. *)
Variable Sprintf_2f : Float -> string.

Definition updateBattery (app : Application) (tm : Telemetry) : list action :=
  [Publish (getTopicPrefix app +:+ "/status/battery") 0 false (getBatteryChargePercent tm)].

Definition updateDiskUsage (app : Application) (tm : Telemetry) : list action :=
  match getDiskUsage tm with
  | (Some diskUsage, None) =>
      [Publish (getTopicPrefix app +:+ "/status/disk/total") 0 false
         (strconv.Itoa (disk_Total diskUsage));
       Publish (getTopicPrefix app +:+ "/status/disk/used") 0 false
         (strconv.Itoa (disk_Used diskUsage));
       Publish (getTopicPrefix app +:+ "/status/disk/free") 0 false
         (strconv.Itoa (disk_Free diskUsage));
       Publish (getTopicPrefix app +:+ "/status/disk/used_percent") 0 false
         (Sprintf_2f (disk_UsedPercent diskUsage));
       Publish (getTopicPrefix app +:+ "/status/disk/free_percent") 0 false
         (Sprintf_2f (disk_FreePercent diskUsage))]
  | _ => [Log "Failed to get disk usage: %v"]
  end.

Definition updateCPUUsage (app : Application) (tm : Telemetry) : Application * list action :=
  match getCPUUsage (cpu_Get tm) app with
  | (Some cpuUsage, None, app') =>
      (app',
       [Publish (getTopicPrefix app +:+ "/status/cpu/used_percent") 0 false
          (Sprintf_2f (UsedPercent cpuUsage));
        Publish (getTopicPrefix app +:+ "/status/cpu/free_percent") 0 false
          (Sprintf_2f (FreePercent cpuUsage))])
  | (_, _, app') => (app', [Log "Failed to get CPU usage: %v"])
  end.

Definition updateMemoryUsage (app : Application) (tm : Telemetry) : list action :=
  match getMemoryUsage tm with
  | (Some memUsage, None) =>
      [Publish (getTopicPrefix app +:+ "/status/memory/total") 0 false
         (strconv.Itoa (mem_Total memUsage));
       Publish (getTopicPrefix app +:+ "/status/memory/used") 0 false
         (strconv.Itoa (mem_Used memUsage));
       Publish (getTopicPrefix app +:+ "/status/memory/free") 0 false
         (strconv.Itoa (mem_Free memUsage));
       Publish (getTopicPrefix app +:+ "/status/memory/used_percent") 0 false
         (Sprintf_2f (mem_UsedPercent memUsage));
       Publish (getTopicPrefix app +:+ "/status/memory/free_percent") 0 false
         (Sprintf_2f (mem_FreePercent memUsage))]
  | _ => [Log "Failed to get memory usage: %v"]
  end.

Definition updateUptime (app : Application) (tm : Telemetry) : list action :=
  match getSystemUptime tm with
  | (Some uptime, None) =>
      [Publish (getTopicPrefix app +:+ "/status/uptime/seconds") 0 false
         (strconv.Itoa (Seconds uptime));
       Publish (getTopicPrefix app +:+ "/status/uptime/human") 0 false (Human uptime)]
  | _ => [Log "Failed to get uptime: %v"]
  end.

Definition updateMediaDevices (app : Application) (tm : Telemetry) : list action :=
  let '(isMicOn, isCameraOn, err) := getMediaDevicesState tm in
  match err with
  | Some _ =>
      [Log "Failed to get media devices state: %v";
       Publish (getTopicPrefix app +:+ "/status/microphone") 0 false "OFF";
       Publish (getTopicPrefix app +:+ "/status/camera") 0 false "OFF"]
  | None =>
      [Publish (getTopicPrefix app +:+ "/status/microphone") 0 false
         (if isMicOn then "ON" else "OFF");
       Publish (getTopicPrefix app +:+ "/status/camera") 0 false
         (if isCameraOn then "ON" else "OFF")]
  end.

Definition updatePublicIP (app : Application) (tm : Telemetry) : list action :=
  let '(publicIP, err) := getPublicIP tm in
  match err with
  | Some _ =>
      [Log "Failed to get public IP: %v";
       Publish (getTopicPrefix app +:+ "/status/public_ip") 0 false "unavailable"]
  | None => [Publish (getTopicPrefix app +:+ "/status/public_ip") 0 false publicIP]
  end.

(** The loop over the displays of [updateDisplayBrightness]. *)
Fixpoint updateDisplayBrightness_range (app : Application) (tm : Telemetry)
    (ds : list Display) : list action :=
  match ds with
  | [] => []
  | display :: ds' =>
      let '(brightness, err) := getDisplayBrightness tm (DisplayID display) in
      match err with
      | Some _ =>
          (if String.eqb (Name display) "Built-in Display" || Contains (Name display) "Built-in"
           then []
           else
             [Log "Error getting brightness for display %s: %v"] ++
             (if negb (isBetterDisplayCLIAvailable (host tm))
              then [Log "BetterDisplay CLI is not available for display %s"] else []))
      | None =>
          [Publish
             (getTopicPrefix app +:+ "/status/display_" +:+ DisplayID display +:+ "_brightness")
             0 true (strconv.Itoa brightness)]
      end ++ updateDisplayBrightness_range app tm ds'
  end.

Definition updateDisplayBrightness (app : Application) (tm : Telemetry)
  : Application * list action :=
  if Z.of_nat (length (displays app)) =? 0 then (app, [])
  else
    let app :=
      match getDisplays tm with
      | Some currentDisplays => with_displays app currentDisplays
      | None => app
      end in
    (app, updateDisplayBrightness_range app tm (displays app)).

Inductive ticker := volumeTicker | batteryTicker | awakeTicker | networkCheckTicker.

(** The loop's own variables, next to the application. *)
Record RunState := mkRunState {
  run_app : Application;
  lastConnectionState : bool;
  networkReachable : bool
}.

(** One iteration of the [for { select { ... } }] of [Run], for the ticker
    that fired.  [IsConnected] is the answer of [app.client.IsConnected()]
    in this iteration, [reachable] that of [app.isNetworkReachable()]. *)
Definition Run_iteration (t : ticker) (IsConnected reachable : bool) (tm : Telemetry)
    (st : RunState) : RunState * list action :=
  let app := run_app st in
  match t with
  | volumeTicker =>
      if IsConnected then
        (st,
         updateVolume app (host tm) ++ updateMute app (host tm) ++ updateMediaDevices app tm ++
         [Publish (getTopicPrefix app +:+ "/status/alive") 0 true "online"])
      else if networkReachable st then
        (st, [Log "MQTT client not connected but network is reachable, connection may be recovering"])
      else (st, [])
  | batteryTicker =>
      if IsConnected then
        let '(app', cpu) := updateCPUUsage app tm in
        (mkRunState app' (lastConnectionState st) (networkReachable st),
         updateBattery app tm ++ updateDiskUsage app tm ++ cpu ++ updateMemoryUsage app' tm ++
         updateUptime app' tm ++ updatePublicIP app' tm)
      else if networkReachable st then
        (st, [Log "MQTT client not connected but network is reachable, skipping battery update"])
      else (st, [])
  | awakeTicker =>
      if IsConnected then
        let '(app', brightness) := updateDisplayBrightness app tm in
        (mkRunState app' (lastConnectionState st) (networkReachable st),
         updateCaffeinateStatus app (host tm) ++ brightness)
      else if networkReachable st then
        (st, [Log "MQTT client not connected but network is reachable, skipping status updates"])
      else (st, [])
  | networkCheckTicker =>
      let currentNetworkState := reachable in
      let currentConnectionState := IsConnected in
      let '(networkReachable1, log1) :=
        if negb (Bool.eqb currentNetworkState (networkReachable st)) then
          (currentNetworkState,
           [Log (if currentNetworkState
                 then "Network connectivity restored - MQTT broker is now reachable"
                 else "Network connectivity lost - MQTT broker is no longer reachable")])
        else (networkReachable st, []) in
      let '(lastConnectionState1, log2) :=
        if negb (Bool.eqb currentConnectionState (lastConnectionState st)) then
          (currentConnectionState,
           [Log (if currentConnectionState then "MQTT connection restored"
                 else "MQTT connection lost")])
        else (lastConnectionState st, []) in
      let log3 :=
        if currentNetworkState && negb networkReachable1 then
          if negb currentConnectionState
          then [Log "Attempting to reconnect to MQTT broker..."; Client_Connect]
          else []
        else [] in
      (mkRunState app lastConnectionState1 networkReachable1,
       (if reachable then []
        else [Log "Network check failed: MQTT broker %s:%s is not reachable (%v)"]) ++
       log1 ++ log2 ++ log3)
  end.

Definition is_telemetry_ticker (t : ticker) : bool :=
  match t with networkCheckTicker => false | _ => true end.

Definition is_Log (a : action) : bool :=
  match a with Log _ => true | _ => false end.

(** A publication of each class that carries a reading of [tm]. *)
Definition snapshot_of (t : ticker) (app : Application) (tm : Telemetry) : list action :=
  match t with
  | volumeTicker =>
      [Publish (getTopicPrefix app +:+ "/status/volume") 0 false
         (strconv.Itoa (getCurrentVolume (host tm)));
       Publish (getTopicPrefix app +:+ "/status/mute") 0 false
         (strconv.FormatBool (getMuteStatus (host tm)))]
  | batteryTicker =>
      [Publish (getTopicPrefix app +:+ "/status/battery") 0 false (getBatteryChargePercent tm)]
  | awakeTicker =>
      [Publish (getTopicPrefix app +:+ "/status/caffeinate") 0 false
         (strconv.FormatBool (getCaffeinateStatus (host tm)))]
  | networkCheckTicker => []
  end.

End RunLoop.

(** ** Reference readings of the spec side and sample inputs *)

(** Only publications and log lines. *)
Definition quiet (l : list action) : Prop :=
  forallb (fun a => is_Publish a || is_Log a) l = true.

(** [token.Error() != nil]. *)
Definition failed (e : option error) : bool :=
  match e with Some _ => true | None => false end.

(** A decimal integer literal: an optional sign, then one or more decimal
    digits.  [int_literal s] is its value, whatever its size. *)
Fixpoint digits_value (s : string) (acc : Z) : Z :=
  match s with
  | EmptyString => acc
  | String c s' => digits_value s' (acc * 10 + (strconv.byte c - 48))
  end.

Definition digits (s : string) : option Z :=
  match s with
  | EmptyString => None
  | _ => if all_in_class strconv.is_digit s then Some (digits_value s 0) else None
  end.

Definition int_literal (s : string) : option Z :=
  match s with
  | EmptyString => None
  | String c rest =>
      if Ascii.eqb c "+" then digits rest
      else if Ascii.eqb c "-" then option_map Z.opp (digits rest)
      else digits s
  end.

(** The range of Go's [int]. *)
Definition in_int_range (v : Z) : Prop := - 2 ^ 63 <= v < 2 ^ 63.

(** "An integer string with 0 <= v <= 100". *)
Definition percent_literal (payload : string) : option Z :=
  match int_literal payload with
  | Some v => if (0 <=? v) && (v <=? 100) then Some v else None
  | None => None
  end.

(** The payloads that [strconv.ParseBool] takes for a boolean. *)
Definition true_literals : list string := ["1"; "t"; "T"; "true"; "TRUE"; "True"].
Definition false_literals : list string := ["0"; "f"; "F"; "false"; "FALSE"; "False"].

Definition bool_literal (payload : string) : option bool :=
  if strconv.str_in true_literals payload then Some true
  else if strconv.str_in false_literals payload then Some false
  else None.

Definition brightness_topic (app : Application) (topic : string) (d : Display) : bool :=
  String.eqb topic
    (getTopicPrefix app +:+ "/command/display_" +:+ DisplayID d +:+ "_brightness").

(** The world and the trace that [resetActivityTimer] leaves when it is
    entered with the mutex free. *)
Definition activated (app : Application) : Application :=
  if String.eqb (userActivityState app) "active" then app
  else with_userActivityState app "active".

Definition stop_of (timer : option Timer) : list action :=
  match timer with Some t => [Timer_Stop t] | None => [] end.

Definition reset_world (w : World) : World :=
  mkWorld (with_activityTimer (activated (w_app w)) (Some (allocated w)))
    Unlocked
    (match activityTimer (w_app w) with
     | Some t => armed w ∖ {[t]}
     | None => armed w
     end ∪ {[allocated w]})
    (S (allocated w)) (fired w).

Definition reset_trace (connected : bool) (w : World) : list action :=
  (if negb (String.eqb (userActivityState (w_app w)) "active") && connected
   then [Publish (getTopicPrefix (w_app w) +:+ "/status/user_activity") 0 false "active";
         Log "User activity detected - state: active"]
   else []) ++
  stop_of (activityTimer (w_app w)) ++
  [AfterFunc (allocated w) (IdleActivityTime (app_config (w_app w)))].

(** Between two critical sections the mutex is free, and an armed timer is
    the one the handle refers to. *)
Definition Inv (w : World) : Prop :=
  activityMutex w = Unlocked /\
  forall t, t ∈ armed w -> activityTimer (w_app w) = Some t.

Definition idle_media : MediaInfo :=
  mkMediaInfo EmptyString EmptyString EmptyString EmptyString EmptyString "idle" 0 0.
Definition song : MediaInfo :=
  mkMediaInfo "Old title" "Artist" "Album" "Music" EmptyString "playing" 240 17.
Definition app0 (m : MediaInfo) : Application :=
  mkApplication (mkConfig "10.0.0.2" "1883" true 10) [] "mac2mqtt/host" None m "inactive" None
    (mkCpu 0 0 0 0 0 0 0 0).
Definition host0 : Host := mkHost 40 false false (fun _ _ => None) true.

Definition telemetry0 : Telemetry :=
  mkTelemetry host0 (true, false, None) "87"
    (Some (mkDiskUsage 1000 400 600 (Finite 40) (Finite 60)), None)
    (mkCpu 10 0 10 60 0 0 0 0, None)
    (Some (mkMemoryUsage 16 8 8 (Finite 50) (Finite 50)), None)
    (Some (mkUptimeInfo 3600 "1:00"), None)
    ("203.0.113.7", None) None (fun _ => (50, None)).

Definition run0 : RunState := mkRunState (app0 idle_media) false true.

(** The idle samples of the debounce example, each on a connected client. *)
Definition idle_samples : list Z := [5; 3; 1; 2; 4; 6; 8].
Definition ticks_of (samples : list Z) : list (bool * (Z * option error) * bool) :=
  map (fun i => (true, (i, None), true)) samples.

(** The world after the first rearm. *)
Definition world1 : World := reset_world (initial_world (app0 idle_media)).

(** Events of the media stream, with JSON numbers that are integers. *)
Definition stream_event (payload : gmap string (@any Z)) : gmap string (@any Z) :=
  {[ "type" := any_string "data"; "diff" := any_bool true; "payload" := any_map payload ]}.

Definition merged_Z (app : Application) (mediaData : gmap string (@any Z)) : MediaInfo :=
  merged id (fun f => f / 1000000) (fun _ => "{}") map_to_list app mediaData.

(** ** Reference readings for the connect cycle and the periodic publication *)



(** The snapshot of a telemetry ticker, as the spec has it: the status
    topics of the ticker's classes, each with the value that is read at that
    moment.  A reading that fails has no entry; the media devices then count
    as off and the public address as unavailable. *)
Record reading := mkReading { r_topic : string; r_retained : bool; r_payload : string }.

Definition publication (app : Application) (r : reading) : action :=
  Publish (getTopicPrefix app +:+ "/status/" +:+ r_topic r) 0 (r_retained r) (r_payload r).

Definition on_off (b : bool) : string := if b then "ON" else "OFF".

Definition current_snapshot (Sprintf_2f : Float -> string) (t : ticker) (app : Application)
    (tm : Telemetry) : list reading :=
  match t with
  | volumeTicker =>
      let '(mic, camera, err) := getMediaDevicesState tm in
      [mkReading "volume" false (strconv.Itoa (getCurrentVolume (host tm)));
       mkReading "mute" false (strconv.FormatBool (getMuteStatus (host tm)));
       mkReading "microphone" false (on_off (negb (failed err) && mic));
       mkReading "camera" false (on_off (negb (failed err) && camera));
       mkReading "alive" true "online"]
  | batteryTicker =>
      [mkReading "battery" false (getBatteryChargePercent tm)] ++
      match getDiskUsage tm with
      | (Some disk, None) =>
          [mkReading "disk/total" false (strconv.Itoa (disk_Total disk));
           mkReading "disk/used" false (strconv.Itoa (disk_Used disk));
           mkReading "disk/free" false (strconv.Itoa (disk_Free disk));
           mkReading "disk/used_percent" false (Sprintf_2f (disk_UsedPercent disk));
           mkReading "disk/free_percent" false (Sprintf_2f (disk_FreePercent disk))]
      | _ => []
      end ++
      match getCPUUsage (cpu_Get tm) app with
      | (Some cpu, None, _) =>
          [mkReading "cpu/used_percent" false (Sprintf_2f (UsedPercent cpu));
           mkReading "cpu/free_percent" false (Sprintf_2f (FreePercent cpu))]
      | _ => []
      end ++
      match getMemoryUsage tm with
      | (Some memory, None) =>
          [mkReading "memory/total" false (strconv.Itoa (mem_Total memory));
           mkReading "memory/used" false (strconv.Itoa (mem_Used memory));
           mkReading "memory/free" false (strconv.Itoa (mem_Free memory));
           mkReading "memory/used_percent" false (Sprintf_2f (mem_UsedPercent memory));
           mkReading "memory/free_percent" false (Sprintf_2f (mem_FreePercent memory))]
      | _ => []
      end ++
      match getSystemUptime tm with
      | (Some uptime, None) =>
          [mkReading "uptime/seconds" false (strconv.Itoa (Seconds uptime));
           mkReading "uptime/human" false (Human uptime)]
      | _ => []
      end ++
      [mkReading "public_ip" false
         (if failed (snd (getPublicIP tm)) then "unavailable" else fst (getPublicIP tm))]
  | awakeTicker =>
      mkReading "caffeinate" false (strconv.FormatBool (getCaffeinateStatus (host tm))) ::
      flat_map
        (fun display =>
           match getDisplayBrightness tm (DisplayID display) with
           | (brightness, None) =>
               [mkReading ("display_" +:+ DisplayID display +:+ "_brightness") true
                  (strconv.Itoa brightness)]
           | _ => []
           end)
        (match displays app, getDisplays tm with
         | [], _ => []
         | _ :: _, Some currentDisplays => currentDisplays
         | known, None => known
         end)
  | networkCheckTicker => []
  end.

(** * Further functions *)

(** ** The command router *)

(** The calls of the router: those of [action], the system commands and the
    play/pause toggle, and the pause that [handlePlayPauseCommand] makes. *)
Inductive call :=
| Act (a : action)
| commandSleep
| commandDisplaySleep
| commandDisplayWake
| commandShutdown
| commandScreensaver
| commandPlayPause
| time_Sleep_500ms.

Definition acts (l : list action) : list call := map Act l.

(** A call that changes the host. *)
Definition is_command (c : call) : bool :=
  match c with
  | Act a => is_capability a
  | time_Sleep_500ms => false
  | _ => true
  end.

Definition handleSystemCommand (app : Application) (topic payload : string)
  : bool * list call :=
  if negb (String.eqb topic (getTopicPrefix app +:+ "/command/set")) then (false, [])
  else
    (true,
     if String.eqb payload "sleep" then [commandSleep]
     else if String.eqb payload "displaysleep" then [commandDisplaySleep]
     else if String.eqb payload "displaywake" then [commandDisplayWake]
     else if String.eqb payload "shutdown" then [commandShutdown]
     else if String.eqb payload "screensaver" then [commandScreensaver]
     else [Act (Log "Unknown system command: %s")]).

(** The error of [getMediaInfo]: a [*MediaControlError] or another one. *)
Inductive media_error :=
| MediaControlError (message : string)
| media_other (e : error).

Section MediaControl.

Context {float64 : Type}.
Variable int_of_float64 : float64 -> Z.
Variable div_1000000 : float64 -> float64.
Variable json_Marshal : gmap string (@any float64) -> string.
(** [json.Unmarshal] into a [map[string]interface{}]. *)
Variable json_Unmarshal : string -> gmap string (@any float64) * option error.

Definition string_field (mediaData : gmap string (@any float64)) (k : string) : string :=
  match mediaData !! k with
  | Some (any_string s) => if negb (String.eqb s EmptyString) then s else EmptyString
  | _ => EmptyString
  end.

(** [isMediaControlAvailable] and [Output] are what [exec.LookPath] and
    [exec.Command("media-control", "get").Output()] answer. *)
Definition getMediaInfo (isMediaControlAvailable : bool) (Output : string * option error)
  : option MediaInfo * option media_error :=
  if negb isMediaControlAvailable then
    (None, Some (MediaControlError "Media Control is not installed or not accessible"))
  else
    let '(out, err) := Output in
    match err with
    | Some _ => (None, Some (media_other (Errorf "error getting media info: %v")))
    | None =>
        let '(mediaData, err) := json_Unmarshal out in
        match err with
        | Some _ =>
            (None, Some (media_other (Errorf "error parsing media-control JSON output: %v")))
        | None =>
            match mediaData !! "playing" with
            | Some (any_bool true) =>
                let duration :=
                  match mediaData !! "duration" with
                  | Some (any_float64 d) => int_of_float64 d
                  | _ =>
                      match mediaData !! "durationMicros" with
                      | Some (any_float64 d) => int_of_float64 (div_1000000 d)
                      | _ =>
                          match mediaData !! "totalTime" with
                          | Some (any_float64 d) => int_of_float64 d
                          | _ =>
                              match mediaData !! "totalDuration" with
                              | Some (any_float64 d) => int_of_float64 d
                              | _ => 0
                              end
                          end
                      end
                  end in
                let position :=
                  match mediaData !! "elapsedTime" with
                  | Some (any_float64 p) => int_of_float64 p
                  | _ =>
                      match mediaData !! "position" with
                      | Some (any_float64 p) => int_of_float64 p
                      | _ =>
                          match mediaData !! "positionMicros" with
                          | Some (any_float64 p) => int_of_float64 (div_1000000 p)
                          | _ => 0
                          end
                      end
                  end in
                (Some (mkMediaInfo (string_field mediaData "title")
                         (string_field mediaData "artist") (string_field mediaData "album")
                         (string_field mediaData "appName") EmptyString "playing"
                         duration position),
                 None)
            | _ => (None, None)
            end
        end
    end.

(** The [switch mediaInfo.State] of the two update functions. *)
Definition published_state (mediaInfo : MediaInfo) : string :=
  if String.eqb (State mediaInfo) "playing" then "playing"
  else if String.eqb (State mediaInfo) "paused" then "paused"
  else if String.eqb (State mediaInfo) "stopped" then "idle"
  else "idle".

Definition now_playing_attributes (state title artist album appName : string)
    (duration position : Z) : gmap string (@any float64) :=
  list_to_map
    [("state", any_string state); ("title", any_string title);
     ("artist", any_string artist); ("album", any_string album);
     ("app_name", any_string appName); ("duration", any_int duration);
     ("position", any_int position)].

Definition updateNowPlaying (app : Application) (isMediaControlAvailable : bool)
    (Output : string * option error) : list action :=
  match getMediaInfo isMediaControlAvailable Output with
  | (_, Some (MediaControlError _)) => [Log "Media Control is not available: %v"]
  | (_, Some (media_other _)) => [Log "Error getting media info: %v"]
  | (None, None) =>
      [Publish (getTopicPrefix app +:+ "/status/now_playing") 0 false "idle";
       Publish (getTopicPrefix app +:+ "/status/now_playing_attr") 0 false
         (json_Marshal
            (now_playing_attributes "idle" EmptyString EmptyString EmptyString EmptyString 0 0))]
  | (Some mediaInfo, None) =>
      let state := published_state mediaInfo in
      [Publish (getTopicPrefix app +:+ "/status/now_playing") 0 false state;
       Publish (getTopicPrefix app +:+ "/status/now_playing_attr") 0 false
         (json_Marshal
            (now_playing_attributes state (Title mediaInfo) (Artist mediaInfo)
               (Album mediaInfo) (AppName mediaInfo) (Duration mediaInfo)
               (Position mediaInfo)));
       Log "Updated now playing sensor: %s - %s (%s)"]
  end.

Definition media_player_state (state title artist album appName : string)
    (duration position : Z) : gmap string (@any float64) :=
  list_to_map
    [("state", any_string state); ("title", any_string title);
     ("artist", any_string artist); ("album", any_string album);
     ("app_name", any_string appName); ("duration", any_int duration);
     ("position", any_int position); ("media_title", any_string title);
     ("media_artist", any_string artist); ("media_album", any_string album)].

Definition publishMediaState (app : Application) (state title artist album appName : string)
    (duration position : Z) : list action :=
  [Publish (getTopicPrefix app +:+ "/status/media_state") 0 false state;
   Publish (getTopicPrefix app +:+ "/status/media_title") 0 false title;
   Publish (getTopicPrefix app +:+ "/status/media_artist") 0 false artist;
   Publish (getTopicPrefix app +:+ "/status/media_album") 0 false album;
   Publish (getTopicPrefix app +:+ "/status/media_app") 0 false appName;
   Publish (getTopicPrefix app +:+ "/status/media_duration") 0 false (strconv.Itoa duration);
   Publish (getTopicPrefix app +:+ "/status/media_position") 0 false (strconv.Itoa position);
   Publish (getTopicPrefix app +:+ "/status/media_player") 0 false
     (json_Marshal (media_player_state state title artist album appName duration position));
   Log "Published media state to %s: %s"].

Definition updateMediaPlayer (app : Application) (isMediaControlAvailable : bool)
    (Output : string * option error) : list action :=
  match getMediaInfo isMediaControlAvailable Output with
  | (_, Some (MediaControlError _)) =>
      [Log "Media Control is not available: %v";
       Log "To install Media Control:";
       Log "  1. Install via npm: npm install -g media-control";
       Log "  2. Or install via Homebrew: brew install media-control";
       Log "Media player information will be disabled until Media Control is available"]
  | (_, Some (media_other _)) => [Log "Error getting media info: %v"]
  | (None, None) =>
      [Log "No media playing - publishing idle state"] ++
      publishMediaState app "idle" EmptyString EmptyString EmptyString EmptyString 0 0
  | (Some mediaInfo, None) =>
      let state := published_state mediaInfo in
      [Log "Media playing: %s - %s (%s)"] ++
      publishMediaState app state (Title mediaInfo) (Artist mediaInfo) (Album mediaInfo)
        (AppName mediaInfo) (Duration mediaInfo) (Position mediaInfo)
  end.

Definition handlePlayPauseCommand (app : Application) (isMediaControlAvailable : bool)
    (Output : string * option error) (topic payload : string) : bool * list call :=
  if negb (String.eqb topic (getTopicPrefix app +:+ "/command/playpause")) then (false, [])
  else
    (true,
     if String.eqb payload "playpause" then
       [commandPlayPause; time_Sleep_500ms] ++
       acts (updateNowPlaying app isMediaControlAvailable Output)
     else []).

(** A handler that did not consume the message hands it to the next one. *)
Definition or_else (handled : bool * list call) (next : list call) : list call :=
  if fst handled then snd handled else snd handled ++ next.

Definition lift (handled : bool * list action) : bool * list call :=
  (fst handled, acts (snd handled)).

Definition listen (app : Application) (h : Host) (isMediaControlAvailable : bool)
    (Output : string * option error) (topic payload : string) : list call :=
  or_else (lift (handleVolumeCommand app h topic payload))
  (or_else (lift (handleMuteCommand app h topic payload))
  (or_else (handleSystemCommand app topic payload)
  (or_else (lift (handleDisplayBrightnessCommand app h topic payload))
  (or_else (lift (handleShortcutCommand app topic payload))
  (or_else (lift (handleKeepAwakeCommand app h topic payload))
  (or_else (handlePlayPauseCommand app isMediaControlAvailable Output topic payload)
     [])))))).

Definition messagePubHandler (app : Application) (h : Host) (isMediaControlAvailable : bool)
    (Output : string * option error) (topic payload : string) : list call :=
  Act (Log "Received message: %s from topic: %s") ::
  listen app h isMediaControlAvailable Output topic payload.

End MediaControl.

(** The command a payload on the [set] topic names. *)
Definition system_command (payload : string) : option call :=
  if String.eqb payload "sleep" then Some commandSleep
  else if String.eqb payload "displaysleep" then Some commandDisplaySleep
  else if String.eqb payload "displaywake" then Some commandDisplayWake
  else if String.eqb payload "shutdown" then Some commandShutdown
  else if String.eqb payload "screensaver" then Some commandScreensaver
  else None.

Definition failed_media (e : option media_error) : bool :=
  match e with Some _ => true | None => false end.

(** ** The start of [Run] *)

(** How [Run] gets from its connection attempt to its main loop: it returns
    an error, it panics (a method call on the nil [app.client]), or it goes
    on with the value of [app.client.IsConnected()]. *)
Inductive Run_outcome :=
| Run_returns (err : error)
| Run_panics
| Run_goes_on (app : Application) (lastConnectionState : bool).

(** [Run] from "Starting MQTT connection..." to [lastConnectionState :=
    app.client.IsConnected()] (the tickers created in between have no effect
    yet).  [reachable] answers the probe that follows a failed connection,
    [IsConnected] the call on the client. *)
Definition Run_connect (net : Broker) (reachable IsConnected : bool) (app : Application)
  : Run_outcome * list action :=
  let '(err, app, tr) := getMQTTClient net app in
  let tr := [Log "Starting MQTT connection..."] ++ tr in
  let go_on (tr : list action) :=
    match client app with
    | None => (Run_panics, tr)
    | Some _ => (Run_goes_on app IsConnected, tr)
    end in
  match err with
  | Some _ =>
      let tr := tr ++ [Log "Initial MQTT connection failed: %v"] in
      if negb reachable then
        go_on (tr ++
               [Log "Network check failed: MQTT broker %s:%s is not reachable (%v)";
                Log "MQTT broker not reachable - starting in offline mode";
                Log "Operating in offline mode - MQTT broker not reachable";
                Log "Application will continue monitoring system state and attempt to reconnect periodically"])
      else (Run_returns (Errorf "failed to connect to MQTT: %w"), tr)
  | None => go_on tr
  end.

(** [Run_iteration] over a sequence of events of the loop. *)
Fixpoint Run_iterations (Sprintf_2f : Float -> string)
    (events : list (ticker * bool * bool * Telemetry)) (st : RunState)
  : RunState * list action :=
  match events with
  | [] => (st, [])
  | (t, IsConnected, reachable, tm) :: rest =>
      let '(st1, tr1) := Run_iteration Sprintf_2f t IsConnected reachable tm st in
      let '(st2, tr2) := Run_iterations Sprintf_2f rest st1 in
      (st2, tr1 ++ tr2)
  end.

(** ** Reference readings for the further properties *)


(** Idle samples that neither drop nor fall below the floor of 2 seconds. *)
Fixpoint rising (previous : Z) (samples : list Z) : bool :=
  match samples with
  | [] => true
  | i :: rest => (previous <=? i) && (2 <=? i) && rising i rest
  end.

(** Ticks on which the monitor takes no sample: the client is not connected,
    or the idle time cannot be read. *)
Definition no_sample (tick : bool * (Z * option error) * bool) : bool :=
  let '(connected, (_, err), _) := tick in negb connected || failed err.

Definition idle_publications (app : Application) (samples : list Z) : list action :=
  map (fun i => Publish (getTopicPrefix app +:+ "/status/idle_time_seconds") 0 false
                  (strconv.Itoa i)) samples.

(** The world after the first timer has fired, its callback not run yet. *)
Definition world2 : World := fire 0%nat world1.

(** ** Host queries

    The functions that read the host parse the output of a command or of a
    library call; that output is their argument here.  They live in a module
    of their own because [Telemetry] already uses their names for their
    results. *)
Module sources.

(** The class [[a-zA-Z0-9_-]]. *)
Definition name_class (c : ascii) : bool :=
  let b := strconv.byte c in
  ((97 <=? b) && (b <=? 122)) || ((65 <=? b) && (b <=? 90)) ||
  ((48 <=? b) && (b <=? 57)) || (b =? 95) || (b =? 45).

(** [reg.ReplaceAllString(s, "")] for the pattern [[^a-zA-Z0-9_-]+]: every
    run of bytes outside the class is dropped (a byte of 128 or more belongs
    to a rune outside the class). *)
Fixpoint remove_symbols (s : string) : string :=
  match s with
  | EmptyString => EmptyString
  | String c s' => if name_class c then String c (remove_symbols s') else remove_symbols s'
  end.

(** [strings.Split(s, ".")[0]]. *)
Fixpoint first_part (s : string) : string :=
  match s with
  | EmptyString => EmptyString
  | String c s' => if Ascii.eqb c "." then EmptyString else String c (first_part s')
  end.

Fixpoint has_byte (sep : ascii) (s : string) : bool :=
  match s with
  | EmptyString => false
  | String c s' => Ascii.eqb c sep || has_byte sep s'
  end.


(** [getHostname]; [None] is the exit of [log.Fatal]. *)
Definition getHostname (os_Hostname : string * option error) : option string :=
  let '(hostname, err) := os_Hostname in
  match err with
  | Some _ => None
  | None => Some (remove_symbols (first_part hostname))
  end.


(** The longest prefix of decimal digits, and what follows it. *)
Fixpoint take_digits (s : string) : string * string :=
  match s with
  | EmptyString => (EmptyString, EmptyString)
  | String c s' =>
      if strconv.is_digit c then
        let '(run, rest) := take_digits s' in (String c run, rest)
      else (EmptyString, s)
  end.

(** [r.FindStringSubmatch(s)[1]] for the pattern [(\d+)%]: the digits of the
    leftmost place where digits are followed by a percent sign.  A run of
    digits is taken whole, and giving digits back cannot help, since what
    follows a shorter run is a digit. *)
Fixpoint FindPercent (s : string) : option string :=
  match s with
  | EmptyString => None
  | String c s' =>
      if strconv.is_digit c then
        match take_digits s with
        | (run, String "%" _) => Some run
        | _ => FindPercent s'
        end
      else FindPercent s'
  end.

(** [getBatteryChargePercent], from the output of [pmset -g batt]. *)
Definition getBatteryChargePercent (output : string) : string :=
  match FindPercent output with
  | None => EmptyString
  | Some percent => percent
  end.





(** [%02d] of a number that is not negative. *)
Definition Sprintf_02d (n : Z) : string :=
  if n <? 10 then "0" +:+ strconv.Itoa n else strconv.Itoa n.

(** [getSystemUptime]; [uptime_Get] is [uint64(uptime.Length)] and the error
    of [uptime.Get()]. *)
Definition getSystemUptime (uptime_Get : Z * option error) : option UptimeInfo * option error :=
  let '(totalSeconds, err) := uptime_Get in
  match err with
  | Some _ => (None, Some (Errorf "failed to get uptime: %w"))
  | None =>
      let days := totalSeconds / 86400 in
      let hours := (totalSeconds mod 86400) / 3600 in
      let minutes := (totalSeconds mod 3600) / 60 in
      let uptimeHuman :=
        if 0 <? days
        then strconv.Itoa days +:+ " days, " +:+ strconv.Itoa hours +:+ ":" +:+
             Sprintf_02d minutes
        else strconv.Itoa hours +:+ ":" +:+ Sprintf_02d minutes in
      (Some (mkUptimeInfo totalSeconds uptimeHuman), None)
  end.

(** [sigar.FileSystemUsage], in KB. *)
Record FileSystemUsage := mkFileSystemUsage { fs_Total : Z; fs_Used : Z; fs_Free : Z }.

Definition mul64 (a b : Z) : Z := (a * b) mod 2 ^ 64.

(** The loop of [getDiskUsage] over [fs.List]; [usage_Get] answers
    [usage.Get(filesystem.DirName)]. *)
Fixpoint getDiskUsage_range (DirNames : list string)
    (usage_Get : string -> FileSystemUsage * option error) : option DiskUsage * option error :=
  match DirNames with
  | [] => (None, Some (Errorf "root filesystem not found"))
  | DirName :: rest =>
      if String.eqb DirName "/" then
        let '(usage, err) := usage_Get DirName in
        match err with
        | Some _ => (None, Some (Errorf "failed to get disk usage: %w"))
        | None =>
            let totalBytes := mul64 (fs_Total usage) 1024 in
            let usedBytes := mul64 (fs_Used usage) 1024 in
            let freeBytes := mul64 (fs_Free usage) 1024 in
            let '(usedPercent, freePercent) :=
              if 0 <? totalBytes then
                (Float_mul (Float_div (float64_of_uint64 usedBytes)
                              (float64_of_uint64 totalBytes)) (Finite 100),
                 Float_mul (Float_div (float64_of_uint64 freeBytes)
                              (float64_of_uint64 totalBytes)) (Finite 100))
              else (Finite 0, Finite 0) in
            (Some (mkDiskUsage totalBytes usedBytes freeBytes usedPercent freePercent), None)
        end
      else getDiskUsage_range rest usage_Get
  end.

Definition getDiskUsage (fs_Get : list string * option error)
    (usage_Get : string -> FileSystemUsage * option error) : option DiskUsage * option error :=
  let '(DirNames, err) := fs_Get in
  match err with
  | Some _ => (None, Some (Errorf "failed to get filesystem list: %w"))
  | None => getDiskUsage_range DirNames usage_Get
  end.

End sources.

(** ** What a command may be

    [validated app payload c]: the call [c] is one that the payload of the
    message allows.  Publications, log lines and the pause of the play/pause
    handler are not commands. *)
Definition validated (app : Application) (payload : string) (c : call) : Prop :=
  match c with
  | Act (setVolume v) => percent_literal payload = Some v
  | Act (setMute b) => bool_literal payload = Some b
  | Act (setDisplayBrightness id v) =>
      percent_literal payload = Some v /\ exists d, In d (displays app) /\ DisplayID d = id
  | Act (commandRunShortcut s) =>
      s = payload /\ s <> EmptyString /\ all_in_class shortcut_class s = true
  | Act commandKeepAwake => bool_literal payload = Some true
  | Act commandAllowSleep => bool_literal payload = Some false
  | Act _ => True
  | commandPlayPause => payload = "playpause"
  | time_Sleep_500ms => True
  | c' => system_command payload = Some c'
  end.

(** ** Start-up: [getConfig], [validateConfig], [NewApplication] *)

(** How a function that may leave the program ends. *)
Inductive outcome (A : Type) :=
| returns (a : A)
| log_Fatal (v : string)
| panic.
Arguments returns {A} a.
Arguments log_Fatal {A} v.
Arguments panic {A}.

Module startup.

Definition DefaultDiscoveryPrefix : string := "homeassistant".
Definition DefaultTopicPrefix : string := "mac2mqtt".

(** The fields of the configuration that the running program reads. *)
Definition fields_in_use (ip port : string) (ssl : bool) (idle : Z) := mkConfig ip port ssl idle.

(** The struct [config] with all the keys of [mac2mqtt.yaml]. *)
Record config := mkConfig {
  IP : string;
  Port : string;
  User : string;
  Password : string;
  SSL : bool;
  Hostname : string;
  Topic : string;
  DiscoveryPrefix : string;
  IdleActivityTime : Z
}.

(** [&config{}]. *)
Definition zero : config :=
  mkConfig EmptyString EmptyString EmptyString EmptyString false EmptyString EmptyString
    EmptyString 0.

Definition with_Hostname (c : config) (s : string) : config :=
  mkConfig (IP c) (Port c) (User c) (Password c) (SSL c) s (Topic c) (DiscoveryPrefix c)
    (IdleActivityTime c).
Definition with_DiscoveryPrefix (c : config) (s : string) : config :=
  mkConfig (IP c) (Port c) (User c) (Password c) (SSL c) (Hostname c) (Topic c) s
    (IdleActivityTime c).

Definition validateConfig (c : config) : config * option error :=
  if String.eqb (IP c) EmptyString then (c, Some (Errorf "mqtt_ip is required"))
  else if String.eqb (Port c) EmptyString then (c, Some (Errorf "mqtt_port is required"))
  else
    (if String.eqb (DiscoveryPrefix c) EmptyString
     then with_DiscoveryPrefix c DefaultDiscoveryPrefix else c,
     None).

Section Startup.

Context {float64 : Type}.
Variable int_of_float64 : float64 -> Z.
Variable div_1000000 : float64 -> float64.
Variable json_Unmarshal : string -> gmap string (@any float64) * option error.
Variable filepath_Dir : string -> string.
(** [yaml.Unmarshal(configContent, c)]: the struct it leaves, and its error. *)
Variable yaml_Unmarshal : string -> config -> config * option error.

(** [os_Executable], [os_ReadFile] and [os_Hostname] are what the operating
    system answers. *)
Definition getConfig (os_Executable : string * option error)
    (os_ReadFile : string -> string * option error) (os_Hostname : string * option error)
    (c : config) : outcome config * list action :=
  let '(ex, err) := os_Executable in
  match err with
  | Some _ => (panic, [])
  | None =>
      let exPath := filepath_Dir ex in
      let '(configContent, err) := os_ReadFile (exPath +:+ "/mac2mqtt.yaml") in
      match err with
      | Some _ => (log_Fatal "No config file provided", [Log "Path: %v"])
      | None =>
          let '(c, err) := yaml_Unmarshal configContent c in
          match err with
          | Some _ => (log_Fatal "No data in config file", [Log "Path: %v"])
          | None =>
              if String.eqb (IP c) EmptyString then
                (log_Fatal "Must specify mqtt_ip in mac2mqtt.yaml", [Log "Path: %v"])
              else
                let logs :=
                  [Log "Path: %v"] ++
                  (if IdleActivityTime c =? 0
                   then [Log "No idle_activity_time specified in config, using default 10 seconds"]
                   else []) in
                if String.eqb (Port c) EmptyString then
                  (log_Fatal "Must specify mqtt_port in mac2mqtt.yaml", logs)
                else
                  match
                    (if String.eqb (Hostname c) EmptyString
                     then option_map (with_Hostname c) (sources.getHostname os_Hostname)
                     else Some c)
                  with
                  | None => (log_Fatal "%v", logs)
                  | Some c =>
                      (returns (if String.eqb (DiscoveryPrefix c) EmptyString
                                then with_DiscoveryPrefix c "homeassistant" else c),
                       logs)
                  end
          end
      end
  end.

(** [NewApplication]; [getDisplays] is the result of [getDisplays()] with its
    log lines, [lastCPU_Get] what [app.lastCPU.Get()] leaves and its error.
    The result is the pair that Go returns, the application and the error. *)
Definition NewApplication (os_Executable : string * option error)
    (os_ReadFile : string -> string * option error) (os_Hostname : string * option error)
    (getDisplays : list Display * list action)
    (isMediaControlAvailable : bool) (Output : string * option error)
    (lastCPU_Get : Cpu * option error)
  : outcome (option Application * option error) * list action :=
  match getConfig os_Executable os_ReadFile os_Hostname zero with
  | (panic, logs) => (panic, logs)
  | (log_Fatal v, logs) => (log_Fatal v, logs)
  | (returns c, logs) =>
      match
        (if String.eqb (Hostname c) EmptyString then sources.getHostname os_Hostname
         else Some (Hostname c))
      with
      | None => (log_Fatal "%v", logs)
      | Some hostname =>
          let topic :=
            if String.eqb (Topic c) EmptyString then DefaultTopicPrefix +:+ "/" +:+ hostname
            else Topic c +:+ "/" +:+ hostname in
          let '(c, err) := validateConfig c in
          match err with
          | Some _ => (returns (None, Some (Errorf "configuration validation failed: %w")), logs)
          | None =>
              let currentMediaState :=
                if isMediaControlAvailable then
                  match
                    getMediaInfo int_of_float64 div_1000000 json_Unmarshal
                      isMediaControlAvailable Output
                  with
                  | (Some mediaInfo, None) => mediaInfo
                  | _ => mkMediaInfo EmptyString EmptyString EmptyString EmptyString EmptyString
                           "idle" 0 0
                  end
                else mkMediaInfo EmptyString EmptyString EmptyString EmptyString EmptyString
                       "idle" 0 0 in
              let '(cpu, err) := lastCPU_Get in
              (returns
                 (Some (mkApplication
                          (fields_in_use (IP c) (Port c) (SSL c) (IdleActivityTime c))
                          (fst getDisplays) topic None currentMediaState "inactive" None cpu),
                  None),
               logs ++ snd getDisplays ++
               match err with
               | Some _ => [Log "Warning: Failed to initialize CPU stats: %v"]
               | None => []
               end)
          end
      end
  end.

(** The configuration that [getConfig] reads from the file. *)
Definition file_config (os_Executable : string * option error)
    (os_ReadFile : string -> string * option error) : config :=
  fst (yaml_Unmarshal (fst (os_ReadFile (filepath_Dir (fst os_Executable) +:+ "/mac2mqtt.yaml")))
         zero).

End Startup.

End startup.

(** ** The mute status of the host: [getCommandOutput], [getMuteStatus] *)

Module audio.

(** What [getMuteStatus] does besides returning: log lines and the HTTP
    request of the fallback. *)
Inductive event :=
| Println (s : string)
| Printf (format : string)
| http_Get (url : string).

(** The result of [http.Get] and of reading the body of its response. *)
Inductive response :=
| Get_fails
| no_response
| ReadAll_fails
| Body (s : string).

(** [strings.TrimSuffix(s, "\n")]. *)
Fixpoint TrimSuffix_newline (s : string) : string :=
  match s with
  | EmptyString => EmptyString
  | String c s' =>
      match s' with
      | EmptyString => if Ascii.eqb c "010" then EmptyString else s
      | _ => String c (TrimSuffix_newline s')
      end
  end.

(** [strings.ReplaceAll(s, " ", "%20")]. *)
Fixpoint ReplaceAll_space (s : string) : string :=
  match s with
  | EmptyString => EmptyString
  | String c s' =>
      if Ascii.eqb c " " then "%20" +:+ ReplaceAll_space s' else String c (ReplaceAll_space s')
  end.

(** [getCommandOutput]; [None] is the exit of [log.Fatal]. *)
Definition getCommandOutput (Output : string * option error) : option string :=
  let '(stdout, err) := Output in
  match err with
  | Some _ => None
  | None => Some (TrimSuffix_newline stdout)
  end.

Definition mute_url (currentsource : string) : string :=
  "http://localhost:55777/get?name=" +:+ ReplaceAll_space currentsource +:+ "&mute".

(** [getMuteStatus]; [osascript] and [switchaudiosource] are the outputs of
    the two commands, [Get] answers the HTTP request. *)
Definition getMuteStatus (osascript switchaudiosource : string * option error)
    (Get : string -> response) : option (bool * list event) :=
  match getCommandOutput osascript with
  | None => None
  | Some output =>
      let '(b, _) := strconv.ParseBool output in
      if String.eqb output "missing value" then
        match getCommandOutput switchaudiosource with
        | None => None
        | Some currentsource =>
            let url := mute_url currentsource in
            match Get url with
            | Get_fails =>
                Some (false,
                      [Println "Getting mute status"; http_Get url;
                       Printf "Error getting mute status for %s: %v"])
            | no_response => Some (b, [Println "Getting mute status"; http_Get url])
            | ReadAll_fails =>
                Some (false,
                      [Println "Getting mute status"; http_Get url;
                       Printf "Error getting mute status body for %s: %v"])
            | Body body =>
                let mute := TrimSuffix_newline body in
                Some (String.eqb mute "on",
                      [Println "Getting mute status"; http_Get url;
                       Println ("Mute Output: " +:+ mute)])
            end
        end
      else Some (b, [Println "Getting mute status"])
  end.

End audio.

(** ** Reference inputs for the start-up and the media queries *)

(** What [json.Unmarshal] makes of the output of [media-control get] while a
    song plays. *)
Definition playing_output (out : string) : gmap string (@any Z) * option error :=
  ({[ "playing" := any_bool true; "title" := any_string "X"; "duration" := any_float64 240 ]},
   None).

(** A configuration file with the broker only: no topic, no host name, no
    idle time. *)
Definition minimal_yaml (content : string) (c : startup.config)
  : startup.config * option error :=
  (startup.mkConfig "10.0.0.2" "1883" (startup.User c) (startup.Password c) (startup.SSL c)
     (startup.Hostname c) (startup.Topic c) (startup.DiscoveryPrefix c)
     (startup.IdleActivityTime c),
   None).
Definition minimal_file (path : string) : string * option error :=
  ("mqtt_ip: 10.0.0.2", None).
Definition filepath_Dir0 (path : string) : string := "/usr/local/bin".

Definition NewApplication0 : outcome (option Application * option error) * list action :=
  startup.NewApplication (float64 := Z) id (fun f => f / 1000000) playing_output
    filepath_Dir0 minimal_yaml ("/usr/local/bin/mac2mqtt", None) minimal_file
    ("studio.local", None) ([], []) false ("{}", None) (mkCpu 0 0 0 0 0 0 0 0, None).

(** The application with one display. *)
Definition app1 : Application :=
  with_displays (app0 idle_media) [mkDisplay "7" "Studio Display"].

(** * Properties *)

(** ** [strconv.Atoi] accepts the decimal integer literals of [int] range *)

Lemma byte_range (c : ascii) : 0 <= strconv.byte c < 256.
Proof.
  destruct c as [[] [] [] [] [] [] [] []]; vm_compute; split; congruence.
Qed.

Lemma is_digit_value (c : ascii) :
  strconv.is_digit c = true -> 0 <= strconv.byte c - 48 <= 9.
Proof. unfold strconv.is_digit. lia. Qed.

Lemma fast_digit_test (c : ascii) :
  (9 <? (strconv.byte c - 48) mod 256) = negb (strconv.is_digit c).
Proof.
  pose proof (byte_range c) as Hb. unfold strconv.is_digit.
  destruct (Z_lt_dec (strconv.byte c) 48) as [Hlt|Hge].
  - replace ((strconv.byte c - 48) mod 256) with (strconv.byte c - 48 + 256)
      by (apply Z.mod_unique with (q := -1); lia).
    lia.
  - rewrite Z.mod_small by lia. lia.
Qed.

Lemma fast_digit_value (c : ascii) :
  strconv.is_digit c = true -> (strconv.byte c - 48) mod 256 = strconv.byte c - 48.
Proof. intros H%is_digit_value. apply Z.mod_small. lia. Qed.

Lemma Atoi_fast_loop_spec (s : string) (n : Z) :
  strconv.Atoi_fast_loop s n =
  if all_in_class strconv.is_digit s then Some (digits_value s n) else None.
Proof.
  revert n. induction s as [|c s IH]; intros n; simpl; [reflexivity|].
  rewrite fast_digit_test.
  destruct (strconv.is_digit c) eqn:Hd; simpl; [|reflexivity].
  rewrite fast_digit_value by assumption. apply IH.
Qed.

Lemma digits_value_ge (s : string) (acc : Z) :
  all_in_class strconv.is_digit s = true -> 0 <= acc -> acc <= digits_value s acc.
Proof.
  revert acc. induction s as [|c s IH]; intros acc Hall Hacc; simpl in *; [lia|].
  apply andb_true_iff in Hall as [Hc Hs]. apply is_digit_value in Hc.
  specialize (IH (acc * 10 + (strconv.byte c - 48)) Hs). lia.
Qed.

Lemma digits_value_mono (s : string) (a b : Z) :
  a <= b -> digits_value s a <= digits_value s b.
Proof.
  revert a b. induction s as [|c s IH]; intros a b Hab; simpl; [lia|].
  apply IH. lia.
Qed.

Lemma digits_value_lt (s : string) (acc : Z) :
  all_in_class strconv.is_digit s = true -> 0 <= acc ->
  digits_value s acc < (acc + 1) * 10 ^ Z.of_nat (String.length s).
Proof.
  revert acc. induction s as [|c s IH]; intros acc Hall Hacc.
  - simpl. lia.
  - simpl in Hall. apply andb_true_iff in Hall as [Hc Hs]. apply is_digit_value in Hc.
    cbn [digits_value String.length].
    specialize (IH (acc * 10 + (strconv.byte c - 48)) Hs ltac:(lia)).
    rewrite Nat2Z.inj_succ, Z.pow_succ_r by lia.
    assert (0 < 10 ^ Z.of_nat (String.length s)) by (apply Z.pow_pos_nonneg; lia).
    nia.
Qed.

(** The loop of [ParseUint] returns the value of the digits, or fails when a
    byte is not a digit or the value exceeds [maxUint64]; a range error comes
    with [maxUint64]. *)
Lemma ParseUint_loop_spec (s : string) (n : Z) :
  0 <= n <= strconv.maxUint64 ->
  (all_in_class strconv.is_digit s = true /\ digits_value s n <= strconv.maxUint64 /\
   strconv.ParseUint_loop s n = (digits_value s n, None)) \/
  ((all_in_class strconv.is_digit s = false \/ strconv.maxUint64 < digits_value s n) /\
   (strconv.ParseUint_loop s n = (0, Some strconv.ErrSyntax) \/
    strconv.ParseUint_loop s n = (strconv.maxUint64, Some strconv.ErrRange))).
Proof.
  revert n. induction s as [|c s IH]; intros n Hn.
  - left. simpl. repeat split; lia.
  - cbn [strconv.ParseUint_loop all_in_class digits_value].
    destruct (strconv.is_digit c) eqn:Hd; cbn [andb].
    2:{ right. split; [left; reflexivity | left; reflexivity]. }
    pose proof (is_digit_value c Hd) as Hv.
    assert (Hcut : strconv.maxUint64 / 10 + 1 = 1844674407370955162) by reflexivity.
    assert (Hmax : strconv.maxUint64 = 18446744073709551615) by reflexivity.
    assert (Hpow : 2 ^ 64 = 18446744073709551616) by reflexivity.
    cbv zeta. rewrite Hcut.
    destruct (1844674407370955162 <=? n) eqn:Hc.
    + right. split; [|right; reflexivity].
      destruct (all_in_class strconv.is_digit s) eqn:Hall; [right|left; reflexivity].
      pose proof (digits_value_ge s (n * 10 + (strconv.byte c - 48)) Hall ltac:(lia)). lia.
    + apply Z.leb_gt in Hc.
      destruct (Z_le_dec (n * 10 + (strconv.byte c - 48)) strconv.maxUint64) as [Hle|Hgt].
      * rewrite (Z.mod_small (n * 10 + (strconv.byte c - 48))) by lia.
        replace ((n * 10 + (strconv.byte c - 48) <? n * 10) ||
                 (strconv.maxUint64 <? n * 10 + (strconv.byte c - 48))) with false by lia.
        apply IH. lia.
      * replace ((n * 10 + (strconv.byte c - 48)) mod 2 ^ 64)
          with (n * 10 + (strconv.byte c - 48) - 2 ^ 64)
          by (apply Z.mod_unique with (q := 1); lia).
        replace ((n * 10 + (strconv.byte c - 48) - 2 ^ 64 <? n * 10) ||
                 (strconv.maxUint64 <? n * 10 + (strconv.byte c - 48) - 2 ^ 64))
          with true by lia.
        right. split; [|right; reflexivity].
        destruct (all_in_class strconv.is_digit s) eqn:Hall; [right|left; reflexivity].
        pose proof (digits_value_ge s (n * 10 + (strconv.byte c - 48)) Hall ltac:(lia)). lia.
Qed.

Lemma ParseUint_spec (s : string) :
  (exists v, digits s = Some v /\ 0 <= v <= strconv.maxUint64 /\
             strconv.ParseUint s = (v, None)) \/
  ((forall v, digits s = Some v -> strconv.maxUint64 < v) /\
   (strconv.ParseUint s = (0, Some strconv.ErrSyntax) \/
    strconv.ParseUint s = (strconv.maxUint64, Some strconv.ErrRange))).
Proof.
  destruct s as [|c s].
  - right. split; [discriminate | left; reflexivity].
  - change (strconv.ParseUint (String c s)) with (strconv.ParseUint_loop (String c s) 0).
    unfold digits.
    destruct (ParseUint_loop_spec (String c s) 0 ltac:(unfold strconv.maxUint64; lia))
      as [(Hall & Hle & Heq) | ([Hall | Hgt] & Herr)].
    + left. exists (digits_value (String c s) 0). rewrite Hall. repeat split; try assumption.
      apply (digits_value_ge _ 0 Hall). lia.
    + right. rewrite Hall. split; [discriminate | assumption].
    + right. split; [|assumption].
      destruct (all_in_class _ _); intros v [= <-]; assumption.
Qed.

Lemma int64_of_small (z : Z) : - 2 ^ 63 <= z < 2 ^ 63 -> strconv.int64_of z = z.
Proof.
  intros Hz. unfold strconv.int64_of. rewrite Z.mod_small; lia.
Qed.

Lemma int64_of_min : strconv.int64_of (2 ^ 63) = - 2 ^ 63.
Proof. reflexivity. Qed.

Lemma ParseInt_spec (s : string) :
  (exists v, int_literal s = Some v /\ in_int_range v /\ strconv.ParseInt s = (v, None)) \/
  ((forall v, int_literal s = Some v -> ~ in_int_range v) /\
   snd (strconv.ParseInt s) <> None).
Proof.
  assert (Hmax : strconv.maxUint64 = 2 * 2 ^ 63 - 1) by reflexivity.
  assert (Hpos : 0 < 2 ^ 63) by reflexivity.
  unfold in_int_range.
  destruct s as [|c rest].
  - right. split; [discriminate | discriminate].
  - cbn [strconv.ParseInt int_literal].
    set (s1 := if Ascii.eqb c "+" then rest
               else if Ascii.eqb c "-" then rest else String c rest).
    assert (Hlit : int_literal (String c rest) =
                   if Ascii.eqb c "-" then option_map Z.opp (digits s1) else digits s1).
    { cbn [int_literal]. subst s1.
      destruct (Ascii.eqb_spec c "+") as [->|Hp]; [reflexivity|].
      destruct (Ascii.eqb c "-"); reflexivity. }
    cbn [int_literal] in Hlit. rewrite Hlit. clear Hlit.
    destruct (ParseUint_spec s1) as [(v & Hd & Hv & Heq) | (Hno & [Herr | Herr])];
      rewrite ?Heq, ?Herr; cbv zeta iota beta.
    + rewrite Hd.
      destruct (Ascii.eqb c "-"); cbn [negb andb option_map].
      * destruct (2 ^ 63 <? v) eqn:Hc.
        -- right. split; [intros ? [= <-]; lia | discriminate].
        -- left. exists (- v). split; [reflexivity|]. split; [lia|].
           destruct (Z.eq_dec v (2 ^ 63)) as [->|Hne].
           ++ rewrite int64_of_min. reflexivity.
           ++ rewrite (int64_of_small v) by lia. rewrite int64_of_small by lia. reflexivity.
      * destruct (2 ^ 63 <=? v) eqn:Hc.
        -- right. split; [intros ? [= <-]; lia | discriminate].
        -- left. exists v. split; [reflexivity|]. split; [lia|].
           rewrite int64_of_small by lia. reflexivity.
    + right. split; [|discriminate].
      destruct (Ascii.eqb c "-"); destruct (digits s1) as [v|] eqn:Hd;
        cbn [option_map]; try discriminate;
        intros ? [= <-]; specialize (Hno v eq_refl); lia.
    + right. split.
      * destruct (Ascii.eqb c "-"); destruct (digits s1) as [v|] eqn:Hd;
          cbn [option_map]; try discriminate;
          intros ? [= <-]; specialize (Hno v eq_refl); lia.
      * destruct (Ascii.eqb c "-"); cbn [negb andb];
          replace (2 ^ 63 <=? strconv.maxUint64) with true by reflexivity;
          replace (2 ^ 63 <? strconv.maxUint64) with true by reflexivity;
          discriminate.
Qed.

Lemma digits_short_in_range (s : string) (v : Z) :
  (String.length s < 19)%nat -> digits s = Some v -> 0 <= v < 10 ^ 18.
Proof.
  intros Hlen Hd. unfold digits in Hd.
  destruct s as [|c s]; [discriminate|].
  destruct (all_in_class strconv.is_digit (String c s)) eqn:Hall; [|discriminate].
  assert (Hv : digits_value (String c s) 0 = v) by congruence.
  rewrite <- Hv. clear Hv Hd.
  pose proof (digits_value_ge _ 0 Hall ltac:(lia)).
  pose proof (digits_value_lt _ 0 Hall ltac:(lia)) as Hlt.
  split; [lia|].
  assert (10 ^ Z.of_nat (String.length (String c s)) <= 10 ^ 18)
    by (apply Z.pow_le_mono_r; lia).
  lia.
Qed.

(** [Atoi] succeeds exactly on the integer literals whose value fits [int],
    and returns that value. *)
Lemma Atoi_spec (s : string) :
  (exists v, int_literal s = Some v /\ in_int_range v /\ strconv.Atoi s = (v, None)) \/
  ((forall v, int_literal s = Some v -> ~ in_int_range v) /\
   snd (strconv.Atoi s) <> None).
Proof.
  unfold strconv.Atoi.
  destruct ((0 <? Z.of_nat (String.length s)) && (Z.of_nat (String.length s) <? 19)) eqn:Hfast.
  2:{ destruct (ParseInt_spec s) as [(v & H1 & H2 & H3) | (H1 & H2)].
      - left. exists v. rewrite H3. auto.
      - right. split; [assumption|]. destruct (strconv.ParseInt s). assumption. }
  apply andb_true_iff in Hfast as [Hpos Hlen].
  destruct s as [|c rest]; [discriminate|].
  assert (Hlen' : (String.length (String c rest) < 19)%nat) by lia.
  cbn [String.length] in Hlen'.
  assert (H18 : 10 ^ 18 < 2 ^ 63) by reflexivity.
  unfold in_int_range. cbn [int_literal].
  destruct (Ascii.eqb_spec c "+") as [->|Hplus].
  - cbn [Ascii.eqb Bool.eqb orb andb]. rewrite Atoi_fast_loop_spec.
    destruct rest as [|c' rest']; [right; split; [discriminate | discriminate]|].
    rewrite (proj2 (Z.ltb_ge (Z.of_nat (String.length (String c' rest'))) 1))
        by (cbn [String.length]; lia).
    destruct (digits (String c' rest')) as [v|] eqn:Hd.
    + pose proof (digits_short_in_range (String c' rest') v ltac:(lia) Hd).
      unfold digits in Hd.
      destruct (all_in_class strconv.is_digit (String c' rest')); [|discriminate].
      assert (Hv : digits_value (String c' rest') 0 = v) by congruence. rewrite Hv. left. exists v. repeat split; lia.
    + unfold digits in Hd.
      destruct (all_in_class strconv.is_digit (String c' rest')); [discriminate|].
      right. split; discriminate.
  - destruct (Ascii.eqb_spec c "-") as [->|Hminus].
    + cbn [Ascii.eqb Bool.eqb orb andb]. rewrite Atoi_fast_loop_spec.
      destruct rest as [|c' rest']; [right; split; [discriminate | discriminate]|].
      rewrite (proj2 (Z.ltb_ge (Z.of_nat (String.length (String c' rest'))) 1))
        by (cbn [String.length]; lia).
      destruct (digits (String c' rest')) as [v|] eqn:Hd.
      * pose proof (digits_short_in_range (String c' rest') v ltac:(lia) Hd).
        unfold digits in Hd.
        destruct (all_in_class strconv.is_digit (String c' rest')); [|discriminate].
        assert (Hv : digits_value (String c' rest') 0 = v) by congruence. rewrite Hv. left. exists (- v). repeat split; lia.
      * unfold digits in Hd.
        destruct (all_in_class strconv.is_digit (String c' rest')); [discriminate|].
        right. split; discriminate.
    + cbn [orb andb]. rewrite Atoi_fast_loop_spec.
      destruct (digits (String c rest)) as [v|] eqn:Hd.
      * pose proof (digits_short_in_range (String c rest) v ltac:(cbn [String.length]; lia) Hd).
        unfold digits in Hd.
        destruct (all_in_class strconv.is_digit (String c rest)); [|discriminate].
        assert (Hv : digits_value (String c rest) 0 = v) by congruence. rewrite Hv. left. exists v. repeat split; lia.
      * unfold digits in Hd.
        destruct (all_in_class strconv.is_digit (String c rest)); [discriminate|].
        right. split; discriminate.
Qed.

(** ** Command validation *)

Lemma str_in_In (l : list string) (s : string) : strconv.str_in l s = true <-> In s l.
Proof.
  unfold strconv.str_in. rewrite existsb_exists. split.
  - intros (x & Hx & Heq). apply String.eqb_eq in Heq. subst. assumption.
  - intros H. exists s. split; [assumption | apply String.eqb_refl].
Qed.

Lemma percent_literal_Some (payload : string) (v : Z) :
  percent_literal payload = Some v <-> int_literal payload = Some v /\ 0 <= v <= 100.
Proof.
  unfold percent_literal. destruct (int_literal payload) as [w|].
  - destruct ((0 <=? w) && (w <=? 100)) eqn:Hr.
    + split; [intros [= <-]; split; [reflexivity | lia] | intros [[= <-] _]; reflexivity].
    + split; [discriminate | intros [[= <-] H]; lia].
  - split; [discriminate | intros [? _]; discriminate].
Qed.

Lemma validateVolumeInput_spec (payload : string) :
  match percent_literal payload with
  | Some v => validateVolumeInput payload = (v, None)
  | None => exists e, validateVolumeInput payload = (0, Some e)
  end.
Proof.
  unfold validateVolumeInput, percent_literal, MinVolume, MaxVolume.
  destruct (Atoi_spec payload) as [(v & Hlit & Hr & Heq) | (Hno & Herr)].
  - rewrite Heq, Hlit.
    destruct (Z.leb_spec 0 v), (Z.leb_spec v 100); cbn [andb];
      replace ((v <? 0) || (100 <? v)) with (negb ((0 <=? v) && (v <=? 100))) by lia;
      destruct (Z.leb_spec 0 v), (Z.leb_spec v 100); try lia; cbn [andb negb]; eauto.
  - destruct (strconv.Atoi payload) as [n [e|]]; [|contradiction].
    destruct (int_literal payload) as [v|]; [|eauto].
    specialize (Hno v eq_refl). unfold in_int_range in Hno.
    destruct (Z.leb_spec 0 v), (Z.leb_spec v 100); cbn [andb]; eauto.
    exfalso. apply Hno. assert (100 < 2 ^ 63) by reflexivity. lia.
Qed.

Lemma validateBrightnessInput_spec (payload : string) :
  match percent_literal payload with
  | Some v => validateBrightnessInput payload = (v, None)
  | None => exists e, validateBrightnessInput payload = (0, Some e)
  end.
Proof.
  unfold validateBrightnessInput, percent_literal, MinBrightness, MaxBrightness.
  destruct (Atoi_spec payload) as [(v & Hlit & Hr & Heq) | (Hno & Herr)].
  - rewrite Heq, Hlit.
    destruct (Z.leb_spec 0 v), (Z.leb_spec v 100); cbn [andb];
      replace ((v <? 0) || (100 <? v)) with (negb ((0 <=? v) && (v <=? 100))) by lia;
      destruct (Z.leb_spec 0 v), (Z.leb_spec v 100); try lia; cbn [andb negb]; eauto.
  - destruct (strconv.Atoi payload) as [n [e|]]; [|contradiction].
    destruct (int_literal payload) as [v|]; [|eauto].
    specialize (Hno v eq_refl). unfold in_int_range in Hno.
    destruct (Z.leb_spec 0 v), (Z.leb_spec v 100); cbn [andb]; eauto.
    exfalso. apply Hno. assert (100 < 2 ^ 63) by reflexivity. lia.
Qed.

Lemma brightness_range_capabilities (app : Application) (h : Host) (topic payload : string)
    (ds : list Display) :
  List.filter is_capability (snd (handleDisplayBrightness_range app h topic payload ds)) =
  match find (brightness_topic app topic) ds, percent_literal payload with
  | Some d, Some v => [setDisplayBrightness (DisplayID d) v]
  | _, _ => []
  end.
Proof.
  induction ds as [|d ds IH]; [reflexivity|].
  cbn [handleDisplayBrightness_range find]. unfold brightness_topic at 1.
  destruct (String.eqb topic _); [|exact IH].
  pose proof (validateBrightnessInput_spec payload) as Hv.
  destruct (percent_literal payload) as [v|].
  - rewrite Hv. destruct (setDisplayBrightness_err h (DisplayID d) v);
      [destruct (isBetterDisplayCLIAvailable h)|]; reflexivity.
  - destruct Hv as [e ->]. reflexivity.
Qed.

(** C4.  A volume or brightness payload is accepted exactly when it is an
    integer literal with a value from 0 to 100 ("50" is, "101", "-1" and
    "abc" are not), and the capability calls of the two handlers are
    [setVolume v] and [setDisplayBrightness id v] for an accepted payload on
    the handler's topic and none otherwise. *)
Theorem volume_brightness_accepted_iff_percent
    (app : Application) (h : Host) (topic payload : string) :
  (snd (validateVolumeInput payload) = None <->
   exists v, int_literal payload = Some v /\ 0 <= v <= 100) /\
  (snd (validateBrightnessInput payload) = None <->
   exists v, int_literal payload = Some v /\ 0 <= v <= 100) /\
  (validateVolumeInput "50" = (50, None) /\ snd (validateVolumeInput "101") <> None /\
   snd (validateVolumeInput "-1") <> None /\ snd (validateVolumeInput "abc") <> None) /\
  (validateBrightnessInput "50" = (50, None) /\ snd (validateBrightnessInput "101") <> None /\
   snd (validateBrightnessInput "-1") <> None /\ snd (validateBrightnessInput "abc") <> None) /\
  List.filter is_capability (snd (handleVolumeCommand app h topic payload)) =
    (if String.eqb topic (getTopicPrefix app +:+ "/command/volume")
     then match percent_literal payload with Some v => [setVolume v] | None => [] end
     else []) /\
  List.filter is_capability (snd (handleDisplayBrightnessCommand app h topic payload)) =
    match find (brightness_topic app topic) (displays app), percent_literal payload with
    | Some d, Some v => [setDisplayBrightness (DisplayID d) v]
    | _, _ => []
    end.
Proof.
  pose proof (validateVolumeInput_spec payload) as Hvol.
  pose proof (validateBrightnessInput_spec payload) as Hbri.
  repeat split.
  - intros Hacc. destruct (percent_literal payload) as [v|] eqn:Hp.
    + exists v. apply percent_literal_Some. assumption.
    + destruct Hvol as [e He]. rewrite He in Hacc. discriminate.
  - intros (v & Hv). apply percent_literal_Some in Hv. rewrite Hv in Hvol.
    rewrite Hvol. reflexivity.
  - intros Hacc. destruct (percent_literal payload) as [v|] eqn:Hp.
    + exists v. apply percent_literal_Some. assumption.
    + destruct Hbri as [e He]. rewrite He in Hacc. discriminate.
  - intros (v & Hv). apply percent_literal_Some in Hv. rewrite Hv in Hbri.
    rewrite Hbri. reflexivity.
  - vm_compute. discriminate.
  - vm_compute. discriminate.
  - vm_compute. discriminate.
  - vm_compute. discriminate.
  - vm_compute. discriminate.
  - vm_compute. discriminate.
  - unfold handleVolumeCommand.
    destruct (String.eqb topic _); cbn [negb]; [|reflexivity].
    destruct (percent_literal payload) as [v|].
    + rewrite Hvol. reflexivity.
    + destruct Hvol as [e ->]. reflexivity.
  - unfold handleDisplayBrightnessCommand.
    destruct (displays app) as [|d ds] eqn:Hds; [reflexivity|].
    replace (Z.of_nat (length (d :: ds)) =? 0) with false
      by (symmetry; apply Z.eqb_neq; cbn [length]; lia).
    apply brightness_range_capabilities.
Qed.

Lemma ParseBool_spec (payload : string) :
  strconv.ParseBool payload =
  match bool_literal payload with
  | Some b => (b, None)
  | None => (false, Some strconv.ErrSyntax)
  end.
Proof.
  unfold strconv.ParseBool, bool_literal, true_literals, false_literals.
  destruct (strconv.str_in _ payload); [reflexivity|].
  destruct (strconv.str_in _ payload); reflexivity.
Qed.

Lemma bool_literal_Some (payload : string) :
  is_Some (bool_literal payload) <-> In payload (true_literals ++ false_literals).
Proof.
  unfold bool_literal. rewrite in_app_iff, <- !str_in_In.
  destruct (strconv.str_in true_literals payload);
    [|destruct (strconv.str_in false_literals payload)].
  - split; [auto | eauto].
  - split; [auto | eauto].
  - split; [intros [? ?]; discriminate | intros [?|?]; discriminate].
Qed.

(** C1, as the code has it.  A mute or keep-awake payload is accepted exactly
    when it is one of the twelve literals of [strconv.ParseBool] ("1", "t",
    "T", "true", "TRUE", "True", "0", "f", "F", "false", "FALSE", "False");
    the capability calls of the two handlers are [setMute b], and
    [commandKeepAwake] or [commandAllowSleep], for an accepted payload on the
    handler's topic, and none otherwise. *)
Theorem mute_keepawake_accepted_iff_ParseBool_literal
    (app : Application) (h : Host) (topic payload : string) :
  (snd (validateMuteInput payload) = None <->
   In payload (true_literals ++ false_literals)) /\
  (snd (validateKeepAwakeInput payload) = None <->
   In payload (true_literals ++ false_literals)) /\
  List.filter is_capability (snd (handleMuteCommand app h topic payload)) =
    (if String.eqb topic (getTopicPrefix app +:+ "/command/mute")
     then match bool_literal payload with Some b => [setMute b] | None => [] end
     else []) /\
  List.filter is_capability (snd (handleKeepAwakeCommand app h topic payload)) =
    (if String.eqb topic (getTopicPrefix app +:+ "/command/keepawake")
     then match bool_literal payload with
          | Some b => [if b then commandKeepAwake else commandAllowSleep]
          | None => []
          end
     else []).
Proof.
  rewrite <- bool_literal_Some.
  unfold handleMuteCommand, handleKeepAwakeCommand, validateMuteInput,
    validateKeepAwakeInput.
  rewrite ParseBool_spec.
  destruct (bool_literal payload) as [b|]; cbn [snd].
  - repeat split; eauto.
    + destruct (String.eqb topic _); reflexivity.
    + destruct (String.eqb topic _); [destruct b|]; reflexivity.
  - repeat split; try discriminate; try (intros [? ?]; discriminate).
    + destruct (String.eqb topic _); reflexivity.
    + destruct (String.eqb topic _); reflexivity.
Qed.

(** C1 as stated fails: the payload "1" is accepted by both validators, and
    the mute handler calls [setMute true] for it. *)
Lemma payload_1_is_accepted :
  validateMuteInput "1" = (true, None) /\
  validateKeepAwakeInput "1" = (true, None) /\
  "1" <> "true" /\ "1" <> "false" /\
  In (setMute true)
    (snd (handleMuteCommand (app0 idle_media) host0 "mac2mqtt/host/command/mute" "1")) /\
  In commandKeepAwake
    (snd (handleKeepAwakeCommand (app0 idle_media) host0
            "mac2mqtt/host/command/keepawake" "1")).
Proof.
  repeat split; try discriminate; vm_compute; auto.
Qed.

Lemma re_space_in_class (c : ascii) : re_space c = true -> shortcut_class c = true.
Proof.
  unfold shortcut_class. intros ->. rewrite !orb_true_r. reflexivity.
Qed.

Lemma all_in_class_weaken (p q : ascii -> bool) (s : string) :
  (forall c, p c = true -> q c = true) ->
  all_in_class p s = true -> all_in_class q s = true.
Proof.
  intros Hpq. induction s as [|c s IH]; [reflexivity|].
  cbn [all_in_class]. rewrite !andb_true_iff. intros [Hc Hs]. auto.
Qed.

(** C10.  A non-empty shortcut payload made of whitespace of the pattern's
    class [\s] only (space, tab, line feed, form feed, carriage return) is
    accepted by [validateShortcutInput], and [handleShortcutCommand] runs the
    shortcut of that name. *)
Theorem whitespace_shortcut_is_run (app : Application) (payload : string) :
  payload <> EmptyString ->
  all_in_class re_space payload = true ->
  validateShortcutInput payload = None /\
  handleShortcutCommand app (getTopicPrefix app +:+ "/command/runshortcut") payload =
    (true, [commandRunShortcut payload]).
Proof.
  intros Hne Hws.
  assert (Hval : validateShortcutInput payload = None).
  { unfold validateShortcutInput, MatchString_shortcut.
    destruct (String.eqb_spec payload EmptyString) as [->|_]; [contradiction|].
    rewrite (all_in_class_weaken _ _ _ re_space_in_class Hws).
    destruct payload; [contradiction|reflexivity]. }
  split; [assumption|].
  unfold handleShortcutCommand. rewrite String.eqb_refl, Hval. reflexivity.
Qed.

Lemma whitespace_shortcut_is_run_witness :
  validateShortcutInput " " = None /\
  handleShortcutCommand (app0 idle_media) "mac2mqtt/host/command/runshortcut" " " =
    (true, [commandRunShortcut " "]).
Proof.
  apply (whitespace_shortcut_is_run (app0 idle_media) " "); [discriminate | reflexivity].
Defined.

(** ** Media stream merge *)

Section MediaStreamFacts.

Context {float64 : Type}.
Variable int_of_float64 : float64 -> Z.
Variable div_1000000 : float64 -> float64.
Variable json_Marshal : gmap string (@any float64) -> string.
Variable range : gmap string (@any float64) -> list (string * @any float64).
Hypothesis range_perm : forall m, range m ≡ₚ map_to_list m.

Abbreviation merge1 := (mergeField int_of_float64 div_1000000).
Abbreviation mergeAll := (mergePayload int_of_float64 div_1000000).
Abbreviation merged := (merged int_of_float64 div_1000000 json_Marshal range).

Lemma elem_of_range (m : gmap string (@any float64)) (k : string) (v : @any float64) :
  (k, v) ∈ range m <-> m !! k = Some v.
Proof. rewrite range_perm. apply elem_of_map_to_list. Qed.

Lemma NoDup_range (m : gmap string (@any float64)) : NoDup (range m).*1.
Proof. rewrite range_perm. apply NoDup_fst_map_to_list. Qed.

Lemma range_singleton (k : string) (v : @any float64) : range {[ k := v ]} = [(k, v)].
Proof.
  apply Permutation_singleton_r. rewrite range_perm, map_to_list_singleton. reflexivity.
Qed.

Ltac merge_cases k :=
  unfold mergeField;
  repeat match goal with
    | |- context [String.eqb k ?s] => destruct (String.eqb_spec k s); subst
    end.

Ltac by_cases k v H :=
  merge_cases k;
  first [ exfalso; apply H; solve [repeat constructor]
        | reflexivity
        | destruct v as [| [] | | | | |]; reflexivity ].

Lemma mergeField_Title st k v : k ∉ ["title"] -> Title (merge1 st (k, v)) = Title st.
Proof. intros H. by_cases k v H. Qed.
Lemma mergeField_Artist st k v : k ∉ ["artist"] -> Artist (merge1 st (k, v)) = Artist st.
Proof. intros H. by_cases k v H. Qed.
Lemma mergeField_Album st k v : k ∉ ["album"] -> Album (merge1 st (k, v)) = Album st.
Proof. intros H. by_cases k v H. Qed.
Lemma mergeField_AppName st k v :
  k ∉ ["appName"; "bundleIdentifier"] -> AppName (merge1 st (k, v)) = AppName st.
Proof. intros H. by_cases k v H. Qed.
Lemma mergeField_AppBundleID st k v :
  k ∉ @nil string -> AppBundleID (merge1 st (k, v)) = AppBundleID st.
Proof. intros H. by_cases k v H. Qed.
Lemma mergeField_State st k v : k ∉ ["playing"] -> State (merge1 st (k, v)) = State st.
Proof. intros H. by_cases k v H. Qed.
Lemma mergeField_Duration st k v :
  k ∉ ["duration"; "durationMicros"; "totalTime"; "totalDuration"] ->
  Duration (merge1 st (k, v)) = Duration st.
Proof. intros H. by_cases k v H. Qed.
Lemma mergeField_Position st k v :
  k ∉ ["elapsedTime"; "position"; "positionMicros"] ->
  Position (merge1 st (k, v)) = Position st.
Proof. intros H. by_cases k v H. Qed.

(** A field that no key of the event maps to survives the whole loop. *)
Lemma mergePayload_preserves {A} (proj : MediaInfo -> A) (keys : list string) :
  (forall st k v, k ∉ keys -> proj (merge1 st (k, v)) = proj st) ->
  forall kvs st,
    (forall k, k ∈ keys -> k ∉ kvs.*1) -> proj (mergeAll kvs st) = proj st.
Proof.
  intros Hfield kvs. induction kvs as [|[k v] kvs IH]; intros st Hkeys; [reflexivity|].
  cbn [mergePayload fold_left].
  change (proj (mergeAll kvs (merge1 st (k, v))) = proj st).
  rewrite IH.
  - apply Hfield. intros Hin. apply (Hkeys k Hin). apply list_elem_of_here.
  - intros k' Hin Hin'. apply (Hkeys k' Hin). apply list_elem_of_further. exact Hin'.
Qed.

Lemma absent_keys (payload : gmap string (@any float64)) (keys : list string) :
  Forall (fun k => payload !! k = None) keys ->
  forall k, k ∈ keys -> k ∉ (range payload).*1.
Proof.
  intros Hall k Hin Hk. rewrite Forall_forall in Hall. specialize (Hall k Hin).
  apply list_elem_of_fmap in Hk as ([k' v] & -> & Hkv).
  apply elem_of_range in Hkv. cbn in Hall. congruence.
Qed.

(** With distinct keys, the loop leaves the state that the "playing" entry
    sets. *)
Lemma mergePayload_playing (kvs : list (string * @any float64)) (st : MediaInfo) (b : bool) :
  NoDup kvs.*1 -> ("playing", any_bool b) ∈ kvs ->
  State (mergeAll kvs st) = if b then "playing" else "paused".
Proof.
  revert st. induction kvs as [|[k v] kvs IH]; intros st Hnd Hin.
  - inversion Hin.
  - cbn [fmap list_fmap fst] in Hnd. apply NoDup_cons in Hnd as [Hk Hnd].
    cbn [mergePayload fold_left].
    change (State (mergeAll kvs (merge1 st (k, v))) = if b then "playing" else "paused").
    apply elem_of_cons in Hin as [[= <- <-] | Hin].
    + rewrite (mergePayload_preserves State ["playing"]).
      * destruct b; reflexivity.
      * intros. apply mergeField_State. assumption.
      * intros k' Hk'. apply list_elem_of_singleton in Hk'. subst k'. assumption.
    + apply IH; assumption.
Qed.

(** The frame of the merge, read off the keys of its [switch]: a field
    keeps its value when none of the keys that the code maps to it is in the
    payload, and a payload that holds only a title sets the title and leaves
    every other field as it was. *)
Theorem merge_changes_only_named_fields
    (app : Application) (mediaData payload : gmap string (@any float64)) :
  mediaData !! "payload" = Some (any_map payload) ->
  let st := currentMediaState app in
  let st' := merged app mediaData in
  (payload !! "title" = None -> Title st' = Title st) /\
  (payload !! "artist" = None -> Artist st' = Artist st) /\
  (payload !! "album" = None -> Album st' = Album st) /\
  (payload !! "appName" = None -> payload !! "bundleIdentifier" = None ->
   AppName st' = AppName st) /\
  AppBundleID st' = AppBundleID st /\
  (payload !! "playing" = None -> State st' = State st) /\
  (payload !! "duration" = None -> payload !! "durationMicros" = None ->
   payload !! "totalTime" = None -> payload !! "totalDuration" = None ->
   Duration st' = Duration st) /\
  (payload !! "elapsedTime" = None -> payload !! "position" = None ->
   payload !! "positionMicros" = None -> Position st' = Position st) /\
  (forall X, payload = {[ "title" := any_string X ]} ->
     st' = with_Title st X /\
     Title st' = X /\ Artist st' = Artist st /\ Album st' = Album st /\
     AppName st' = AppName st /\ Duration st' = Duration st /\
     Position st' = Position st /\ State st' = State st).
Proof.
  intros Hpayload st st'. subst st st'. unfold merged, processMediaStreamUpdate.
  rewrite Hpayload. cbn [fst currentMediaState with_currentMediaState].
  assert (Hpost : forall (A : Type) (proj : MediaInfo -> A) m,
             (forall s, proj (with_State m s) = proj m) ->
             proj match payload !! "playing" with
                  | Some (any_bool false) => with_State m "idle"
                  | _ => m
                  end = proj m).
  { intros A proj m Hproj. destruct (payload !! "playing") as [[| [] | | | | |]|]; auto. }
  repeat split.
  - intros. rewrite Hpost by reflexivity.
    apply (mergePayload_preserves Title ["title"]); [apply mergeField_Title|].
    apply absent_keys. repeat constructor; assumption.
  - intros. rewrite Hpost by reflexivity.
    apply (mergePayload_preserves Artist ["artist"]); [apply mergeField_Artist|].
    apply absent_keys. repeat constructor; assumption.
  - intros. rewrite Hpost by reflexivity.
    apply (mergePayload_preserves Album ["album"]); [apply mergeField_Album|].
    apply absent_keys. repeat constructor; assumption.
  - intros. rewrite Hpost by reflexivity.
    apply (mergePayload_preserves AppName ["appName"; "bundleIdentifier"]);
      [apply mergeField_AppName|].
    apply absent_keys. repeat constructor; assumption.
  - rewrite Hpost by reflexivity.
    apply (mergePayload_preserves AppBundleID []); [apply mergeField_AppBundleID|].
    apply absent_keys. constructor.
  - intros Hnone. rewrite Hnone.
    apply (mergePayload_preserves State ["playing"]); [apply mergeField_State|].
    apply absent_keys. repeat constructor; assumption.
  - intros. rewrite Hpost by reflexivity.
    apply (mergePayload_preserves Duration
             ["duration"; "durationMicros"; "totalTime"; "totalDuration"]);
      [apply mergeField_Duration|].
    apply absent_keys. repeat constructor; assumption.
  - intros. rewrite Hpost by reflexivity.
    apply (mergePayload_preserves Position ["elapsedTime"; "position"; "positionMicros"]);
      [apply mergeField_Position|].
    apply absent_keys. repeat constructor; assumption.
  - subst payload. rewrite range_singleton, lookup_singleton_ne by discriminate.
    reflexivity.
  - subst payload. rewrite range_singleton, lookup_singleton_ne by discriminate.
    reflexivity.
  - subst payload. rewrite range_singleton, lookup_singleton_ne by discriminate.
    reflexivity.
  - subst payload. rewrite range_singleton, lookup_singleton_ne by discriminate.
    reflexivity.
  - subst payload. rewrite range_singleton, lookup_singleton_ne by discriminate.
    reflexivity.
  - subst payload. rewrite range_singleton, lookup_singleton_ne by discriminate.
    reflexivity.
  - subst payload. rewrite range_singleton, lookup_singleton_ne by discriminate.
    reflexivity.
  - subst payload. rewrite range_singleton, lookup_singleton_ne by discriminate.
    reflexivity.
Qed.

(** C2, as the code has it.  A boolean "playing" entry that is true leaves
    the state "playing", whatever else the event holds; an event whose
    payload holds nothing but a false "playing" entry leaves the state
    "idle". *)
Theorem playing_field_sets_state
    (app : Application) (mediaData payload : gmap string (@any float64)) (b : bool) :
  mediaData !! "payload" = Some (any_map payload) ->
  payload !! "playing" = Some (any_bool b) ->
  b = true \/ payload = {[ "playing" := any_bool false ]} ->
  State (merged app mediaData) = if b then "playing" else "idle".
Proof.
  intros Hpayload Hplaying Hcase.
  unfold merged, processMediaStreamUpdate.
  rewrite Hpayload, Hplaying. cbn [fst currentMediaState with_currentMediaState].
  destruct b; [|reflexivity].
  apply (mergePayload_playing _ _ true); [apply NoDup_range|].
  apply elem_of_range. assumption.
Qed.

End MediaStreamFacts.

Lemma merge_changes_only_named_fields_witness :
  stream_event {[ "title" := any_string "X" ]} !! "payload" =
    Some (any_map {[ "title" := any_string "X" ]}) /\
  merged_Z (app0 song) (stream_event {[ "title" := any_string "X" ]}) = with_Title song "X".
Proof.
  assert (Hp : stream_event {[ "title" := any_string "X" ]} !! "payload" =
               Some (any_map ({[ "title" := any_string "X" ]} : gmap string (@any Z))))
    by reflexivity.
  split; [exact Hp|].
  pose proof (merge_changes_only_named_fields id (fun f => f / 1000000) (fun _ => "{}")
                map_to_list (fun m => reflexivity _) (app0 song) _ _ Hp) as H.
  cbv zeta in H. decompose [and] H.
  match goal with Hx : forall X, _ |- _ => apply (Hx "X" eq_refl) end.
Defined.

Section MediaStreamAlias.

Context {float64 : Type}.
Variable int_of_float64 : float64 -> Z.
Variable div_1000000 : float64 -> float64.
Variable json_Marshal : gmap string (@any float64) -> string.
Variable range : gmap string (@any float64) -> list (string * @any float64).
Hypothesis range_perm : forall m, range m ≡ₚ map_to_list m.

(** C6.  The claim fails on the code at the key [bundleIdentifier]: an
    event whose payload holds only a bundle identifier does not name the
    application name, yet the merge overwrites [AppName] with the
    identifier.  [AppBundleID], the field the key names, keeps its value, and
    so does every other field. *)
Theorem bundleIdentifier_overwrites_AppName
    (app : Application) (mediaData : gmap string (@any float64)) (bundle : string) :
  mediaData !! "payload" = Some (any_map {[ "bundleIdentifier" := any_string bundle ]}) ->
  let st := currentMediaState app in
  let st' := merged int_of_float64 div_1000000 json_Marshal range app mediaData in
  ({[ "bundleIdentifier" := any_string bundle ]} : gmap string (@any float64)) !! "appName" = None /\
  st' = with_AppName st bundle /\
  AppName st' = bundle /\
  AppBundleID st' = AppBundleID st /\
  Title st' = Title st /\ Artist st' = Artist st /\ Album st' = Album st /\
  State st' = State st /\ Duration st' = Duration st /\ Position st' = Position st.
Proof.
  intros Hpayload st st'. split; [reflexivity|].
  assert (Hst : st' = with_AppName st bundle).
  { subst st st'. unfold merged, processMediaStreamUpdate. rewrite Hpayload.
    rewrite (range_singleton range range_perm).
    rewrite lookup_singleton_ne by discriminate. reflexivity. }
  rewrite Hst. repeat split.
Qed.

End MediaStreamAlias.

Lemma bundleIdentifier_overwrites_AppName_witness :
  AppName song = "Music" /\
  merged_Z (app0 song) (stream_event {[ "bundleIdentifier" := any_string "com.apple.Music" ]}) =
    with_AppName song "com.apple.Music" /\
  AppBundleID (merged_Z (app0 song)
                 (stream_event {[ "bundleIdentifier" := any_string "com.apple.Music" ]})) =
    EmptyString.
Proof.
  split; [reflexivity|].
  assert (Hp : stream_event {[ "bundleIdentifier" := any_string "com.apple.Music" ]} !! "payload" =
               Some (any_map ({[ "bundleIdentifier" := any_string "com.apple.Music" ]}
                              : gmap string (@any Z)))) by reflexivity.
  destruct (bundleIdentifier_overwrites_AppName id (fun f => f / 1000000) (fun _ => "{}")
              map_to_list (fun m => reflexivity _) (app0 song) _ _ Hp)
    as (_ & Hst & _ & Hid & _).
  split; [exact Hst | exact Hid].
Defined.

Lemma playing_field_sets_state_witness :
  merged_Z (app0 idle_media)
    (stream_event {[ "playing" := any_bool true; "title" := any_string "X" ]}) =
  with_State (with_Title idle_media "X") "playing" /\
  State (merged_Z (app0 idle_media)
           (stream_event {[ "playing" := any_bool true; "title" := any_string "X" ]})) =
  "playing".
Proof.
  split; [reflexivity|].
  apply (playing_field_sets_state id (fun f => f / 1000000) (fun _ => "{}")
           map_to_list (fun m => reflexivity _) (app0 idle_media) _
           {[ "playing" := any_bool true; "title" := any_string "X" ]} true).
  - reflexivity.
  - reflexivity.
  - left. reflexivity.
Defined.

(** C2 as stated fails: an event whose payload is a false "playing" entry
    leaves the state "idle", not "paused". *)
Lemma playing_false_gives_idle :
  State (merged_Z (app0 song) (stream_event {[ "playing" := any_bool false ]})) = "idle" /\
  "idle" <> "paused".
Proof. split; [reflexivity | discriminate]. Qed.

(** ** CPU usage *)




(** ** Connect cycle *)

Lemma getMQTTClientWithRetry_body (net : Broker) (app : Application) (retryCount : Z) :
  getMQTTClientWithRetry net app retryCount =
  if MaxRetryAttempts <? retryCount then
    (Some (Errorf "failed to connect to MQTT broker after multiple attempts"), app, [])
  else if negb (isNetworkReachable net retryCount) then
    (Some (Errorf "MQTT broker not reachable"), app,
     [Log "Network check failed: MQTT broker %s:%s is not reachable (%v)";
      Log "MQTT broker is not reachable on current network, will retry later"])
  else
    let attempt := [Log "Connecting to MQTT broker: %s"; NewClient_Connect (brokerURL app)] in
    match Connect_Error net retryCount (brokerURL app) with
    | Some _ =>
        if SSL (app_config app) then
          let '(err, app', tr) :=
            getMQTTClientWithRetry net (with_SSL app false) (retryCount + 1) in
          (err, app',
           attempt ++ [Log "SSL connection failed: %v. Trying non-SSL connection..."] ++ tr)
        else (Some (Errorf "failed to connect to MQTT broker: %w"), app, attempt)
    | None => (None, with_client app (Some (NewClient retryCount)), attempt)
    end.
Proof.
  rewrite getMQTTClientWithRetry_equation_1.
  destruct (Z_lt_dec MaxRetryAttempts retryCount) as [Hlt|Hge].
  - rewrite getMQTTClientWithRetry_clause_1_equation_1.
    rewrite (proj2 (Z.ltb_lt _ _) Hlt). reflexivity.
  - rewrite getMQTTClientWithRetry_clause_1_equation_2.
    rewrite (proj2 (Z.ltb_ge _ _)) by lia. reflexivity.
Qed.

(** An attempt on the unencrypted transport is the last of its cycle. *)
Lemma getMQTTClientWithRetry_plain (net : Broker) (app : Application) (retryCount : Z) :
  SSL (app_config app) = false ->
  let '(err, app', tr) := getMQTTClientWithRetry net app retryCount in
  count is_fallback tr = 0%nat /\
  (count is_NewClient_Connect tr <= 1)%nat /\
  count is_NewClient_Connect tr =
    (if (retryCount <=? MaxRetryAttempts) && isNetworkReachable net retryCount
     then 1%nat else 0%nat) /\
  match err with
  | None => is_Some (client app')
  | Some _ => client app' = client app
  end /\
  SSL (app_config app') = false.
Proof.
  intros Hssl. rewrite getMQTTClientWithRetry_body. rewrite Hssl.
  destruct (Z.ltb_spec MaxRetryAttempts retryCount) as [Hlt|Hge].
  - rewrite (proj2 (Z.leb_gt _ _) Hlt). cbn. auto.
  - rewrite (proj2 (Z.leb_le _ _) Hge). cbn [andb].
    destruct (isNetworkReachable net retryCount); cbn [negb]; [|cbn; auto].
    cbv zeta. destruct (Connect_Error net retryCount (brokerURL app)); cbn; eauto 6.
Qed.

Lemma getMQTTClient_attempts (net : Broker) (app : Application) :
  let '(_, _, tr) := getMQTTClient net app in
  ((if isNetworkReachable net 0 then 1 else 0) <= count is_NewClient_Connect tr)%nat.
Proof.
  unfold getMQTTClient. rewrite getMQTTClientWithRetry_body.
  replace (MaxRetryAttempts <? 0) with false by reflexivity.
  destruct (isNetworkReachable net 0); cbn [negb]; [|cbn; lia].
  cbv zeta. destruct (Connect_Error net 0 (brokerURL app)); [|cbn; lia].
  destruct (SSL (app_config app)); [|cbn; lia].
  destruct (getMQTTClientWithRetry net (with_SSL app false) (0 + 1)) as [[err app'] tr].
  cbn. lia.
Qed.





(** ** Periodic publication *)

Lemma quiet_app (l1 l2 : list action) : quiet l1 -> quiet l2 -> quiet (l1 ++ l2).
Proof. unfold quiet. rewrite forallb_app. intros -> ->. reflexivity. Qed.

Lemma quiet_no_capability (l : list action) : quiet l -> List.filter is_capability l = [].
Proof.
  unfold quiet. induction l as [|a l IH]; [reflexivity|]. cbn [forallb List.filter].
  intros [Ha Hl]%andb_true_iff. rewrite (IH Hl). destruct a; try discriminate; reflexivity.
Qed.

Section RunLoopFacts.

Variable Sprintf_2f : Float -> string.

Lemma updateDiskUsage_quiet app tm : quiet (updateDiskUsage Sprintf_2f app tm).
Proof. unfold updateDiskUsage. destruct (getDiskUsage tm) as [[d|] [e|]]; reflexivity. Qed.

Lemma updateMemoryUsage_quiet app tm : quiet (updateMemoryUsage Sprintf_2f app tm).
Proof. unfold updateMemoryUsage. destruct (getMemoryUsage tm) as [[d|] [e|]]; reflexivity. Qed.

Lemma updateCPUUsage_quiet app tm : quiet (snd (updateCPUUsage Sprintf_2f app tm)).
Proof.
  unfold updateCPUUsage.
  destruct (getCPUUsage (cpu_Get tm) app) as [[[u|] [e|]] app']; reflexivity.
Qed.

Lemma updateUptime_quiet app tm : quiet (updateUptime app tm).
Proof. unfold updateUptime. destruct (getSystemUptime tm) as [[d|] [e|]]; reflexivity. Qed.

Lemma updateMediaDevices_quiet app tm : quiet (updateMediaDevices app tm).
Proof.
  unfold updateMediaDevices. destruct (getMediaDevicesState tm) as [[mic cam] [e|]]; reflexivity.
Qed.

Lemma updatePublicIP_quiet app tm : quiet (updatePublicIP app tm).
Proof. unfold updatePublicIP. destruct (getPublicIP tm) as [ip [e|]]; reflexivity. Qed.

Lemma updateDisplayBrightness_range_quiet app tm ds :
  quiet (updateDisplayBrightness_range app tm ds).
Proof.
  induction ds as [|d ds IH]; [reflexivity|]. cbn [updateDisplayBrightness_range].
  destruct (getDisplayBrightness tm (DisplayID d)) as [b [e|]].
  - apply quiet_app; [|exact IH].
    destruct (_ || _); [reflexivity|].
    destruct (isBetterDisplayCLIAvailable (host tm)); reflexivity.
  - apply quiet_app; [reflexivity | exact IH].
Qed.

Lemma updateDisplayBrightness_quiet app tm : quiet (snd (updateDisplayBrightness app tm)).
Proof.
  unfold updateDisplayBrightness. destruct (_ =? 0); [reflexivity|].
  apply updateDisplayBrightness_range_quiet.
Qed.

Lemma Run_iteration_disconnected (t : ticker) (reachable : bool) (tm : Telemetry)
    (st : RunState) :
  is_telemetry_ticker t = true ->
  exists tr, Run_iteration Sprintf_2f t false reachable tm st = (st, tr) /\
             forallb is_Log tr = true /\ (length tr <= 1)%nat.
Proof.
  intros Ht. destruct t; try discriminate; cbn [Run_iteration];
    destruct (networkReachable st); eexists; (split; [reflexivity|]); cbn; auto.
Qed.

Lemma Run_iteration_connected (t : ticker) (reachable : bool) (tm : Telemetry)
    (st : RunState) :
  is_telemetry_ticker t = true ->
  incl (snapshot_of t (run_app st) tm) (snd (Run_iteration Sprintf_2f t true reachable tm st)) /\
  quiet (snd (Run_iteration Sprintf_2f t true reachable tm st)).
Proof.
  intros Ht. destruct t; try discriminate; cbn [Run_iteration snapshot_of].
  - split.
    + intros a [<-|[<-|[]]]; cbn [snd]; unfold updateVolume, updateMute;
        rewrite !in_app_iff; cbn [In]; auto 10.
    + cbn [snd]. repeat apply quiet_app; try reflexivity. apply updateMediaDevices_quiet.
  - pose proof (updateCPUUsage_quiet (run_app st) tm) as Hcpu.
    destruct (updateCPUUsage Sprintf_2f (run_app st) tm) as [app' cpu]. cbn [snd] in *. split.
    + intros a [<-|[]]. unfold updateBattery. rewrite !in_app_iff. cbn [In]. auto 10.
    + repeat apply quiet_app; try reflexivity; try assumption;
        auto using updateDiskUsage_quiet, updateMemoryUsage_quiet, updateUptime_quiet,
          updatePublicIP_quiet.
  - pose proof (updateDisplayBrightness_quiet (run_app st) tm) as Hbr.
    destruct (updateDisplayBrightness (run_app st) tm) as [app' br]. cbn [snd] in *. split.
    + intros a [<-|[]]. unfold updateCaffeinateStatus. rewrite !in_app_iff. cbn [In]. auto 10.
    + apply quiet_app; [reflexivity | assumption].
Qed.

End RunLoopFacts.

Section SnapshotFacts.

Variable Sprintf_2f : Float -> string.

Lemma updateDisplayBrightness_range_publications (app : Application) (tm : Telemetry)
    (ds : list Display) :
  List.filter is_Publish (updateDisplayBrightness_range app tm ds) =
  map (publication app)
    (flat_map
       (fun display =>
          match getDisplayBrightness tm (DisplayID display) with
          | (brightness, None) =>
              [mkReading ("display_" +:+ DisplayID display +:+ "_brightness") true
                 (strconv.Itoa brightness)]
          | _ => []
          end) ds).
Proof.
  induction ds as [|d ds IH]; [reflexivity|].
  cbn [updateDisplayBrightness_range flat_map].
  destruct (getDisplayBrightness tm (DisplayID d)) as [b [e|]];
    rewrite List.filter_app, map_app, IH; f_equal.
  destruct (_ || _); [reflexivity|].
  destruct (isBetterDisplayCLIAvailable (host tm)); reflexivity.
Qed.

Lemma getCPUUsage_topic (cpu_Get : Cpu * option error) (app : Application) :
  getTopicPrefix (snd (getCPUUsage cpu_Get app)) = getTopicPrefix app.
Proof.
  unfold getCPUUsage. destruct cpu_Get as [cpu [e|]]; [reflexivity|].
  destruct (_ =? 0); reflexivity.
Qed.

(** A connected iteration publishes the snapshot of its ticker, nothing
    else, and keeps the two variables of the loop. *)
Lemma Run_iteration_publications (t : ticker) (reachable : bool) (tm : Telemetry)
    (st : RunState) :
  is_telemetry_ticker t = true ->
  List.filter is_Publish (snd (Run_iteration Sprintf_2f t true reachable tm st)) =
    map (publication (run_app st)) (current_snapshot Sprintf_2f t (run_app st) tm) /\
  lastConnectionState (fst (Run_iteration Sprintf_2f t true reachable tm st)) =
    lastConnectionState st /\
  networkReachable (fst (Run_iteration Sprintf_2f t true reachable tm st)) =
    networkReachable st /\
  getTopicPrefix (run_app (fst (Run_iteration Sprintf_2f t true reachable tm st))) =
    getTopicPrefix (run_app st).
Proof.
  intros Ht. destruct t; try discriminate; cbn [Run_iteration current_snapshot].
  - split; [|repeat split].
    unfold updateVolume, updateMute, updateMediaDevices. cbn [snd].
    destruct (getMediaDevicesState tm) as [[mic camera] [e|]]; [reflexivity|].
    destruct mic, camera; reflexivity.
  - unfold updateCPUUsage.
    pose proof (getCPUUsage_topic (cpu_Get tm) (run_app st)) as Htopic.
    destruct (getCPUUsage (cpu_Get tm) (run_app st)) as [[usage err] app'] eqn:Hcpu.
    cbn [snd] in Htopic.
    assert (Hrest : forall cpu,
      List.filter is_Publish
        (updateBattery (run_app st) tm ++ updateDiskUsage Sprintf_2f (run_app st) tm ++ cpu ++
         updateMemoryUsage Sprintf_2f app' tm ++ updateUptime app' tm ++ updatePublicIP app' tm) =
      map (publication (run_app st)) [mkReading "battery" false (getBatteryChargePercent tm)] ++
      List.filter is_Publish (updateDiskUsage Sprintf_2f (run_app st) tm) ++
      List.filter is_Publish cpu ++
      List.filter is_Publish (updateMemoryUsage Sprintf_2f app' tm) ++
      List.filter is_Publish (updateUptime app' tm) ++
      List.filter is_Publish (updatePublicIP app' tm)).
    { intros cpu. rewrite !List.filter_app. reflexivity. }
    assert (Hdisk : List.filter is_Publish (updateDiskUsage Sprintf_2f (run_app st) tm) =
      map (publication (run_app st))
        match getDiskUsage tm with
        | (Some disk, None) =>
            [mkReading "disk/total" false (strconv.Itoa (disk_Total disk));
             mkReading "disk/used" false (strconv.Itoa (disk_Used disk));
             mkReading "disk/free" false (strconv.Itoa (disk_Free disk));
             mkReading "disk/used_percent" false (Sprintf_2f (disk_UsedPercent disk));
             mkReading "disk/free_percent" false (Sprintf_2f (disk_FreePercent disk))]
        | _ => []
        end).
    { unfold updateDiskUsage. destruct (getDiskUsage tm) as [[d|] [e|]]; reflexivity. }
    assert (Hmem : List.filter is_Publish (updateMemoryUsage Sprintf_2f app' tm) =
      map (publication (run_app st))
        match getMemoryUsage tm with
        | (Some memory, None) =>
            [mkReading "memory/total" false (strconv.Itoa (mem_Total memory));
             mkReading "memory/used" false (strconv.Itoa (mem_Used memory));
             mkReading "memory/free" false (strconv.Itoa (mem_Free memory));
             mkReading "memory/used_percent" false (Sprintf_2f (mem_UsedPercent memory));
             mkReading "memory/free_percent" false (Sprintf_2f (mem_FreePercent memory))]
        | _ => []
        end).
    { unfold updateMemoryUsage, publication. rewrite Htopic.
      destruct (getMemoryUsage tm) as [[m|] [e|]]; reflexivity. }
    assert (Huptime : List.filter is_Publish (updateUptime app' tm) =
      map (publication (run_app st))
        match getSystemUptime tm with
        | (Some uptime, None) =>
            [mkReading "uptime/seconds" false (strconv.Itoa (Seconds uptime));
             mkReading "uptime/human" false (Human uptime)]
        | _ => []
        end).
    { unfold updateUptime, publication. rewrite Htopic.
      destruct (getSystemUptime tm) as [[u|] [e|]]; reflexivity. }
    assert (Hip : List.filter is_Publish (updatePublicIP app' tm) =
      map (publication (run_app st))
        [mkReading "public_ip" false
           (if failed (snd (getPublicIP tm)) then "unavailable" else fst (getPublicIP tm))]).
    { unfold updatePublicIP, publication. rewrite Htopic.
      destruct (getPublicIP tm) as [ip [e|]]; reflexivity. }
    split; [|destruct usage as [u|], err as [e|]; cbn; auto].
    rewrite !map_app, <- Hdisk, <- Hmem, <- Huptime, <- Hip.
    destruct usage as [u|], err as [e|]; cbn [fst snd]; rewrite Hrest; reflexivity.
  - unfold updateDisplayBrightness, updateCaffeinateStatus.
    destruct (displays (run_app st)) as [|d ds] eqn:Hds; [repeat split|].
    cbn [length]. rewrite (proj2 (Z.eqb_neq _ _)) by lia.
    split; [|destruct (getDisplays tm); repeat split].
    cbn [fst snd List.app List.filter is_Publish map]. f_equal.
    destruct (getDisplays tm) as [current|].
    + apply (updateDisplayBrightness_range_publications (with_displays (run_app st) current)).
    + rewrite Hds. apply updateDisplayBrightness_range_publications.
Qed.

End SnapshotFacts.

(** C7.  An iteration of a telemetry ticker (volume, battery, awake) that
    finds the client not connected publishes nothing and calls no
    capability: it writes at most one log line and leaves the loop state and
    the application as they were, so nothing is queued.  The same ticker's
    next iteration that finds the client connected therefore runs from the
    unchanged state, and its publications are exactly the snapshot of that
    moment: every class of the ticker with the value read in that iteration
    (volume, mute, microphone, camera and availability; battery, disk, CPU,
    memory, uptime and public address; caffeinate and the brightness of
    every display). *)
Theorem disconnected_tick_is_noop
    (Sprintf_2f : Float -> string) (t : ticker) (reachable reachable' : bool)
    (tm tm' : Telemetry) (st : RunState) :
  is_telemetry_ticker t = true ->
  let '(st1, tr1) := Run_iteration Sprintf_2f t false reachable tm st in
  let '(st2, tr2) := Run_iteration Sprintf_2f t true reachable' tm' st1 in
  st1 = st /\
  forallb is_Log tr1 = true /\ (length tr1 <= 1)%nat /\
  List.filter is_Publish tr1 = [] /\ List.filter is_capability tr1 = [] /\
  (st2, tr2) = Run_iteration Sprintf_2f t true reachable' tm' st /\
  incl (snapshot_of t (run_app st) tm') tr2 /\
  List.filter is_capability tr2 = [] /\
  List.filter is_Publish tr2 =
    map (publication (run_app st)) (current_snapshot Sprintf_2f t (run_app st) tm') /\
  lastConnectionState st2 = lastConnectionState st /\
  networkReachable st2 = networkReachable st.
Proof.
  intros Ht.
  destruct (Run_iteration_disconnected Sprintf_2f t reachable tm st Ht)
    as (tr1 & -> & Hlog & Hlen).
  pose proof (Run_iteration_connected Sprintf_2f t reachable' tm' st Ht) as [Hsnap Hquiet].
  pose proof (Run_iteration_publications Sprintf_2f t reachable' tm' st Ht)
    as (Hpub & Hlast & Hnet & _).
  destruct (Run_iteration Sprintf_2f t true reachable' tm' st) as [st2 tr2].
  cbn [fst snd] in *. repeat split; try assumption.
  - clear -Hlog. induction tr1 as [|a l IH]; [reflexivity|]. cbn [forallb List.filter] in *.
    apply andb_true_iff in Hlog as [Ha Hl]. rewrite (IH Hl). destruct a; try discriminate.
    reflexivity.
  - clear -Hlog. induction tr1 as [|a l IH]; [reflexivity|]. cbn [forallb List.filter] in *.
    apply andb_true_iff in Hlog as [Ha Hl]. rewrite (IH Hl). destruct a; try discriminate.
    reflexivity.
  - apply quiet_no_capability. assumption.
Qed.

(** ** Activity monitor *)

Ltac run_M :=
  cbv [resetActivityTimer setUserActivityState getUserActivityState monitorTick
       mbind M_bind mret M_ret Lock Unlock RLock RUnlock
       read_userActivityState write_userActivityState read_activityTimer
       write_activityTimer read_config read_topicPrefix Timer_stop time_AfterFunc
       when emit with_mutex with_app activityMutex w_app armed allocated fired
       reset_world reset_trace activated stop_of callback_started].

Lemma resetActivityTimer_run (connected : bool) (w : World) :
  activityMutex w = Unlocked ->
  resetActivityTimer connected w = Some (tt, reset_world w, reset_trace connected w).
Proof.
  destruct w as [app mu ar al fi]. cbn [activityMutex]. intros ->. run_M.
  destruct (String.eqb (userActivityState app) "active") eqn:Hact; cbn [negb andb].
  - destruct (activityTimer app); reflexivity.
  - destruct connected; cbn [andb];
      destruct app as [cfg ds tp cl ms ua [t|] cpu]; reflexivity.
Qed.

Lemma setUserActivityState_run (connected : bool) (state : string) (w : World) :
  activityMutex w = Unlocked ->
  setUserActivityState connected state w =
  Some (tt,
        with_app w (if String.eqb (userActivityState (w_app w)) state then w_app w
                    else with_userActivityState (w_app w) state),
        if negb (String.eqb (userActivityState (w_app w)) state) && connected
        then [Publish (getTopicPrefix (w_app w) +:+ "/status/user_activity") 0 false state;
              Log "User activity state changed to: %s"]
        else []).
Proof.
  destruct w as [app mu ar al fi]. cbn [activityMutex]. intros ->. run_M.
  destruct (String.eqb (userActivityState app) state); cbn [negb andb]; [reflexivity|].
  destruct connected; reflexivity.
Qed.

Lemma getUserActivityState_run (w : World) :
  activityMutex w = Unlocked ->
  getUserActivityState w = Some (userActivityState (w_app w), w, []).
Proof.
  destruct w as [app mu ar al fi]. cbn [activityMutex]. intros ->. reflexivity.
Qed.

Lemma monitorTick_run (connected connected' : bool) (idleTime : Z) (err : option error)
    (lastIdleTime : Z) (w : World) :
  activityMutex w = Unlocked ->
  monitorTick connected (idleTime, err) connected' lastIdleTime w =
  if negb connected then Some (lastIdleTime, w, [])
  else match err with
       | Some _ => Some (lastIdleTime, w, [Log "Error getting system idle time: %v"])
       | None =>
           let publish :=
             [Publish (getTopicPrefix (w_app w) +:+ "/status/idle_time_seconds") 0 false
                (strconv.Itoa idleTime)] in
           if (idleTime <? lastIdleTime) || (idleTime <? 2)
           then Some (idleTime, reset_world w, reset_trace connected' w ++ publish)
           else Some (idleTime, w, publish)
       end.
Proof.
  destruct w as [ap mu ar al fi]. cbn [activityMutex]. intros ->. unfold monitorTick.
  destruct connected; cbn [negb]; [|reflexivity].
  destruct err as [e|]; [reflexivity|].
  destruct ((idleTime <? lastIdleTime) || (idleTime <? 2)); cbn [when].
  - cbv [mbind M_bind]. rewrite resetActivityTimer_run by reflexivity.
    cbv [read_topicPrefix emit mret M_ret w_app reset_world getTopicPrefix activated].
    destruct (String.eqb (userActivityState ap) "active");
      cbn [topic with_activityTimer with_userActivityState List.app];
      rewrite ?app_nil_r; reflexivity.
  - cbv [mbind M_bind mret M_ret read_topicPrefix emit]. reflexivity.
Qed.

Lemma Inv_reset_world (w : World) : Inv w -> Inv (reset_world w).
Proof.
  intros [Hmu Harmed]. split; [reflexivity|].
  intros t Ht. cbn [reset_world armed w_app] in Ht |- *.
  assert (Hfresh : t = allocated w).
  { apply elem_of_union in Ht as [Ht | Ht%elem_of_singleton]; [|assumption].
    exfalso. destruct (activityTimer (w_app w)) as [t0|] eqn:Htimer.
    - apply elem_of_difference in Ht as [Hin Hne].
      specialize (Harmed t Hin). apply Hne, elem_of_singleton. congruence.
    - specialize (Harmed t Ht). discriminate. }
  subst t. unfold activated.
  destruct (String.eqb (userActivityState (w_app w)) "active"); reflexivity.
Qed.

Lemma Inv_set (w : World) (app' : Application) :
  Inv w -> activityTimer app' = activityTimer (w_app w) -> Inv (with_app w app').
Proof.
  intros [Hmu Harmed] Htimer. split; [exact Hmu|].
  intros t Ht. cbn [with_app w_app armed] in *. rewrite Htimer. auto.
Qed.

Lemma step_Inv (w w' : World) : Inv w -> step w w' -> Inv w'.
Proof.
  intros HInv Hstep. pose proof HInv as [Hmu Harmed].
  destruct Hstep as [w s w' tr H | c st w w' tr H | c w w' tr H
                    | c [idle err] c' last last' w w' tr H | t w Ht | c w w' tr Hf H].
  - rewrite getUserActivityState_run in H by assumption. injection H as _ <- _. assumption.
  - rewrite setUserActivityState_run in H by assumption. injection H as <- _.
    apply Inv_set; [assumption|].
    destruct (String.eqb (userActivityState (w_app w)) st); reflexivity.
  - rewrite resetActivityTimer_run in H by assumption. injection H as <- _.
    apply Inv_reset_world. assumption.
  - rewrite monitorTick_run in H by assumption.
    destruct c; cbn [negb] in H; [|injection H as _ <- _; assumption].
    destruct err; [injection H as _ <- _; assumption|]. cbv zeta in H.
    destruct ((idle <? last) || (idle <? 2)); injection H as _ <- _;
      [apply Inv_reset_world|]; assumption.
  - split; [exact Hmu|]. intros t' Ht'. cbn [fire armed w_app] in *.
    apply elem_of_difference in Ht' as [Hin _]. auto.
  - rewrite setUserActivityState_run in H by (destruct w; assumption). injection H as <- _.
    apply Inv_set.
    + destruct w. split; assumption.
    + destruct (String.eqb _ _); destruct w; reflexivity.
Qed.

Lemma reachable_Inv (app : Application) (w : World) :
  rtc step (initial_world app) w -> Inv w.
Proof.
  intros Hrtc.
  assert (Hinit : Inv (initial_world app)).
  { split; [reflexivity|]. intros t Ht. cbn [initial_world armed] in Ht.
    apply elem_of_empty in Ht. contradiction. }
  revert Hinit. induction Hrtc as [|w1 w2 w3 Hstep _ IH]; [trivial|].
  intros H1. apply IH. apply (step_Inv w1); assumption.
Qed.

Lemma Inv_one_armed (w : World) : Inv w -> (size (armed w) <= 1)%nat.
Proof.
  intros [_ Harmed].
  destruct (activityTimer (w_app w)) as [t|] eqn:Htimer.
  - rewrite <- (size_singleton (C := gset Timer) t). apply subseteq_size.
    intros t' Ht'. apply elem_of_singleton. specialize (Harmed t' Ht'). congruence.
  - replace (armed w) with (∅ : gset Timer); [rewrite size_empty; lia|].
    symmetry. apply leibniz_equiv, elem_of_equiv_empty. intros t' Ht'.
    specialize (Harmed t' Ht'). discriminate.
Qed.

(** C9.  In every world that the program's critical sections and timer
    expiries can reach, at most one timer is armed.  A rearm there succeeds
    inside the mutex; it stops the timer of the previous handle before it
    creates the new one, which is then the only armed timer and the new
    handle.  The accessors of the activity state run inside the mutex as
    well, while a read or write of the state or of the handle outside of it
    is refused. *)
Theorem one_pending_timer_under_lock (app : Application) (w : World) (connected : bool)
    (state : string) :
  rtc step (initial_world app) w ->
  (size (armed w) <= 1)%nat /\
  activityMutex w = Unlocked /\
  (exists w' tr,
     resetActivityTimer connected w = Some (tt, w', tr) /\
     List.filter is_timer_action tr =
       stop_of (activityTimer (w_app w)) ++
       [AfterFunc (allocated w) (IdleActivityTime (app_config (w_app w)))] /\
     armed w' = {[ allocated w ]} /\
     activityTimer (w_app w') = Some (allocated w) /\
     activityMutex w' = Unlocked) /\
  is_Some (setUserActivityState connected state w) /\
  is_Some (getUserActivityState w) /\
  read_userActivityState w = None /\ write_userActivityState state w = None /\
  read_activityTimer w = None /\ write_activityTimer None w = None.
Proof.
  intros Hreach. pose proof (reachable_Inv app w Hreach) as HInv.
  pose proof HInv as [Hmu Harmed].
  split; [apply Inv_one_armed; assumption|]. split; [assumption|]. split.
  - exists (reset_world w), (reset_trace connected w).
    split; [apply resetActivityTimer_run; assumption|]. split.
    + unfold reset_trace.
      destruct (negb _ && connected); destruct (activityTimer (w_app w)); reflexivity.
    + split; [|split; [|reflexivity]].
      * cbn [reset_world armed]. apply leibniz_equiv. intros t. split.
        -- intros [Ht | Ht]%elem_of_union; [|assumption]. exfalso.
           destruct (activityTimer (w_app w)) as [t0|] eqn:Htimer.
           ++ apply elem_of_difference in Ht as [Hin Hne].
              specialize (Harmed t Hin). apply Hne, elem_of_singleton. congruence.
           ++ specialize (Harmed t Ht). discriminate.
        -- intros Ht. apply elem_of_union. right. assumption.
      * cbn [reset_world w_app]. unfold activated.
        destruct (String.eqb (userActivityState (w_app w)) "active"); reflexivity.
  - rewrite setUserActivityState_run, getUserActivityState_run by assumption.
    unfold read_userActivityState, write_userActivityState, read_activityTimer,
      write_activityTimer. rewrite Hmu. repeat split; eauto.
Qed.

Lemma eqb_common_prefix (p a b : string) : String.eqb (p +:+ a) (p +:+ b) = String.eqb a b.
Proof.
  induction p as [|c p IH]; [reflexivity|]. simpl.
  rewrite Ascii.eqb_refl. exact IH.
Qed.

(** C8.  On a tick of the monitoring loop that has a fresh idle sample, the
    state goes to "active" and the debounce timer is rearmed exactly when the
    sample is strictly below the previous one or strictly below 2 seconds;
    otherwise the state and the timers stay as they are.  "active" is
    published exactly when that happens while the state was not "active"
    yet (and the client is connected): never a second time while active. *)
Theorem active_exactly_on_idle_drop
    (w : World) (lastIdleTime idleTime : Z) (connected' : bool) :
  activityMutex w = Unlocked ->
  let triggered := (idleTime <? lastIdleTime) || (idleTime <? 2) in
  let was_active := String.eqb (userActivityState (w_app w)) "active" in
  let activity_topic := getTopicPrefix (w_app w) +:+ "/status/user_activity" in
  exists w' tr,
    monitorTick true (idleTime, None) connected' lastIdleTime w = Some (idleTime, w', tr) /\
    userActivityState (w_app w') =
      (if triggered then "active" else userActivityState (w_app w)) /\
    List.filter is_timer_action tr =
      (if triggered
       then stop_of (activityTimer (w_app w)) ++
            [AfterFunc (allocated w) (IdleActivityTime (app_config (w_app w)))]
       else []) /\
    (if triggered then True else w' = w) /\
    List.filter (is_Publish_to activity_topic "active") tr =
      (if triggered && negb was_active && connected'
       then [Publish activity_topic 0 false "active"] else []) /\
    activityMutex w' = Unlocked.
Proof.
  intros Hmu triggered was_active activity_topic.
  rewrite monitorTick_run by assumption. cbn [negb]. cbv zeta.
  subst triggered was_active activity_topic.
  assert (Hidle : is_Publish_to (getTopicPrefix (w_app w) +:+ "/status/user_activity") "active"
                    (Publish (getTopicPrefix (w_app w) +:+ "/status/idle_time_seconds") 0 false
                       (strconv.Itoa idleTime)) = false).
  { cbn [is_Publish_to]. rewrite eqb_common_prefix. reflexivity. }
  assert (Hact : is_Publish_to (getTopicPrefix (w_app w) +:+ "/status/user_activity") "active"
                   (Publish (getTopicPrefix (w_app w) +:+ "/status/user_activity") 0 false
                      "active") = true).
  { cbn [is_Publish_to]. rewrite String.eqb_refl. reflexivity. }
  destruct ((idleTime <? lastIdleTime) || (idleTime <? 2)); cbn [andb].
  - exists (reset_world w), (reset_trace connected' w ++
      [Publish (getTopicPrefix (w_app w) +:+ "/status/idle_time_seconds") 0 false
         (strconv.Itoa idleTime)]).
    split; [reflexivity|]. unfold reset_trace. rewrite !List.filter_app.
    cbn [reset_world w_app]. unfold activated.
    destruct (String.eqb (userActivityState (w_app w)) "active") eqn:Hwas; cbn [negb andb].
    + apply String.eqb_eq in Hwas.
      repeat split; try assumption;
        destruct (activityTimer (w_app w));
        cbn [List.filter stop_of List.app is_timer_action with_activityTimer
             userActivityState];
        rewrite ?Hidle; auto.
    + destruct connected'; repeat split;
        destruct (activityTimer (w_app w));
        cbn [List.filter stop_of List.app is_timer_action with_activityTimer
             with_userActivityState userActivityState];
        rewrite ?Hact, ?Hidle; reflexivity.
  - eexists w, _. split; [reflexivity|]. cbn [List.filter is_timer_action].
    rewrite Hidle. repeat split; assumption.
Qed.

Lemma active_exactly_on_idle_drop_witness :
  activityMutex (initial_world (app0 idle_media)) = Unlocked /\
  exists w' tr,
    monitorTick true (3, None) true 5 (initial_world (app0 idle_media)) = Some (3, w', tr) /\
    userActivityState (w_app w') = "active".
Proof.
  split; [reflexivity|].
  destruct (active_exactly_on_idle_drop (initial_world (app0 idle_media)) 5 3 true eq_refl)
    as (w' & tr & Hrun & Hstate & _).
  exists w', tr. split; [exact Hrun | exact Hstate].
Defined.

(** The samples 5, 3, 1, 2, 4, 6, 8: "active" is published once, at the
    first decrease, and the timer is armed at 3 and rearmed at 1 only. *)
Lemma monitorLoop_idle_samples :
  match monitorLoop (ticks_of idle_samples) (-1) (initial_world (app0 idle_media)) with
  | Some (last, w', tr) =>
      last = 8 /\ userActivityState (w_app w') = "active" /\
      count (is_Publish_to "mac2mqtt/host/status/user_activity" "active") tr = 1%nat /\
      List.filter is_timer_action tr = [AfterFunc 0%nat 10; Timer_Stop 0%nat; AfterFunc 1%nat 10] /\
      activityTimer (w_app w') = Some 1%nat
  | None => False
  end.
Proof. vm_compute. repeat split. Qed.

Lemma world1_reachable : rtc step (initial_world (app0 idle_media)) world1.
Proof.
  apply rtc_once. apply (step_reset true _ _ (reset_trace true (initial_world (app0 idle_media)))).
  apply resetActivityTimer_run. reflexivity.
Defined.

Lemma one_pending_timer_under_lock_witness :
  rtc step (initial_world (app0 idle_media)) world1 /\
  (size (armed world1) <= 1)%nat /\
  exists w' tr,
    resetActivityTimer true world1 = Some (tt, w', tr) /\
    List.filter is_timer_action tr = [Timer_Stop 0%nat; AfterFunc 1%nat 10] /\
    armed w' = {[ 1%nat ]}.
Proof.
  split; [exact world1_reachable|].
  destruct (one_pending_timer_under_lock (app0 idle_media) world1 true "inactive"
              world1_reachable)
    as (Hsize & _ & (w' & tr & Hrun & Htimers & Harmed & _) & _).
  split; [exact Hsize|]. exists w', tr. repeat split; assumption.
Defined.

Lemma disconnected_tick_is_noop_witness :
  let '(st1, tr1) := Run_iteration (fun _ => "0.00") volumeTicker false true telemetry0 run0 in
  let '(st2, tr2) := Run_iteration (fun _ => "0.00") volumeTicker true true telemetry0 st1 in
  st1 = run0 /\
  forallb is_Log tr1 = true /\ (length tr1 <= 1)%nat /\
  List.filter is_Publish tr1 = [] /\ List.filter is_capability tr1 = [] /\
  (st2, tr2) = Run_iteration (fun _ => "0.00") volumeTicker true true telemetry0 run0 /\
  incl (snapshot_of volumeTicker (run_app run0) telemetry0) tr2 /\
  List.filter is_capability tr2 = [] /\
  List.filter is_Publish tr2 =
    map (publication (run_app run0))
      (current_snapshot (fun _ => "0.00") volumeTicker (run_app run0) telemetry0) /\
  lastConnectionState st2 = lastConnectionState run0 /\
  networkReachable st2 = networkReachable run0.
Proof.
  exact (disconnected_tick_is_noop (fun _ => "0.00") volumeTicker true true
           telemetry0 telemetry0 run0 eq_refl).
Defined.

(** * Properties of the further functions *)

(** ** The command router *)

Lemma filter_acts (l : list action) :
  List.filter is_command (acts l) = acts (List.filter is_capability l).
Proof.
  induction l as [|a l IH]; [reflexivity|].
  change (acts (a :: l)) with (Act a :: acts l). cbn [List.filter is_command].
  rewrite IH. destruct (is_capability a); reflexivity.
Qed.

Lemma quiet_no_command (l : list action) : quiet l -> List.filter is_command (acts l) = [].
Proof. intros H. rewrite filter_acts, quiet_no_capability by assumption. reflexivity. Qed.

Lemma topic_differs (p a b : string) :
  String.eqb a b = false -> String.eqb (p +:+ a) (p +:+ b) = false.
Proof. intros H. rewrite eqb_common_prefix. exact H. Qed.

Lemma handleDisplayBrightness_range_miss (app : Application) (h : Host)
    (topic payload : string) (ds : list Display) :
  (forall d, brightness_topic app topic d = false) ->
  handleDisplayBrightness_range app h topic payload ds = (false, []).
Proof.
  intros Hmiss. induction ds as [|d ds IH]; [reflexivity|].
  cbn [handleDisplayBrightness_range]. specialize (Hmiss d).
  unfold brightness_topic in Hmiss. rewrite Hmiss. exact IH.
Qed.

(** On a topic that is none of a display's, the brightness handler consumes
    the message exactly when no display is configured. *)
Lemma handleDisplayBrightnessCommand_miss (app : Application) (h : Host)
    (topic payload : string) :
  (forall d, brightness_topic app topic d = false) ->
  handleDisplayBrightnessCommand app h topic payload =
  match displays app with
  | [] =>
      (true, [Log "Received display brightness command but no displays are available";
              Log "Topic: %s, Payload: %s";
              Log "This usually means BetterDisplay CLI is not installed or not accessible"])
  | _ :: _ => (false, [])
  end.
Proof.
  intros Hmiss. unfold handleDisplayBrightnessCommand.
  destruct (displays app) as [|d ds]; [reflexivity|].
  replace (Z.of_nat (length (d :: ds)) =? 0) with false
    by (symmetry; apply Z.eqb_neq; cbn [length]; lia).
  apply handleDisplayBrightness_range_miss. assumption.
Qed.

Ltac other_topic :=
  repeat match goal with
    | |- context [String.eqb (?p +:+ ?a) (?p +:+ ?b)] =>
        rewrite (eqb_common_prefix p a b); simpl (String.eqb a b)
    end.

Section MediaControlFacts.

Context {float64 : Type}.
Variable int_of_float64 : float64 -> Z.
Variable div_1000000 : float64 -> float64.
Variable json_Marshal : gmap string (@any float64) -> string.
Variable json_Unmarshal : string -> gmap string (@any float64) * option error.

Abbreviation getInfo := (getMediaInfo int_of_float64 div_1000000 json_Unmarshal).
Abbreviation nowPlaying :=
  (updateNowPlaying int_of_float64 div_1000000 json_Marshal json_Unmarshal).
Abbreviation mediaPlayer :=
  (updateMediaPlayer int_of_float64 div_1000000 json_Marshal json_Unmarshal).
Abbreviation playPause :=
  (handlePlayPauseCommand int_of_float64 div_1000000 json_Marshal json_Unmarshal).
Abbreviation route := (listen int_of_float64 div_1000000 json_Marshal json_Unmarshal).

Lemma getMediaInfo_state (available : bool) (Output : string * option error)
    (info : MediaInfo) :
  fst (getInfo available Output) = Some info -> State info = "playing".
Proof.
  unfold getMediaInfo. destruct available; cbn [negb]; [|discriminate].
  destruct Output as [out [e|]]; [discriminate|].
  destruct (json_Unmarshal out) as [mediaData [e|]]; [discriminate|].
  destruct (mediaData !! "playing") as [[| [] | | | | |]|]; try discriminate.
  cbn [fst]. intros [= <-]. reflexivity.
Qed.

(** X1.  [getMediaInfo] returns a record only when Media Control is
    available, its output parses and holds a true "playing"; the record's
    state is then "playing", and a "duration" number takes precedence over
    the other duration keys. *)
Theorem getMediaInfo_only_when_playing
    (available : bool) (Output : string * option error) (info : MediaInfo) :
  fst (getInfo available Output) = Some info ->
  snd (getInfo available Output) = None /\
  available = true /\ snd Output = None /\
  State info = "playing" /\ AppBundleID info = EmptyString /\
  exists mediaData,
    json_Unmarshal (fst Output) = (mediaData, None) /\
    mediaData !! "playing" = Some (any_bool true) /\
    Title info = string_field mediaData "title" /\
    match mediaData !! "duration" with
    | Some (any_float64 d) => Duration info = int_of_float64 d
    | _ => True
    end.
Proof.
  unfold getMediaInfo. destruct available; cbn [negb]; [|discriminate].
  destruct Output as [out [e|]]; [discriminate|].
  destruct (json_Unmarshal out) as [mediaData [e|]] eqn:Hjson; [discriminate|].
  destruct (mediaData !! "playing") as [[| [] | | | | |]|] eqn:Hplaying; try discriminate.
  cbn [fst snd]. intros [= <-]. repeat split. exists mediaData.
  repeat split; try assumption. cbn [Duration].
  destruct (mediaData !! "duration") as [[| | d | | | |]|]; trivial.
Qed.

Lemma published_state_playing (info : MediaInfo) :
  State info = "playing" -> published_state info = "playing".
Proof. unfold published_state. intros ->. reflexivity. Qed.

(** X2.  [updateNowPlaying] publishes nothing when the media information
    cannot be read; otherwise it publishes the state and then the attributes,
    and the state is "playing" or "idle", never "paused". *)
Theorem updateNowPlaying_playing_or_idle
    (app : Application) (available : bool) (Output : string * option error) :
  (failed_media (snd (getInfo available Output)) = true /\
   List.filter is_Publish (nowPlaying app available Output) = []) \/
  (failed_media (snd (getInfo available Output)) = false /\
   exists state attributes,
     (state = "playing" \/ state = "idle") /\
     List.filter is_Publish (nowPlaying app available Output) =
       [Publish (getTopicPrefix app +:+ "/status/now_playing") 0 false state;
        Publish (getTopicPrefix app +:+ "/status/now_playing_attr") 0 false attributes]).
Proof.
  unfold updateNowPlaying.
  destruct (getInfo available Output) as [[info|] [[m|e]|]] eqn:Hget; cbn [snd failed_media];
    try (left; split; reflexivity).
  - right. split; [reflexivity|].
    pose proof (getMediaInfo_state available Output info) as Hstate.
    rewrite Hget in Hstate. specialize (Hstate eq_refl).
    rewrite (published_state_playing info Hstate). eexists _, _. split; [left|]; reflexivity.
  - right. split; [reflexivity|]. eexists _, _. split; [right|]; reflexivity.
Qed.

End MediaControlFacts.

Section RouterFacts.

Context {float64 : Type}.
Variable int_of_float64 : float64 -> Z.
Variable div_1000000 : float64 -> float64.
Variable json_Marshal : gmap string (@any float64) -> string.
Variable json_Unmarshal : string -> gmap string (@any float64) * option error.

Abbreviation nowPlaying' :=
  (updateNowPlaying int_of_float64 div_1000000 json_Marshal json_Unmarshal).
Abbreviation playPause' :=
  (handlePlayPauseCommand int_of_float64 div_1000000 json_Marshal json_Unmarshal).
Abbreviation route' := (listen int_of_float64 div_1000000 json_Marshal json_Unmarshal).

Lemma updateNowPlaying_quiet app available Output : quiet (nowPlaying' app available Output).
Proof.
  unfold updateNowPlaying.
  destruct (getMediaInfo _ _ _ _ _) as [[info|] [[m|e]|]]; reflexivity.
Qed.

(** A handler either passes the message on untouched or consumes it with at
    most one command. *)
Lemma or_else_one (handled : bool * list call) (next : list call) :
  (fst handled = false /\ snd handled = []) \/
  (fst handled = true /\ (length (List.filter is_command (snd handled)) <= 1)%nat) ->
  (length (List.filter is_command next) <= 1)%nat ->
  (length (List.filter is_command (or_else handled next)) <= 1)%nat.
Proof.
  unfold or_else. intros [[-> ->] | [-> Hone]] Hnext; assumption.
Qed.

Lemma lift_one (handled : bool * list action) :
  (fst handled = false /\ snd handled = []) \/
  (fst handled = true /\ (length (List.filter is_capability (snd handled)) <= 1)%nat) ->
  (fst (lift handled) = false /\ snd (lift handled) = []) \/
  (fst (lift handled) = true /\
   (length (List.filter is_command (snd (lift handled))) <= 1)%nat).
Proof.
  unfold lift. cbn [fst snd]. intros [[-> ->] | [-> Hone]]; [left; split; reflexivity|].
  right. split; [reflexivity|]. rewrite filter_acts. unfold acts. rewrite length_map.
  assumption.
Qed.

Lemma handleVolumeCommand_one app h topic payload :
  (fst (handleVolumeCommand app h topic payload) = false /\
   snd (handleVolumeCommand app h topic payload) = []) \/
  (fst (handleVolumeCommand app h topic payload) = true /\
   (length (List.filter is_capability (snd (handleVolumeCommand app h topic payload))) <= 1)%nat).
Proof.
  unfold handleVolumeCommand. destruct (String.eqb topic _); cbn [negb]; [|left; auto].
  right. destruct (validateVolumeInput payload) as [v [e|]]; cbn; auto.
Qed.

Lemma handleMuteCommand_one app h topic payload :
  (fst (handleMuteCommand app h topic payload) = false /\
   snd (handleMuteCommand app h topic payload) = []) \/
  (fst (handleMuteCommand app h topic payload) = true /\
   (length (List.filter is_capability (snd (handleMuteCommand app h topic payload))) <= 1)%nat).
Proof.
  unfold handleMuteCommand. destruct (String.eqb topic _); cbn [negb]; [|left; auto].
  right. destruct (validateMuteInput payload) as [v [e|]]; cbn; auto.
Qed.

Lemma handleSystemCommand_one app topic payload :
  (fst (handleSystemCommand app topic payload) = false /\
   snd (handleSystemCommand app topic payload) = []) \/
  (fst (handleSystemCommand app topic payload) = true /\
   (length (List.filter is_command (snd (handleSystemCommand app topic payload))) <= 1)%nat).
Proof.
  unfold handleSystemCommand. destruct (String.eqb topic _); cbn [negb]; [|left; auto].
  right. split; [reflexivity|]. cbn [snd].
  repeat match goal with |- context [String.eqb payload ?s] => destruct (String.eqb payload s) end;
    cbn; lia.
Qed.

Lemma handleDisplayBrightness_range_one app h topic payload ds :
  (fst (handleDisplayBrightness_range app h topic payload ds) = false /\
   snd (handleDisplayBrightness_range app h topic payload ds) = []) \/
  (fst (handleDisplayBrightness_range app h topic payload ds) = true /\
   (length (List.filter is_capability
              (snd (handleDisplayBrightness_range app h topic payload ds))) <= 1)%nat).
Proof.
  induction ds as [|d ds IH]; [left; auto|]. cbn [handleDisplayBrightness_range].
  destruct (String.eqb topic _); [|exact IH]. right.
  destruct (validateBrightnessInput payload) as [v [e|]]; [cbn; auto|].
  destruct (setDisplayBrightness_err h (DisplayID d) v);
    [destruct (isBetterDisplayCLIAvailable h)|]; cbn; auto.
Qed.

Lemma handleDisplayBrightnessCommand_one app h topic payload :
  (fst (handleDisplayBrightnessCommand app h topic payload) = false /\
   snd (handleDisplayBrightnessCommand app h topic payload) = []) \/
  (fst (handleDisplayBrightnessCommand app h topic payload) = true /\
   (length (List.filter is_capability
              (snd (handleDisplayBrightnessCommand app h topic payload))) <= 1)%nat).
Proof.
  unfold handleDisplayBrightnessCommand. destruct (_ =? 0); [right; cbn; auto|].
  apply handleDisplayBrightness_range_one.
Qed.

Lemma handleShortcutCommand_one app topic payload :
  (fst (handleShortcutCommand app topic payload) = false /\
   snd (handleShortcutCommand app topic payload) = []) \/
  (fst (handleShortcutCommand app topic payload) = true /\
   (length (List.filter is_capability (snd (handleShortcutCommand app topic payload))) <= 1)%nat).
Proof.
  unfold handleShortcutCommand. destruct (String.eqb topic _); cbn [negb]; [|left; auto].
  right. destruct (validateShortcutInput payload); cbn; auto.
Qed.

Lemma handleKeepAwakeCommand_one app h topic payload :
  (fst (handleKeepAwakeCommand app h topic payload) = false /\
   snd (handleKeepAwakeCommand app h topic payload) = []) \/
  (fst (handleKeepAwakeCommand app h topic payload) = true /\
   (length (List.filter is_capability (snd (handleKeepAwakeCommand app h topic payload))) <= 1)%nat).
Proof.
  unfold handleKeepAwakeCommand. destruct (String.eqb topic _); cbn [negb]; [|left; auto].
  right. destruct (validateKeepAwakeInput payload) as [[] [e|]]; cbn; auto.
Qed.

Lemma handlePlayPauseCommand_commands app available Output topic payload :
  handlePlayPauseCommand int_of_float64 div_1000000 json_Marshal json_Unmarshal
    app available Output topic payload =
  (String.eqb topic (getTopicPrefix app +:+ "/command/playpause"),
   snd (playPause' app available Output topic payload)) /\
  List.filter is_command (snd (playPause' app available Output topic payload)) =
  if String.eqb topic (getTopicPrefix app +:+ "/command/playpause") &&
     String.eqb payload "playpause"
  then [commandPlayPause] else [].
Proof.
  unfold handlePlayPauseCommand. destruct (String.eqb topic _); cbn [negb andb snd];
    [|split; reflexivity].
  destruct (String.eqb payload "playpause"); [|split; reflexivity].
  split; [reflexivity|]. cbn [List.app List.filter is_command].
  rewrite quiet_no_command by apply updateNowPlaying_quiet. reflexivity.
Qed.

Lemma handlePlayPauseCommand_one app available Output topic payload :
  (fst (playPause' app available Output topic payload) = false /\
   snd (playPause' app available Output topic payload) = []) \/
  (fst (playPause' app available Output topic payload) = true /\
   (length (List.filter is_command (snd (playPause' app available Output topic payload)))
    <= 1)%nat).
Proof.
  destruct (handlePlayPauseCommand_commands app available Output topic payload) as [Hshape Hcmd].
  rewrite Hcmd. rewrite Hshape at 1 3. cbn [fst].
  destruct (String.eqb topic _) eqn:Ht; cbn [andb].
  - right. split; [reflexivity|]. destruct (String.eqb payload "playpause"); cbn; lia.
  - left. split; [reflexivity|].
    unfold handlePlayPauseCommand. rewrite Ht. reflexivity.
Qed.

(** X3.  Whatever the topic and the payload of an inbound message, [listen]
    makes at most one call that changes the host. *)
Theorem listen_at_most_one_command
    (app : Application) (h : Host) (available : bool) (Output : string * option error)
    (topic payload : string) :
  (length (List.filter is_command (route' app h available Output topic payload)) <= 1)%nat.
Proof.
  unfold listen.
  apply or_else_one; [apply lift_one, handleVolumeCommand_one|].
  apply or_else_one; [apply lift_one, handleMuteCommand_one|].
  apply or_else_one; [apply handleSystemCommand_one|].
  apply or_else_one; [apply lift_one, handleDisplayBrightnessCommand_one|].
  apply or_else_one; [apply lift_one, handleShortcutCommand_one|].
  apply or_else_one; [apply lift_one, handleKeepAwakeCommand_one|].
  apply or_else_one; [apply handlePlayPauseCommand_one|].
  cbn. lia.
Qed.

(** X4.  A message on the [set] topic runs the command its payload names
    (sleep, displaysleep, displaywake, shutdown, screensaver) and nothing
    else; any other payload runs nothing.  Displays play no role. *)
Theorem listen_set_runs_named_command
    (app : Application) (h : Host) (available : bool) (Output : string * option error)
    (payload : string) :
  List.filter is_command
    (route' app h available Output (getTopicPrefix app +:+ "/command/set") payload) =
  match system_command payload with
  | Some command => [command]
  | None => []
  end.
Proof.
  unfold listen, or_else, lift, handleVolumeCommand, handleMuteCommand, handleSystemCommand.
  other_topic. rewrite ?String.eqb_refl. cbn [negb fst snd acts map List.app].
  unfold system_command.
  repeat match goal with |- context [String.eqb payload ?s] => destruct (String.eqb payload s) end;
    reflexivity.
Qed.

(** X5.  The handlers after the brightness handler are reached only when a
    display is configured: with no display, a message on the shortcut,
    keep-awake or play/pause topic runs nothing; with one, it runs what its
    handler decides. *)
Theorem later_commands_need_a_display
    (app : Application) (h : Host) (available : bool) (Output : string * option error)
    (payload : string) :
  List.filter is_command
    (route' app h available Output (getTopicPrefix app +:+ "/command/runshortcut") payload) =
    match displays app, validateShortcutInput payload with
    | _ :: _, None => [Act (commandRunShortcut payload)]
    | _, _ => []
    end /\
  List.filter is_command
    (route' app h available Output (getTopicPrefix app +:+ "/command/keepawake") payload) =
    match displays app, bool_literal payload with
    | _ :: _, Some b => [Act (if b then commandKeepAwake else commandAllowSleep)]
    | _, _ => []
    end /\
  List.filter is_command
    (route' app h available Output (getTopicPrefix app +:+ "/command/playpause") payload) =
    match displays app with
    | _ :: _ => if String.eqb payload "playpause" then [commandPlayPause] else []
    | [] => []
    end.
Proof.
  assert (Hmiss : forall suffix,
             (forall id, String.eqb suffix ("/command/display_" +:+ id +:+ "_brightness") = false) ->
             forall d, brightness_topic app (getTopicPrefix app +:+ suffix) d = false).
  { intros suffix Hs d. unfold brightness_topic. rewrite eqb_common_prefix. apply Hs. }
  split; [|split].
  - unfold listen, or_else, lift, handleVolumeCommand, handleMuteCommand, handleSystemCommand.
    other_topic. cbn [negb fst snd acts map List.app].
    rewrite handleDisplayBrightnessCommand_miss by (apply Hmiss; reflexivity).
    destruct (displays app) as [|d ds]; [reflexivity|]. cbn [fst snd acts map List.app].
    unfold handleShortcutCommand. other_topic. rewrite ?String.eqb_refl. cbn [negb].
    destruct (validateShortcutInput payload); reflexivity.
  - unfold listen, or_else, lift, handleVolumeCommand, handleMuteCommand, handleSystemCommand.
    other_topic. cbn [negb fst snd acts map List.app].
    rewrite handleDisplayBrightnessCommand_miss by (apply Hmiss; reflexivity).
    destruct (displays app) as [|d ds]; [reflexivity|]. cbn [fst snd acts map List.app].
    unfold handleShortcutCommand, handleKeepAwakeCommand, validateKeepAwakeInput.
    other_topic. rewrite ?String.eqb_refl, ParseBool_spec. cbn [negb fst snd acts map List.app].
    destruct (bool_literal payload) as [[]|]; reflexivity.
  - unfold listen, or_else, lift, handleVolumeCommand, handleMuteCommand, handleSystemCommand.
    other_topic. cbn [negb fst snd acts map List.app].
    rewrite handleDisplayBrightnessCommand_miss by (apply Hmiss; reflexivity).
    destruct (displays app) as [|d ds]; [reflexivity|]. cbn [fst snd acts map List.app].
    unfold handleShortcutCommand, handleKeepAwakeCommand.
    other_topic. cbn [negb fst snd acts map List.app].
    destruct (handlePlayPauseCommand_commands app available Output
                (getTopicPrefix app +:+ "/command/playpause") payload) as [Hshape Hcmd].
    rewrite Hshape, String.eqb_refl in *. cbn [fst snd andb] in *. exact Hcmd.
Qed.

End RouterFacts.

(** ** Media stream merge, further *)

Section MediaStreamMore.

Context {float64 : Type}.
Variable int_of_float64 : float64 -> Z.
Variable div_1000000 : float64 -> float64.
Variable json_Marshal : gmap string (@any float64) -> string.
Variable range : gmap string (@any float64) -> list (string * @any float64).
Hypothesis range_perm : forall m, range m ≡ₚ map_to_list m.

Abbreviation merge1' := (mergeField int_of_float64 div_1000000).
Abbreviation mergeAll' := (mergePayload int_of_float64 div_1000000).
Abbreviation merged' := (merged int_of_float64 div_1000000 json_Marshal range).
Abbreviation process' :=
  (processMediaStreamUpdate int_of_float64 div_1000000 json_Marshal range).




Lemma mergePayload_State_no_bool (kvs : list (string * @any float64)) (st : MediaInfo) :
  (forall b, ("playing", any_bool b) ∉ kvs) -> State (mergeAll' kvs st) = State st.
Proof.
  revert st. induction kvs as [|[k v] kvs IH]; intros st Hno; [reflexivity|].
  cbn [mergePayload fold_left].
  change (State (mergeAll' kvs (merge1' st (k, v))) = State st).
  rewrite IH by (intros b Hb; apply (Hno b); apply list_elem_of_further; exact Hb).
  destruct (String.eqb_spec k "playing") as [->|Hk].
  - destruct v as [| b | | | | |]; try reflexivity.
    exfalso. apply (Hno b). apply list_elem_of_here.
  - apply mergeField_State. intros Hin. apply list_elem_of_singleton in Hin. contradiction.
Qed.

(** X7.  Whatever an event of the stream holds, the state it leaves is
    "playing", "idle" or the state before the event: the merge never leaves
    "paused" behind on its own. *)
Theorem stream_state_playing_idle_or_kept
    (app : Application) (mediaData : gmap string (@any float64)) :
  State (merged' app mediaData) = "playing" \/
  State (merged' app mediaData) = "idle" \/
  State (merged' app mediaData) = State (currentMediaState app).
Proof.
  unfold merged, processMediaStreamUpdate.
  destruct (mediaData !! "payload") as [[| | | | | | payload]|]; cbn [fst]; auto.
  cbn [currentMediaState with_currentMediaState].
  destruct (payload !! "playing") as [v|] eqn:Hplaying.
  - destruct v as [| [] | | | | |]; cbn [State with_State]; auto;
      try (right; right; apply mergePayload_State_no_bool; intros b Hb;
           apply (elem_of_range range range_perm) in Hb; congruence).
    left. apply (mergePayload_playing int_of_float64 div_1000000 _ _ true).
    + apply NoDup_range. assumption.
    + apply (elem_of_range range range_perm). assumption.
  - right. right. apply mergePayload_State_no_bool. intros b Hb.
    apply (elem_of_range range range_perm) in Hb. congruence.
Qed.

End MediaStreamMore.

(** ** Activity monitor, further *)

Lemma Inv_reset_armed (w : World) : Inv w -> armed (reset_world w) = {[ allocated w ]}.
Proof.
  intros [_ Harmed]. cbn [reset_world armed]. apply leibniz_equiv. intros t. split.
  - intros [Ht | Ht]%elem_of_union; [|assumption]. exfalso.
    destruct (activityTimer (w_app w)) as [t0|] eqn:Htimer.
    + apply elem_of_difference in Ht as [Hin Hne].
      specialize (Harmed t Hin). apply Hne, elem_of_singleton. congruence.
    + specialize (Harmed t Ht). discriminate.
  - intros Ht. apply elem_of_union. right. assumption.
Qed.

Lemma reset_world_active (w : World) : userActivityState (w_app (reset_world w)) = "active".
Proof.
  cbn [reset_world w_app]. unfold activated.
  destruct (String.eqb_spec (userActivityState (w_app w)) "active") as [Heq|Hne];
    [exact Heq | reflexivity].
Qed.

(** X8.  When no activity follows a rearm, the expiry of the timer and its
    callback make the state "inactive", leave no timer armed, and publish
    "inactive" once if the client is connected then. *)
Theorem timer_expiry_makes_inactive
    (app : Application) (w : World) (connected connected' : bool) :
  rtc step (initial_world app) w ->
  exists w1 tr1 w3 tr3,
    resetActivityTimer connected w = Some (tt, w1, tr1) /\
    allocated w ∈ armed w1 /\
    setUserActivityState connected' "inactive" (callback_started (fire (allocated w) w1)) =
      Some (tt, w3, tr3) /\
    rtc step w w3 /\
    userActivityState (w_app w3) = "inactive" /\
    armed w3 = ∅ /\
    List.filter is_Publish tr3 =
      (if connected'
       then [Publish (getTopicPrefix (w_app w) +:+ "/status/user_activity") 0 false "inactive"]
       else []).
Proof.
  intros Hreach. pose proof (reachable_Inv app w Hreach) as HInv.
  pose proof HInv as [Hmu _].
  pose proof (resetActivityTimer_run connected w Hmu) as Hreset.
  pose proof (Inv_reset_armed w HInv) as Harmed.
  assert (Hin : allocated w ∈ armed (reset_world w))
    by (rewrite Harmed; apply elem_of_singleton; reflexivity).
  set (w2 := callback_started (fire (allocated w) (reset_world w))).
  assert (Hmu2 : activityMutex w2 = Unlocked) by reflexivity.
  pose proof (setUserActivityState_run connected' "inactive" w2 Hmu2) as Hset.
  assert (Hactive : userActivityState (w_app w2) = "active") by apply reset_world_active.
  rewrite Hactive in Hset. cbn [String.eqb Ascii.eqb Bool.eqb negb andb] in Hset.
  eexists _, _, _, _. split; [exact Hreset|]. split; [exact Hin|].
  split; [exact Hset|]. split; [|split; [reflexivity|split]].
  - eapply rtc_l; [eapply step_reset; exact Hreset|].
    eapply rtc_l; [apply (step_fire (allocated w)); exact Hin|].
    apply rtc_once. eapply (step_callback connected'); [cbn; lia | exact Hset].
  - cbn [with_app armed w2 callback_started fire]. rewrite Harmed.
    apply leibniz_equiv. intros t. split; [|intros Ht; apply elem_of_empty in Ht; contradiction].
    intros [Ht Hne]%elem_of_difference. contradiction.
  - assert (Htopic : getTopicPrefix (w_app w2) = getTopicPrefix (w_app w)).
    { cbn [w2 callback_started fire reset_world w_app]. unfold activated.
      destruct (String.eqb _ _); reflexivity. }
    rewrite Htopic. destruct connected'; reflexivity.
Qed.

(** X9.  Stopping the previous timer does not cancel a callback that has
    already been started: when such a callback runs after a rearm, the state
    goes back to "inactive" although the new timer is still armed. *)
Theorem started_callback_survives_rearm
    (app : Application) (w : World) (connected connected' : bool) :
  rtc step (initial_world app) w ->
  (0 < fired w)%nat ->
  exists w1 tr1 w2 tr2,
    resetActivityTimer connected w = Some (tt, w1, tr1) /\
    userActivityState (w_app w1) = "active" /\
    setUserActivityState connected' "inactive" (callback_started w1) = Some (tt, w2, tr2) /\
    step w1 w2 /\
    userActivityState (w_app w2) = "inactive" /\
    armed w2 = {[ allocated w ]} /\
    activityTimer (w_app w2) = Some (allocated w).
Proof.
  intros Hreach Hfired. pose proof (reachable_Inv app w Hreach) as HInv.
  pose proof HInv as [Hmu _].
  pose proof (resetActivityTimer_run connected w Hmu) as Hreset.
  set (w1 := callback_started (reset_world w)).
  assert (Hmu1 : activityMutex w1 = Unlocked) by reflexivity.
  pose proof (setUserActivityState_run connected' "inactive" w1 Hmu1) as Hset.
  assert (Hactive : userActivityState (w_app w1) = "active") by apply reset_world_active.
  rewrite Hactive in Hset. cbn [String.eqb Ascii.eqb Bool.eqb negb andb] in Hset.
  eexists _, _, _, _. split; [exact Hreset|]. split; [apply reset_world_active|].
  split; [exact Hset|]. split; [|split; [reflexivity|split]].
  - eapply (step_callback connected'); [cbn [reset_world fired]; exact Hfired | exact Hset].
  - cbn [with_app armed w1 callback_started]. apply Inv_reset_armed. assumption.
  - cbn [with_app w_app w1 callback_started reset_world with_userActivityState
         with_activityTimer activityTimer]. reflexivity.
Qed.

Lemma monitorLoop_cons (connected : bool) (idle : Z * option error) (connected' : bool)
    (rest : list (bool * (Z * option error) * bool)) (last : Z) (w : World) :
  monitorLoop ((connected, idle, connected') :: rest) last w =
  match monitorTick connected idle connected' last w with
  | None => None
  | Some (last1, w1, tr1) =>
      match monitorLoop rest last1 w1 with
      | None => None
      | Some (last2, w2, tr2) => Some (last2, w2, tr1 ++ tr2)
      end
  end.
Proof. reflexivity. Qed.

(** X10.  As long as the client is not connected or the idle time cannot be
    read, the monitoring loop takes no sample: it keeps [lastIdleTime],
    leaves the activity state and the timers alone, and publishes nothing. *)
Theorem monitorLoop_without_sample_does_nothing
    (ticks : list (bool * (Z * option error) * bool)) (lastIdleTime : Z) (w : World) :
  activityMutex w = Unlocked ->
  forallb no_sample ticks = true ->
  exists tr,
    monitorLoop ticks lastIdleTime w = Some (lastIdleTime, w, tr) /\
    forallb is_Log tr = true.
Proof.
  intros Hmu. induction ticks as [|[[c [idle err]] c'] ticks IH]; intros Hall.
  - exists []. split; reflexivity.
  - cbn [forallb no_sample] in Hall. apply andb_true_iff in Hall as [Hno Hall].
    destruct (IH Hall) as (tr & Hloop & Hlog).
    rewrite monitorLoop_cons, monitorTick_run by assumption.
    destruct c; cbn [negb orb] in Hno |- *.
    + destruct err as [e|]; [|discriminate]. rewrite Hloop.
      eexists. split; [reflexivity|]. cbn. exact Hlog.
    + rewrite Hloop. eexists. split; [reflexivity|]. exact Hlog.
Qed.

Lemma last_cons (l : list Z) (i d : Z) : List.last (i :: l) d = List.last l i.
Proof.
  revert i d. induction l as [|a l IH]; intros i d; [reflexivity|].
  change (List.last (i :: a :: l) d) with (List.last (a :: l) d).
  rewrite (IH a d), (IH a i). reflexivity.
Qed.

(** X11.  Samples that neither drop nor fall below 2 seconds never rearm the
    timer: over any such sequence the loop leaves the activity state and the
    timers as they are and only publishes the idle time of every sample. *)
Theorem monitorLoop_rising_samples_change_nothing
    (samples : list Z) (lastIdleTime : Z) (w : World) :
  activityMutex w = Unlocked ->
  rising lastIdleTime samples = true ->
  monitorLoop (ticks_of samples) lastIdleTime w =
  Some (List.last samples lastIdleTime, w, idle_publications (w_app w) samples).
Proof.
  intros Hmu. revert lastIdleTime. induction samples as [|i samples IH]; intros last Hrising.
  - reflexivity.
  - cbn [rising] in Hrising. apply andb_true_iff in Hrising as [Hi Hrest].
    apply andb_true_iff in Hi as [Hprev Hfloor].
    change (ticks_of (i :: samples)) with ((true, (i, None), true) :: ticks_of samples).
    rewrite monitorLoop_cons, monitorTick_run by assumption. cbn [negb]. cbv zeta.
    replace ((i <? last) || (i <? 2)) with false by lia.
    rewrite (IH i Hrest), last_cons. reflexivity.
Qed.

(** ** The loop of [Run], further *)

(** X12.  An iteration of the network-check ticker records what it observed
    in the two loop variables and leaves the application alone.  It never
    asks the client to reconnect: the variable it tests was just set to the
    observed value.  A second check with the same observations logs no
    transition. *)
Theorem network_check_never_reconnects
    (Sprintf_2f : Float -> string) (IsConnected reachable : bool) (tm tm' : Telemetry)
    (st : RunState) :
  let '(st1, tr1) := Run_iteration Sprintf_2f networkCheckTicker IsConnected reachable tm st in
  networkReachable st1 = reachable /\
  lastConnectionState st1 = IsConnected /\
  run_app st1 = run_app st /\
  forallb is_Log tr1 = true /\
  snd (Run_iteration Sprintf_2f networkCheckTicker IsConnected reachable tm' st1) =
    (if reachable then []
     else [Log "Network check failed: MQTT broker %s:%s is not reachable (%v)"]).
Proof.
  cbn [Run_iteration].
  destruct reachable, IsConnected, (networkReachable st), (lastConnectionState st);
    cbn; repeat split; reflexivity.
Qed.

Lemma getCPUUsage_displays (cpu_Get : Cpu * option error) (app : Application) :
  displays (snd (getCPUUsage cpu_Get app)) = displays app.
Proof.
  unfold getCPUUsage. destruct cpu_Get as [cpu [e|]]; [reflexivity|].
  destruct (_ =? 0); reflexivity.
Qed.

Lemma Run_iteration_no_displays (Sprintf_2f : Float -> string) (t : ticker)
    (IsConnected reachable : bool) (tm : Telemetry) (st : RunState) :
  displays (run_app st) = [] ->
  displays (run_app (fst (Run_iteration Sprintf_2f t IsConnected reachable tm st))) = [].
Proof.
  intros Hnone. destruct t; cbn [Run_iteration].
  - destruct IsConnected; [assumption|]. destruct (networkReachable st); assumption.
  - destruct IsConnected; [|destruct (networkReachable st); assumption].
    unfold updateCPUUsage.
    pose proof (getCPUUsage_displays (cpu_Get tm) (run_app st)) as Hcpu.
    destruct (getCPUUsage (cpu_Get tm) (run_app st)) as [[[u|] [e|]] app']; cbn in Hcpu |- *;
      congruence.
  - destruct IsConnected; [|destruct (networkReachable st); assumption].
    unfold updateDisplayBrightness. rewrite Hnone. cbn. assumption.
  - destruct (negb _); destruct (negb _); cbn; assumption.
Qed.

(** X13.  When the application starts without displays, no sequence of
    iterations of the loop ever gives it one, whatever [getDisplays] returns
    later: the refresh in [updateDisplayBrightness] is skipped for an empty
    list. *)
Theorem displays_never_appear
    (Sprintf_2f : Float -> string) (events : list (ticker * bool * bool * Telemetry))
    (st : RunState) :
  displays (run_app st) = [] ->
  displays (run_app (fst (Run_iterations Sprintf_2f events st))) = [].
Proof.
  revert st. induction events as [|[[[t c] r] tm] events IH]; intros st Hnone; [assumption|].
  cbn [Run_iterations].
  pose proof (Run_iteration_no_displays Sprintf_2f t c r tm st Hnone) as H1.
  destruct (Run_iteration Sprintf_2f t c r tm st) as [st1 tr1]. cbn [fst] in H1.
  specialize (IH st1 H1).
  destruct (Run_iterations Sprintf_2f events st1) as [st2 tr2]. exact IH.
Qed.

Lemma getMQTTClient_error_keeps_client (net : Broker) (app : Application) :
  let '(err, app', _) := getMQTTClient net app in
  match err with
  | Some _ => client app' = client app
  | None => is_Some (client app')
  end.
Proof.
  unfold getMQTTClient. rewrite getMQTTClientWithRetry_body.
  replace (MaxRetryAttempts <? 0) with false by reflexivity.
  destruct (isNetworkReachable net 0); cbn [negb]; [|reflexivity].
  cbv zeta. destruct (Connect_Error net 0 (brokerURL app)); [|cbn; eauto].
  destruct (SSL (app_config app)) eqn:Hssl; [|reflexivity].
  pose proof (getMQTTClientWithRetry_plain net (with_SSL app false) (0 + 1) eq_refl) as Hplain.
  destruct (getMQTTClientWithRetry net (with_SSL app false) (0 + 1)) as [[err app'] tr].
  destruct Hplain as (_ & _ & _ & Herr & _). exact Herr.
Qed.

(** X14.  [Run] gets to its main loop only with a client: when the first
    connect cycle fails, [Run] returns the error if the broker is reachable
    by then, and otherwise announces offline mode and then calls a method of
    the nil client, which panics. *)
Theorem Run_needs_the_first_connection
    (net : Broker) (reachable IsConnected : bool) (app : Application) :
  client app = None ->
  match fst (Run_connect net reachable IsConnected app) with
  | Run_goes_on app' connected =>
      fst (fst (getMQTTClient net app)) = None /\ is_Some (client app') /\
      connected = IsConnected
  | Run_returns _ => failed (fst (fst (getMQTTClient net app))) = true /\ reachable = true
  | Run_panics => failed (fst (fst (getMQTTClient net app))) = true /\ reachable = false
  end.
Proof.
  intros Hnil. unfold Run_connect.
  pose proof (getMQTTClient_error_keeps_client net app) as Hclient.
  destruct (getMQTTClient net app) as [[[e|] app'] tr]; cbn [fst failed].
  - rewrite Hnil in Hclient. destruct reachable; cbn [negb fst]; [auto|].
    rewrite Hclient. cbn [fst]. auto.
  - destruct Hclient as [c Hc]. rewrite Hc. cbn [fst]. eauto.
Qed.

(** ** Host queries *)







Lemma take_digits_spec (s : string) :
  s = fst (sources.take_digits s) +:+ snd (sources.take_digits s) /\
  all_in_class strconv.is_digit (fst (sources.take_digits s)) = true.
Proof.
  induction s as [|c s [IHs IHd]]; [split; reflexivity|].
  cbn [sources.take_digits]. destruct (strconv.is_digit c) eqn:Hc; [|split; reflexivity].
  destruct (sources.take_digits s) as [run rest]. cbn [fst snd] in *. split.
  - change (String c run +:+ rest) with (String c (run +:+ rest)). congruence.
  - cbn [all_in_class]. rewrite Hc, IHd. reflexivity.
Qed.

Lemma prefix_append (a b : string) : String.prefix a (a +:+ b) = true.
Proof.
  induction a as [|c a IH]; [destruct b; reflexivity|]. simpl.
  destruct (ascii_dec c c); [exact IH | contradiction].
Qed.

Lemma prefix_cons (a b : ascii) (s1 s2 : string) :
  String.prefix (String a s1) (String b s2) =
  if ascii_dec a b then String.prefix s1 s2 else false.
Proof. reflexivity. Qed.

Lemma Contains_tail (c : ascii) (s sub : string) :
  Contains s sub = true -> Contains (String c s) sub = true.
Proof. intros H. cbn [Contains]. rewrite H. apply orb_true_r. Qed.

Lemma Contains_prefix (s sub : string) : String.prefix sub s = true -> Contains s sub = true.
Proof. intros H. destruct s; cbn [Contains]; rewrite H; reflexivity. Qed.

Lemma append_percent (run rest : string) :
  (run +:+ "%") +:+ rest = run +:+ String "%" rest.
Proof.
  induction run as [|a run IH]; [reflexivity|].
  change (String a ((run +:+ "%") +:+ rest) = String a (run +:+ String "%" rest)).
  congruence.
Qed.

Lemma FindPercent_spec (s percent : string) :
  sources.FindPercent s = Some percent ->
  percent <> EmptyString /\ all_in_class strconv.is_digit percent = true /\
  Contains s (percent +:+ "%") = true.
Proof.
  induction s as [|c s IH]; [discriminate|]. cbn [sources.FindPercent].
  destruct (strconv.is_digit c) eqn:Hc.
  - pose proof (take_digits_spec (String c s)) as [Hsplit Hdigits].
    destruct (sources.take_digits (String c s)) as [run rest] eqn:Htake.
    cbn [fst snd] in *.
    assert (Hrun : run <> EmptyString).
    { cbn [sources.take_digits] in Htake. rewrite Hc in Htake.
      destruct (sources.take_digits s). injection Htake as <- _. discriminate. }
    destruct rest as [|r rest].
    + intros H. destruct (IH H) as (? & ? & ?). auto using Contains_tail.
    + destruct (Ascii.eqb_spec r "%") as [->|Hne].
      * intros [= <-]. repeat split; try assumption.
        apply Contains_prefix. rewrite Hsplit.
        rewrite <- (append_percent run rest). apply prefix_append.
      * assert (Hgo : match r with "%"%char => Some run | _ => sources.FindPercent s end =
                      sources.FindPercent s).
        { destruct r as [[] [] [] [] [] [] [] []]; try reflexivity. contradiction Hne.
          reflexivity. }
        rewrite Hgo. intros H. destruct (IH H) as (? & ? & ?). auto using Contains_tail.
  - intros H. destruct (IH H) as (? & ? & ?). auto using Contains_tail.
Qed.

Lemma FindPercent_needs_percent (s : string) :
  sources.has_byte "%" s = false -> sources.FindPercent s = None.
Proof.
  intros Hno. destruct (sources.FindPercent s) as [p|] eqn:Hfind; [|reflexivity].
  exfalso. apply FindPercent_spec in Hfind as (_ & _ & Hsub). clear -Hno Hsub.
  assert (Hpre : forall a s, String.prefix (a +:+ "%") s = true -> sources.has_byte "%" s = true).
  { clear. induction a as [|c a IH]; intros [|d s].
    - intros H. discriminate H.
    - change (("" +:+ "%")%string) with (String "%" EmptyString). rewrite prefix_cons.
      destruct (ascii_dec "%" d) as [<-|]; [reflexivity | discriminate].
    - intros H. discriminate H.
    - change (String c a +:+ "%") with (String c (a +:+ "%")). rewrite prefix_cons.
      destruct (ascii_dec c d); [|discriminate]. intros H. cbn [sources.has_byte].
      rewrite (IH s H). apply orb_true_r. }
  induction s as [|c s IH].
  - cbn [Contains] in Hsub. rewrite orb_false_r in Hsub.
    apply Hpre in Hsub. discriminate.
  - cbn [Contains sources.has_byte] in *. apply orb_false_iff in Hno as [Hc Hs].
    apply orb_true_iff in Hsub as [Hsub | Hsub].
    + apply Hpre in Hsub. cbn [sources.has_byte] in Hsub. rewrite Hc, Hs in Hsub. discriminate.
    + apply IH; assumption.
Qed.

(** X16.  The battery charge that [getBatteryChargePercent] reads from the
    output of [pmset] is empty or a non-empty run of decimal digits that the
    output holds in front of a percent sign; it is empty when the output has
    no percent sign. *)
Theorem getBatteryChargePercent_is_digits (output : string) :
  (sources.getBatteryChargePercent output = EmptyString \/
   (all_in_class strconv.is_digit (sources.getBatteryChargePercent output) = true /\
    Contains output (sources.getBatteryChargePercent output +:+ "%") = true)) /\
  (if sources.has_byte "%" output then True
   else sources.getBatteryChargePercent output = EmptyString).
Proof.
  unfold sources.getBatteryChargePercent. split.
  - destruct (sources.FindPercent output) as [p|] eqn:Hfind; [|left; reflexivity].
    right. apply FindPercent_spec in Hfind as (_ & ? & ?). split; assumption.
  - destruct (sources.has_byte "%" output) eqn:Hhas; [trivial|].
    rewrite FindPercent_needs_percent by assumption. reflexivity.
Qed.





Lemma digit_not_sign (c : ascii) :
  strconv.is_digit c = true -> Ascii.eqb c "+" = false /\ Ascii.eqb c "-" = false.
Proof.
  intros Hc. split.
  - destruct (Ascii.eqb_spec c "+") as [->|]; [discriminate Hc | reflexivity].
  - destruct (Ascii.eqb_spec c "-") as [->|]; [discriminate Hc | reflexivity].
Qed.

Lemma int_literal_digits (s : string) :
  s <> EmptyString -> all_in_class strconv.is_digit s = true ->
  int_literal s = Some (digits_value s 0).
Proof.
  destruct s as [|c s]; [contradiction|]. intros _ Hall.
  pose proof Hall as Hc. cbn [all_in_class] in Hc. apply andb_true_iff in Hc as [Hc _].
  destruct (digit_not_sign c Hc) as [Hplus Hminus].
  cbn [int_literal]. rewrite Hplus, Hminus. unfold digits. rewrite Hall. reflexivity.
Qed.


(** X19.  The human-readable uptime that [getSystemUptime] builds agrees with
    the seconds it reports: it shows days (only when there is at least one),
    hours below 24 and two-digit minutes below 60, which together account for
    the seconds up to the last started minute. *)
Theorem getSystemUptime_human_matches_seconds (totalSeconds : Z) :
  0 <= totalSeconds ->
  exists days hours minutes,
    sources.getSystemUptime (totalSeconds, None) =
      (Some (mkUptimeInfo totalSeconds
               (if 0 <? days
                then strconv.Itoa days +:+ " days, " +:+ strconv.Itoa hours +:+ ":" +:+
                     sources.Sprintf_02d minutes
                else strconv.Itoa hours +:+ ":" +:+ sources.Sprintf_02d minutes)), None) /\
    0 <= days /\ 0 <= hours < 24 /\ 0 <= minutes < 60 /\
    days * 86400 + hours * 3600 + minutes * 60 <= totalSeconds <
    days * 86400 + hours * 3600 + minutes * 60 + 60.
Proof.
  intros Hpos.
  exists (totalSeconds / 86400), ((totalSeconds mod 86400) / 3600),
    ((totalSeconds mod 3600) / 60).
  split.
  - reflexivity.
  - Z.div_mod_to_equations. lia.
Qed.

(** X20.  [getDiskUsage] reports the root file system in bytes with finite
    percentages of the total: both are 0 when the total is 0 (no division by
    zero), and otherwise they are 100 times the used and the free share.
    Without a root file system in the list it returns an error. *)
Theorem getDiskUsage_percentages_are_finite
    (DirNames : list string) (usage_Get : string -> sources.FileSystemUsage * option error) :
  let usage := fst (usage_Get "/") in
  let totalBytes := sources.mul64 (sources.fs_Total usage) 1024 in
  let usedBytes := sources.mul64 (sources.fs_Used usage) 1024 in
  let freeBytes := sources.mul64 (sources.fs_Free usage) 1024 in
  if existsb (String.eqb "/") DirNames then
    match snd (usage_Get "/") with
    | Some _ =>
        sources.getDiskUsage (DirNames, None) usage_Get =
          (None, Some (Errorf "failed to get disk usage: %w"))
    | None =>
        exists used free : Q,
          sources.getDiskUsage (DirNames, None) usage_Get =
            (Some (mkDiskUsage totalBytes usedBytes freeBytes (Finite used) (Finite free)),
             None) /\
          if totalBytes =? 0 then Finite used = Finite 0 /\ Finite free = Finite 0
          else (used == 100 * (inject_Z usedBytes / inject_Z totalBytes))%Q /\
               (free == 100 * (inject_Z freeBytes / inject_Z totalBytes))%Q
    end
  else
    sources.getDiskUsage (DirNames, None) usage_Get =
      (None, Some (Errorf "root filesystem not found")).
Proof.
  cbv zeta. unfold sources.getDiskUsage.
  induction DirNames as [|DirName rest IH]; [reflexivity|].
  cbn [existsb sources.getDiskUsage_range].
  rewrite (String.eqb_sym "/" DirName).
  destruct (String.eqb_spec DirName "/") as [->|Hne]; cbn [orb]; [|exact IH].
  destruct (usage_Get "/") as [usage [e|]]; cbn [fst snd]; [reflexivity|].
  assert (Hnonneg : 0 <= sources.mul64 (sources.fs_Total usage) 1024).
  { unfold sources.mul64. apply Z.mod_pos_bound. reflexivity. }
  destruct (sources.mul64 (sources.fs_Total usage) 1024 =? 0) eqn:Hzero.
  - apply Z.eqb_eq in Hzero. rewrite Hzero. cbn [Z.ltb Z.compare].
    exists 0%Q, 0%Q. repeat split.
  - apply Z.eqb_neq in Hzero.
    replace (0 <? sources.mul64 (sources.fs_Total usage) 1024) with true by lia.
    unfold float64_of_uint64, Float_div, Qzero. cbn [Qnum inject_Z].
    rewrite (proj2 (Z.eqb_neq _ _) Hzero). cbn [Float_mul].
    eexists _, _. split; [reflexivity|]. split; ring.
Qed.

(** ** Only validated commands *)

Lemma In_acts (c : call) (l : list action) :
  In c (acts l) -> exists a, c = Act a /\ In a l.
Proof.
  unfold acts. rewrite in_map_iff. intros (a & <- & Ha). eauto.
Qed.

Lemma In_or_else (c : call) (handled : bool * list call) (next : list call) :
  In c (or_else handled next) -> In c (snd handled) \/ In c next.
Proof.
  unfold or_else. destruct (fst handled); [auto|]. apply in_app_or.
Qed.

Ltac each_call H :=
  cbn [snd acts map List.app In] in H;
  repeat (destruct H as [<-|H]; [cbn; auto|]); try contradiction.

Lemma handleVolumeCommand_validated app h topic payload c :
  In c (acts (snd (handleVolumeCommand app h topic payload))) -> validated app payload c.
Proof.
  unfold handleVolumeCommand, updateVolume, updateMute.
  destruct (negb _); [intros []|].
  pose proof (validateVolumeInput_spec payload) as Hv.
  destruct (percent_literal payload) as [v|] eqn:Hp.
  - rewrite Hv. intros H. each_call H.
  - destruct Hv as [e ->]. intros H. each_call H.
Qed.

Lemma handleMuteCommand_validated app h topic payload c :
  In c (acts (snd (handleMuteCommand app h topic payload))) -> validated app payload c.
Proof.
  unfold handleMuteCommand, validateMuteInput, updateVolume, updateMute.
  destruct (negb _); [intros []|]. rewrite ParseBool_spec.
  destruct (bool_literal payload) as [b|] eqn:Hb; intros H; each_call H.
Qed.

Lemma handleSystemCommand_validated app topic payload c :
  In c (snd (handleSystemCommand app topic payload)) -> validated app payload c.
Proof.
  unfold handleSystemCommand. destruct (negb _); [intros []|]. cbn [snd].
  unfold validated, system_command.
  repeat match goal with |- context [String.eqb payload ?s] => destruct (String.eqb payload s) end;
    intros H; each_call H.
Qed.

Lemma handleDisplayBrightness_range_validated app h topic payload ds c :
  In c (acts (snd (handleDisplayBrightness_range app h topic payload ds))) ->
  match c with
  | Act (setDisplayBrightness id v) =>
      percent_literal payload = Some v /\ exists d, In d ds /\ DisplayID d = id
  | _ => validated app payload c
  end.
Proof.
  induction ds as [|d ds IH]; [intros []|].
  cbn [handleDisplayBrightness_range]. destruct (String.eqb topic _).
  - pose proof (validateBrightnessInput_spec payload) as Hv.
    destruct (percent_literal payload) as [v|] eqn:Hp.
    + rewrite Hv.
      destruct (setDisplayBrightness_err h (DisplayID d) v);
        [destruct (isBetterDisplayCLIAvailable h)|];
        intros H; cbn [snd acts map List.app In negb] in H;
        repeat (destruct H as [<-|H];
                [first [ split; [reflexivity | exists d; split; [left|]; reflexivity]
                       | exact I ]|]);
        contradiction.
    + destruct Hv as [e ->]. intros H. each_call H.
  - intros H. specialize (IH H). destruct c as [[]| | | | | | |]; try exact IH.
    destruct IH as (Hp & d' & Hd' & Hid). split; [exact Hp|].
    exists d'. split; [right|]; assumption.
Qed.

Lemma handleDisplayBrightnessCommand_validated app h topic payload c :
  In c (acts (snd (handleDisplayBrightnessCommand app h topic payload))) ->
  validated app payload c.
Proof.
  unfold handleDisplayBrightnessCommand. destruct (_ =? 0).
  - intros H. each_call H.
  - intros H. apply handleDisplayBrightness_range_validated in H.
    destruct c as [[]| | | | | | |]; exact H.
Qed.

Lemma handleShortcutCommand_validated app topic payload c :
  In c (acts (snd (handleShortcutCommand app topic payload))) -> validated app payload c.
Proof.
  unfold handleShortcutCommand, validateShortcutInput, MatchString_shortcut.
  destruct (negb (String.eqb topic _)); [intros []|].
  destruct (String.eqb_spec payload EmptyString) as [->|Hne]; [intros H; each_call H|].
  destruct payload as [|c0 rest]; [contradiction|].
  destruct (all_in_class shortcut_class (String c0 rest)) eqn:Hall; cbn [negb];
    intros H; each_call H.
Qed.

Lemma handleKeepAwakeCommand_validated app h topic payload c :
  In c (acts (snd (handleKeepAwakeCommand app h topic payload))) -> validated app payload c.
Proof.
  unfold handleKeepAwakeCommand, validateKeepAwakeInput, updateCaffeinateStatus.
  destruct (negb _); [intros []|]. rewrite ParseBool_spec.
  destruct (bool_literal payload) as [[]|] eqn:Hb; intros H; each_call H.
Qed.

Lemma quiet_validated app payload (l : list action) c :
  quiet l -> In c (acts l) -> validated app payload c.
Proof.
  unfold quiet. rewrite forallb_forall. intros Hq Hin.
  apply In_acts in Hin as (a & -> & Ha). specialize (Hq a Ha).
  destruct a; try discriminate; exact I.
Qed.

Section RouterSafety.

Context {float64 : Type}.
Variable int_of_float64 : float64 -> Z.
Variable div_1000000 : float64 -> float64.
Variable json_Marshal : gmap string (@any float64) -> string.
Variable json_Unmarshal : string -> gmap string (@any float64) * option error.

Abbreviation route2 := (listen int_of_float64 div_1000000 json_Marshal json_Unmarshal).

Lemma handlePlayPauseCommand_validated app available Output topic payload c :
  In c (snd (handlePlayPauseCommand int_of_float64 div_1000000 json_Marshal json_Unmarshal
               app available Output topic payload)) ->
  validated app payload c.
Proof.
  unfold handlePlayPauseCommand. destruct (negb _); [intros []|]. cbn [snd].
  destruct (String.eqb_spec payload "playpause") as [->|_]; [|intros []].
  cbn [List.app In]. intros [<-|[<-|H]]; [reflexivity | exact I |].
  eapply quiet_validated; [|exact H].
  unfold updateNowPlaying.
  destruct (getMediaInfo _ _ _ _ _) as [[info|] [[m|e]|]]; reflexivity.
Qed.

(** X21.  Every call that [listen] makes for a message is one that the
    payload of the message allows: a volume or a brightness is the value of
    the payload, an integer from 0 to 100, and the brightness goes to a
    configured display; a mute or keep-awake command follows a boolean
    literal; a shortcut is the payload itself, non-empty and made of
    characters of the accepted class only; a system command is the one the
    payload names; play/pause needs the payload [playpause]. *)
Theorem listen_runs_only_validated_commands
    (app : Application) (h : Host) (available : bool) (Output : string * option error)
    (topic payload : string) :
  Forall (validated app payload) (route2 app h available Output topic payload).
Proof.
  apply List.Forall_forall. intros c Hin. unfold listen in Hin.
  repeat (apply In_or_else in Hin as [Hin|Hin];
          [first [ apply handleVolumeCommand_validated in Hin
                 | apply handleMuteCommand_validated in Hin
                 | apply handleSystemCommand_validated in Hin
                 | apply handleDisplayBrightnessCommand_validated in Hin
                 | apply handleShortcutCommand_validated in Hin
                 | apply handleKeepAwakeCommand_validated in Hin
                 | apply handlePlayPauseCommand_validated in Hin ]; exact Hin|]).
  destruct Hin.
Qed.

End RouterSafety.

(** ** Published payloads against the validators *)

Ltac byte_value :=
  match goal with
  | |- context [strconv.byte ?c] =>
      let v := eval vm_compute in (strconv.byte c) in change (strconv.byte c) with v
  end.

Lemma digits_value_uint_acc (d : Decimal.uint) (p : positive) :
  digits_value (NilEmpty.string_of_uint d) (Z.pos p) = Z.pos (Pos.of_uint_acc d p).
Proof.
  revert p. induction d as [|d IH|d IH|d IH|d IH|d IH|d IH|d IH|d IH|d IH|d IH]; intros p;
    [reflexivity|..];
    cbn [NilEmpty.string_of_uint digits_value Pos.of_uint_acc]; rewrite <- IH; f_equal;
    byte_value; lia.
Qed.

Lemma digits_value_uint (d : Decimal.uint) :
  digits_value (NilEmpty.string_of_uint d) 0 = Z.of_N (Pos.of_uint d).
Proof.
  induction d as [|d IH|d IH|d IH|d IH|d IH|d IH|d IH|d IH|d IH|d IH];
    [reflexivity | exact IH | ..];
    cbn [NilEmpty.string_of_uint digits_value Pos.of_uint Z.of_N];
    rewrite <- digits_value_uint_acc; reflexivity.
Qed.

Lemma string_of_uint_digits (d : Decimal.uint) :
  all_in_class strconv.is_digit (NilEmpty.string_of_uint d) = true.
Proof.
  induction d as [|d IH|d IH|d IH|d IH|d IH|d IH|d IH|d IH|d IH|d IH];
    [reflexivity|..]; cbn [NilEmpty.string_of_uint all_in_class]; rewrite IH; reflexivity.
Qed.

Lemma string_of_pos (p : positive) :
  NilZero.string_of_uint (Pos.to_uint p) = NilEmpty.string_of_uint (Pos.to_uint p) /\
  NilEmpty.string_of_uint (Pos.to_uint p) <> EmptyString /\
  all_in_class strconv.is_digit (NilEmpty.string_of_uint (Pos.to_uint p)) = true /\
  digits (NilEmpty.string_of_uint (Pos.to_uint p)) = Some (Z.pos p).
Proof.
  pose proof (DecimalPos.Unsigned.to_uint_nonnil p) as Hnil.
  pose proof (DecimalPos.Unsigned.of_to p) as Hof.
  pose proof (digits_value_uint (Pos.to_uint p)) as Hval.
  pose proof (string_of_uint_digits (Pos.to_uint p)) as Hdig.
  rewrite Hof in Hval. cbn [Z.of_N] in Hval.
  destruct (Pos.to_uint p) as [|d|d|d|d|d|d|d|d|d|d]; [contradiction|..];
    (split; [reflexivity|]); (split; [discriminate|]); (split; [exact Hdig|]);
    unfold digits; cbn [NilEmpty.string_of_uint] in *; rewrite Hdig, Hval; reflexivity.
Qed.

(** The decimal that [Itoa] writes is a literal of the value. *)
Lemma int_literal_Itoa (z : Z) : int_literal (strconv.Itoa z) = Some z.
Proof.
  unfold strconv.Itoa. destruct z as [|p|p]; [reflexivity|..];
    cbn [Z.to_int NilZero.string_of_int];
    destruct (string_of_pos p) as (Heq & Hne & Hall & Hdigits).
  - rewrite Heq, (int_literal_digits _ Hne Hall).
    unfold digits in Hdigits. rewrite Hall in Hdigits.
    destruct (NilEmpty.string_of_uint (Pos.to_uint p)); [contradiction | exact Hdigits].
  - rewrite Heq. cbn [int_literal Ascii.eqb Bool.eqb]. rewrite Hdigits. reflexivity.
Qed.

Lemma percent_literal_Itoa (v : Z) :
  percent_literal (strconv.Itoa v) = if (0 <=? v) && (v <=? 100) then Some v else None.
Proof. unfold percent_literal. rewrite int_literal_Itoa. reflexivity. Qed.

(** X22.  What the program publishes as status is a payload that the
    matching command accepts, with the same value: the mute and the
    keep-awake status always, the volume status exactly when the volume that
    the host reports lies between 0 and 100 (no publication checks it). *)
Theorem published_status_is_accepted_as_command (app : Application) (h : Host) :
  exists volume mute caffeinate,
    updateVolume app h = [Publish (getTopicPrefix app +:+ "/status/volume") 0 false volume] /\
    updateMute app h = [Publish (getTopicPrefix app +:+ "/status/mute") 0 false mute] /\
    updateCaffeinateStatus app h =
      [Publish (getTopicPrefix app +:+ "/status/caffeinate") 0 false caffeinate] /\
    validateMuteInput mute = (getMuteStatus h, None) /\
    validateKeepAwakeInput caffeinate = (getCaffeinateStatus h, None) /\
    (validateVolumeInput volume = (getCurrentVolume h, None) <->
     0 <= getCurrentVolume h <= 100) /\
    (snd (validateVolumeInput volume) = None <-> 0 <= getCurrentVolume h <= 100).
Proof.
  eexists _, _, _. split; [reflexivity|]. split; [reflexivity|]. split; [reflexivity|].
  split; [destruct (getMuteStatus h); reflexivity|].
  split; [destruct (getCaffeinateStatus h); reflexivity|].
  pose proof (validateVolumeInput_spec (strconv.Itoa (getCurrentVolume h))) as Hv.
  rewrite percent_literal_Itoa in Hv.
  destruct ((0 <=? getCurrentVolume h) && (getCurrentVolume h <=? 100)) eqn:Hr.
  - rewrite Hv. cbn [snd]. split; (split; [lia | reflexivity]).
  - destruct Hv as [e ->]. cbn [snd]. split; (split; [discriminate | lia]).
Qed.

(** X23.  The brightness status that follows a brightness command is
    retained, goes to the status topic of a configured display, and carries
    the canonical decimal of the accepted value, itself a valid brightness
    payload with that value, however the command wrote it. *)
Theorem brightness_status_is_canonical
    (app : Application) (h : Host) (topic payload : string)
    (statusTopic : string) (qos : Z) (retained : bool) (status : string) :
  In (Publish statusTopic qos retained status)
     (snd (handleDisplayBrightnessCommand app h topic payload)) ->
  exists d v,
    In d (displays app) /\
    topic = getTopicPrefix app +:+ "/command/display_" +:+ DisplayID d +:+ "_brightness" /\
    statusTopic = getTopicPrefix app +:+ "/status/display_" +:+ DisplayID d +:+ "_brightness" /\
    retained = true /\
    percent_literal payload = Some v /\
    status = strconv.Itoa v /\
    validateBrightnessInput status = (v, None).
Proof.
  unfold handleDisplayBrightnessCommand. destruct (_ =? 0).
  { cbn [snd In]. intros [H|[H|[H|[]]]]; discriminate. }
  induction (displays app) as [|d ds IH]; [intros []|].
  cbn [handleDisplayBrightness_range].
  destruct (String.eqb_spec topic
              (getTopicPrefix app +:+ "/command/display_" +:+ DisplayID d +:+ "_brightness"))
    as [Ht|_].
  - pose proof (validateBrightnessInput_spec payload) as Hv.
    destruct (percent_literal payload) as [v|] eqn:Hp.
    + rewrite Hv.
      destruct (setDisplayBrightness_err h (DisplayID d) v);
        [destruct (isBetterDisplayCLIAvailable h); cbn [snd negb List.app In];
         intros H; repeat (destruct H as [H|H]; [discriminate|]); contradiction|].
      cbn [snd In]. intros [H|[H|[]]]; [discriminate|]. injection H as <- <- <- <-.
      exists d, v. split; [left; reflexivity|]. split; [exact Ht|].
      repeat (split; [reflexivity|]).
      pose proof (validateBrightnessInput_spec (strconv.Itoa v)) as Hs.
      rewrite percent_literal_Itoa in Hs.
      apply percent_literal_Some in Hp as [_ Hr].
      rewrite (proj2 (andb_true_iff _ _)) in Hs by (split; lia). exact Hs.
    + destruct Hv as [e ->]. cbn [snd In]. intros [H|[]]. discriminate.
  - intros H. destruct (IH H) as (d' & v & Hd & Hrest).
    exists d', v. split; [right; exact Hd | exact Hrest].
Qed.

(** ** Start-up *)

Section StartupFacts.

Context {float64 : Type}.
Variable int_of_float64 : float64 -> Z.
Variable div_1000000 : float64 -> float64.
Variable json_Unmarshal : string -> gmap string (@any float64) * option error.
Variable filepath_Dir : string -> string.
Variable yaml_Unmarshal : string -> startup.config -> startup.config * option error.

Abbreviation newApp :=
  (startup.NewApplication int_of_float64 div_1000000 json_Unmarshal filepath_Dir yaml_Unmarshal).
Abbreviation fileConfig := (startup.file_config filepath_Dir yaml_Unmarshal).

Lemma getConfig_returns os_Executable os_ReadFile os_Hostname c logs :
  startup.getConfig filepath_Dir yaml_Unmarshal os_Executable os_ReadFile os_Hostname
    startup.zero = (returns c, logs) ->
  let file := fileConfig os_Executable os_ReadFile in
  startup.IP c = startup.IP file /\ startup.IP c <> EmptyString /\
  startup.Port c = startup.Port file /\ startup.Port c <> EmptyString /\
  startup.SSL c = startup.SSL file /\
  startup.Topic c = startup.Topic file /\
  startup.IdleActivityTime c = startup.IdleActivityTime file /\
  startup.DiscoveryPrefix c <> EmptyString /\
  startup.Hostname c =
    (if String.eqb (startup.Hostname file) EmptyString
     then sources.remove_symbols (sources.first_part (fst os_Hostname))
     else startup.Hostname file) /\
  (startup.Hostname file = EmptyString -> snd os_Hostname = None) /\
  logs = [Log "Path: %v"] ++
         (if startup.IdleActivityTime file =? 0
          then [Log "No idle_activity_time specified in config, using default 10 seconds"]
          else []).
Proof.
  unfold startup.getConfig, startup.file_config.
  destruct os_Executable as [ex [e|]]; [discriminate|]. cbn [fst].
  destruct (os_ReadFile _) as [content [e|]]; [discriminate|]. cbn [fst].
  destruct (yaml_Unmarshal content startup.zero) as [file [e|]]; [discriminate|]. cbn [fst].
  destruct (String.eqb_spec (startup.IP file) EmptyString) as [|Hip]; [discriminate|].
  destruct (String.eqb_spec (startup.Port file) EmptyString) as [|Hport]; [discriminate|].
  destruct (String.eqb_spec (startup.Hostname file) EmptyString) as [Hh|Hh].
  - unfold sources.getHostname. destruct os_Hostname as [hostname [e|]]; [discriminate|].
    cbn [option_map fst]. unfold startup.with_Hostname at 1. cbn [startup.DiscoveryPrefix].
    destruct (String.eqb_spec (startup.DiscoveryPrefix file) EmptyString) as [Hd|Hd];
      intros [= <- <-]; cbn; repeat split;
        first [reflexivity | assumption | discriminate | intros; congruence].
  - destruct (String.eqb_spec (startup.DiscoveryPrefix file) EmptyString) as [Hd|Hd];
      intros [= <- <-]; cbn; repeat split;
        first [reflexivity | assumption | discriminate | intros; congruence].
Qed.

(** X24.  [NewApplication] never returns an error: when [getConfig] comes
    back, the address and the port of the broker are set, so the checks of
    [validateConfig] cannot fail.  The application it returns has the values
    of the file, a topic of the form [<topic>/<hostname>] with [mac2mqtt] for
    a missing topic and the sanitized host name for a missing hostname, no
    client, no timer, and the activity state "inactive". *)
Theorem NewApplication_never_returns_an_error
    (os_Executable : string * option error) (os_ReadFile : string -> string * option error)
    (os_Hostname : string * option error) (getDisplays : list Display * list action)
    (isMediaControlAvailable : bool) (Output : string * option error)
    (lastCPU_Get : Cpu * option error) (r : option Application * option error) :
  fst (newApp os_Executable os_ReadFile os_Hostname getDisplays isMediaControlAvailable Output
         lastCPU_Get) = returns r ->
  let file := fileConfig os_Executable os_ReadFile in
  exists app,
    r = (Some app, None) /\
    app_config app =
      mkConfig (startup.IP file) (startup.Port file) (startup.SSL file)
        (startup.IdleActivityTime file) /\
    IP (app_config app) <> EmptyString /\ Port (app_config app) <> EmptyString /\
    topic app =
      (if String.eqb (startup.Topic file) EmptyString then "mac2mqtt" else startup.Topic file)
      +:+ "/" +:+
      (if String.eqb (startup.Hostname file) EmptyString
       then sources.remove_symbols (sources.first_part (fst os_Hostname))
       else startup.Hostname file) /\
    displays app = fst getDisplays /\
    client app = None /\ activityTimer app = None /\ userActivityState app = "inactive".
Proof.
  unfold startup.NewApplication.
  destruct (startup.getConfig _ _ _ _ _ _) as [[c|v|] logs] eqn:Hcfg; [|discriminate..].
  destruct (getConfig_returns _ _ _ _ _ Hcfg)
    as (Hip & Hip' & Hport & Hport' & Hssl & Htopic & Hidle & Hdisc & Hhost & Herr & _).
  cbn zeta. intros H.
  assert (Hname : (if String.eqb (startup.Hostname c) EmptyString
                   then sources.getHostname os_Hostname else Some (startup.Hostname c)) =
                  Some (startup.Hostname c)).
  { destruct (String.eqb_spec (startup.Hostname c) EmptyString) as [He|]; [|reflexivity].
    destruct (String.eqb_spec (startup.Hostname (fileConfig os_Executable os_ReadFile))
                EmptyString) as [Hf|Hf]; [|congruence].
    specialize (Herr Hf). unfold sources.getHostname.
    destruct os_Hostname as [hostname [e|]]; [discriminate|].
    rewrite Hhost. reflexivity. }
  rewrite Hname in H. unfold startup.validateConfig in H.
  rewrite (proj2 (String.eqb_neq _ _) Hip'), (proj2 (String.eqb_neq _ _) Hport') in H.
  rewrite (proj2 (String.eqb_neq _ _) Hdisc) in H.
  destruct lastCPU_Get as [cpu e]. cbn [fst] in H. injection H as <-.
  eexists. split; [reflexivity|].
  cbn [app_config topic displays client activityTimer userActivityState IP Port].
  unfold startup.fields_in_use, startup.DefaultTopicPrefix.
  rewrite Hip, Hport, Hssl, Hidle. split; [reflexivity|].
  rewrite <- Hip, <- Hport. split; [exact Hip'|]. split; [exact Hport'|].
  rewrite Htopic, Hhost.
  split; [destruct (String.eqb (startup.Topic _) EmptyString); reflexivity|].
  repeat split.
Qed.

(** X25.  A configuration file without [idle_activity_time] makes
    [getConfig] log that the default of 10 seconds is used, but no default
    is set: the application keeps 0, and the first [resetActivityTimer]
    arms a timer of 0 seconds. *)
Theorem missing_idle_time_arms_a_zero_timer
    (os_Executable : string * option error) (os_ReadFile : string -> string * option error)
    (os_Hostname : string * option error) (getDisplays : list Display * list action)
    (isMediaControlAvailable : bool) (Output : string * option error)
    (lastCPU_Get : Cpu * option error) (app : Application) (connected : bool) :
  fst (newApp os_Executable os_ReadFile os_Hostname getDisplays isMediaControlAvailable Output
         lastCPU_Get) = returns (Some app, None) ->
  startup.IdleActivityTime (fileConfig os_Executable os_ReadFile) = 0 ->
  In (Log "No idle_activity_time specified in config, using default 10 seconds")
     (snd (newApp os_Executable os_ReadFile os_Hostname getDisplays isMediaControlAvailable
             Output lastCPU_Get)) /\
  IdleActivityTime (app_config app) = 0 /\
  exists w tr,
    resetActivityTimer connected (initial_world app) = Some (tt, w, tr) /\
    List.filter is_timer_action tr = [AfterFunc 0%nat 0].
Proof.
  unfold startup.NewApplication.
  destruct (startup.getConfig _ _ _ _ _ _) as [[c|v|] logs] eqn:Hcfg; [|discriminate..].
  destruct (getConfig_returns _ _ _ _ _ Hcfg)
    as (_ & Hip' & _ & Hport' & _ & _ & Hidle & Hdisc & _ & _ & Hlogs).
  cbn zeta. intros H Hzero.
  destruct (if String.eqb (startup.Hostname c) EmptyString then _ else _) as [hostname|];
    [|discriminate].
  unfold startup.validateConfig in H |- *.
  rewrite (proj2 (String.eqb_neq _ _) Hip'), (proj2 (String.eqb_neq _ _) Hport') in H |- *.
  rewrite (proj2 (String.eqb_neq _ _) Hdisc) in H |- *.
  destruct lastCPU_Get as [cpu e]. cbn [fst snd] in H |- *. injection H as <-.
  rewrite Hzero in Hlogs. cbn in Hlogs. subst logs.
  split; [right; left; reflexivity|].
  cbn [app_config IdleActivityTime]. unfold startup.fields_in_use. cbn [IdleActivityTime].
  rewrite Hidle, Hzero. split; [reflexivity|].
  rewrite resetActivityTimer_run by reflexivity. eexists _, _. split; [reflexivity|].
  unfold reset_trace. cbn [w_app initial_world activityTimer with_activityTimer stop_of
                            List.app allocated app_config IdleActivityTime].
  rewrite List.filter_app.
  destruct (negb _ && connected); reflexivity.
Qed.

End StartupFacts.

(** ** The mute status *)

Lemma ReplaceAll_space_no_space (s : string) :
  sources.has_byte " " (audio.ReplaceAll_space s) = false.
Proof.
  induction s as [|c s IH]; [reflexivity|]. cbn [audio.ReplaceAll_space].
  destruct (Ascii.eqb c " ") eqn:Hc.
  - change ("%20" +:+ audio.ReplaceAll_space s)
      with (String "%" (String "2" (String "0" (audio.ReplaceAll_space s)))).
    cbn [sources.has_byte]. rewrite IH. reflexivity.
  - cbn [sources.has_byte]. rewrite Hc, IH. reflexivity.
Qed.

Lemma has_byte_app (c : ascii) (a b : string) :
  sources.has_byte c (a +:+ b) = sources.has_byte c a || sources.has_byte c b.
Proof.
  induction a as [|x a IH]; [reflexivity|].
  change (String x a +:+ b) with (String x (a +:+ b)). cbn [sources.has_byte].
  rewrite IH. apply orb_assoc.
Qed.

(** X26.  [getMuteStatus] reports "muted" exactly when [osascript] prints a
    true literal of [ParseBool], or prints [missing value] and the HTTP
    fallback answers a body that is [on] up to one final line feed.  It asks
    the HTTP service only in the second case, once, and the URL it asks for
    holds no space whatever the name of the audio source is. *)
Theorem getMuteStatus_uses_fallback_only_for_missing_value
    (osascript switchaudiosource : string * option error) (Get : string -> audio.response)
    (muted : bool) (events : list audio.event) :
  audio.getMuteStatus osascript switchaudiosource Get = Some (muted, events) ->
  exists output,
    audio.getCommandOutput osascript = Some output /\
    (muted = true <->
     (In output true_literals \/
      (output = "missing value" /\
       exists currentsource body,
         audio.getCommandOutput switchaudiosource = Some currentsource /\
         Get (audio.mute_url currentsource) = audio.Body body /\
         audio.TrimSuffix_newline body = "on"))) /\
    (forall url, In (audio.http_Get url) events ->
       output = "missing value" /\ sources.has_byte " " url = false /\
       List.filter (fun e => match e with audio.http_Get _ => true | _ => false end) events =
         [audio.http_Get url]).
Proof.
  unfold audio.getMuteStatus.
  destruct (audio.getCommandOutput osascript) as [output|]; [|discriminate].
  rewrite ParseBool_spec. intros H. exists output. split; [reflexivity|].
  assert (Hlit : forall b, bool_literal output = Some b -> (b = true <-> In output true_literals)).
  { unfold bool_literal. intros b. rewrite <- str_in_In.
    destruct (strconv.str_in true_literals output) eqn:Ht.
    - intros [= <-]. tauto.
    - destruct (strconv.str_in false_literals output); [|discriminate].
      intros [= <-]. split; discriminate. }
  assert (Hurl : forall s, sources.has_byte " " (audio.mute_url s) = false).
  { intros s. unfold audio.mute_url. rewrite !has_byte_app, ReplaceAll_space_no_space.
    reflexivity. }
  destruct (String.eqb_spec output "missing value") as [Heq|Hne]; [subst output|].
  - change (bool_literal "missing value") with (@None bool) in *.
    destruct (audio.getCommandOutput switchaudiosource) as [currentsource|]; [|discriminate].
    assert (Hno : ~ In "missing value" true_literals).
    { cbn. intros [H'|[H'|[H'|[H'|[H'|[H'|[]]]]]]]; discriminate. }
    destruct (Get (audio.mute_url currentsource)) as [| | |body] eqn:HGet;
      injection H as <- <-.
    1-3: split;
      [split; [discriminate | intros [Hin|(_ & s & b & [= <-] & Hb & _)];
                              [contradiction | congruence]]
      | intros url Hin; cbn [In] in Hin;
        assert (url = audio.mute_url currentsource) as ->
          by (repeat (destruct Hin as [Hin|Hin];
                      [try discriminate; injection Hin as <-; reflexivity|]);
              contradiction);
        split; [reflexivity|]; split; [apply Hurl | reflexivity]].
    split.
    + rewrite String.eqb_eq. split.
      * intros Hon. right. split; [reflexivity|]. exists currentsource, body. auto.
      * intros [Hin|(_ & s & b & [= <-] & Hb & Hon)]; [contradiction|]. congruence.
    + intros url Hin. cbn [In] in Hin.
      destruct Hin as [Hin|[Hin|[Hin|[]]]]; try discriminate.
      injection Hin as <-. split; [reflexivity|]. split; [apply Hurl | reflexivity].
  - destruct (bool_literal output) as [b|] eqn:Hb; injection H as <- <-.
    + split.
      * rewrite (Hlit b eq_refl). split; [auto|]. intros [Hin|[Heq _]]; [exact Hin|contradiction].
      * intros url [Hin|[]]. discriminate.
    + split.
      * split; [discriminate|]. intros [Hin|[Heq _]]; [|contradiction].
        exfalso. assert (Hs : is_Some (bool_literal output)).
        { apply bool_literal_Some, in_or_app. left. exact Hin. }
        rewrite Hb in Hs. destruct Hs as [x Hx]. discriminate.
      * intros url [Hin|[]]. discriminate.
Qed.

(** ** The properties at reference inputs *)

Lemma getMediaInfo_only_when_playing_witness :
  fst (getMediaInfo id (fun f => f / 1000000) playing_output true ("{}", None)) =
    Some (mkMediaInfo "X" EmptyString EmptyString EmptyString EmptyString "playing" 240 0) /\
  State (mkMediaInfo "X" EmptyString EmptyString EmptyString EmptyString "playing" 240 0) =
    "playing".
Proof.
  assert (H : fst (getMediaInfo id (fun f => f / 1000000) playing_output true ("{}", None)) =
              Some (mkMediaInfo "X" EmptyString EmptyString EmptyString EmptyString
                      "playing" 240 0)) by reflexivity.
  split; [exact H|].
  destruct (getMediaInfo_only_when_playing id (fun f => f / 1000000) playing_output true
              ("{}", None) _ H) as (_ & _ & _ & Hstate & _).
  exact Hstate.
Defined.


Lemma stream_state_playing_idle_or_kept_witness :
  State (merged_Z (app0 song) (stream_event {[ "playing" := any_string "later" ]})) = "playing" \/
  State (merged_Z (app0 song) (stream_event {[ "playing" := any_string "later" ]})) = "idle" \/
  State (merged_Z (app0 song) (stream_event {[ "playing" := any_string "later" ]})) =
    State (currentMediaState (app0 song)).
Proof.
  exact (stream_state_playing_idle_or_kept id (fun f => f / 1000000) (fun _ => "{}")
           map_to_list (fun m => reflexivity _) (app0 song)
           (stream_event {[ "playing" := any_string "later" ]})).
Defined.

Lemma timer_expiry_makes_inactive_witness :
  rtc step (initial_world (app0 idle_media)) world1 /\
  exists w1 tr1 w3 tr3,
    resetActivityTimer true world1 = Some (tt, w1, tr1) /\
    setUserActivityState true "inactive" (callback_started (fire (allocated world1) w1)) =
      Some (tt, w3, tr3) /\
    userActivityState (w_app w3) = "inactive" /\
    armed w3 = ∅.
Proof.
  split; [exact world1_reachable|].
  destruct (timer_expiry_makes_inactive (app0 idle_media) world1 true true world1_reachable)
    as (w1 & tr1 & w3 & tr3 & Hreset & _ & Hcallback & _ & Hstate & Harmed & _).
  exists w1, tr1, w3, tr3. repeat split; assumption.
Defined.

Lemma world2_reachable : rtc step (initial_world (app0 idle_media)) world2.
Proof.
  eapply rtc_r; [exact world1_reachable|].
  apply step_fire. apply elem_of_union_r, elem_of_singleton. reflexivity.
Defined.

Lemma started_callback_survives_rearm_witness :
  rtc step (initial_world (app0 idle_media)) world2 /\ (0 < fired world2)%nat /\
  exists w1 tr1 w2 tr2,
    resetActivityTimer true world2 = Some (tt, w1, tr1) /\
    userActivityState (w_app w1) = "active" /\
    setUserActivityState true "inactive" (callback_started w1) = Some (tt, w2, tr2) /\
    userActivityState (w_app w2) = "inactive" /\
    armed w2 = {[ allocated world2 ]}.
Proof.
  split; [exact world2_reachable|].
  assert (Hfired : (0 < fired world2)%nat) by (cbn; lia).
  split; [exact Hfired|].
  destruct (started_callback_survives_rearm (app0 idle_media) world2 true true
              world2_reachable Hfired)
    as (w1 & tr1 & w2 & tr2 & Hreset & Hactive & Hcallback & _ & Hstate & Harmed & _).
  exists w1, tr1, w2, tr2. repeat split; assumption.
Defined.

Lemma monitorLoop_without_sample_does_nothing_witness :
  exists tr,
    monitorLoop [(false, (3, None), true); (true, (0, Some (Errorf "exit status 1")), true)] 5
      world1 = Some (5, world1, tr) /\
    forallb is_Log tr = true.
Proof.
  apply (monitorLoop_without_sample_does_nothing
           [(false, (3, None), true); (true, (0, Some (Errorf "exit status 1")), true)] 5 world1);
    reflexivity.
Defined.

Lemma monitorLoop_rising_samples_change_nothing_witness :
  monitorLoop (ticks_of [3; 4; 4; 9]) 3 world1 =
  Some (9, world1, idle_publications (w_app world1) [3; 4; 4; 9]).
Proof.
  apply (monitorLoop_rising_samples_change_nothing [3; 4; 4; 9] 3 world1); reflexivity.
Defined.

Lemma displays_never_appear_witness :
  displays (run_app (fst (Run_iterations (fun _ => "0.00")
                            [(volumeTicker, true, true, telemetry0);
                             (batteryTicker, true, true, telemetry0)] run0))) = [].
Proof.
  apply (displays_never_appear (fun _ => "0.00")
           [(volumeTicker, true, true, telemetry0); (batteryTicker, true, true, telemetry0)]
           run0).
  reflexivity.
Defined.

Lemma Run_needs_the_first_connection_witness :
  fst (Run_connect (mkBroker (fun _ => false) (fun _ _ => None)) false false (app0 idle_media)) =
    Run_panics /\
  failed (fst (fst (getMQTTClient (mkBroker (fun _ => false) (fun _ _ => None))
                      (app0 idle_media)))) = true.
Proof.
  split; [reflexivity|].
  pose proof (Run_needs_the_first_connection (mkBroker (fun _ => false) (fun _ _ => None))
                false false (app0 idle_media) eq_refl) as H.
  change (fst (Run_connect (mkBroker (fun _ => false) (fun _ _ => None)) false false
                 (app0 idle_media))) with Run_panics in H.
  exact (proj1 H).
Defined.



Lemma getSystemUptime_human_matches_seconds_witness :
  exists days hours minutes,
    sources.getSystemUptime (93784, None) =
      (Some (mkUptimeInfo 93784
               (if 0 <? days
                then strconv.Itoa days +:+ " days, " +:+ strconv.Itoa hours +:+ ":" +:+
                     sources.Sprintf_02d minutes
                else strconv.Itoa hours +:+ ":" +:+ sources.Sprintf_02d minutes)), None) /\
    0 <= days /\ 0 <= hours < 24 /\ 0 <= minutes < 60 /\
    days * 86400 + hours * 3600 + minutes * 60 <= 93784 <
    days * 86400 + hours * 3600 + minutes * 60 + 60.
Proof.
  apply (getSystemUptime_human_matches_seconds 93784). lia.
Defined.

Lemma brightness_status_is_canonical_witness :
  In (Publish "mac2mqtt/host/status/display_7_brightness" 0 true "50")
     (snd (handleDisplayBrightnessCommand app1 host0
             "mac2mqtt/host/command/display_7_brightness" "+050")) /\
  exists d v,
    In d (displays app1) /\
    percent_literal "+050" = Some v /\
    "50" = strconv.Itoa v /\
    validateBrightnessInput "50" = (v, None).
Proof.
  assert (H : In (Publish "mac2mqtt/host/status/display_7_brightness" 0 true "50")
                (snd (handleDisplayBrightnessCommand app1 host0
                        "mac2mqtt/host/command/display_7_brightness" "+050")))
    by (right; left; reflexivity).
  split; [exact H|].
  destruct (brightness_status_is_canonical app1 host0 _ _ _ _ _ _ H)
    as (d & v & Hd & _ & _ & _ & Hp & Hs & Hv).
  exists d, v. repeat split; assumption.
Defined.

Lemma NewApplication_never_returns_an_error_witness :
  exists app,
    fst NewApplication0 = returns (Some app, None) /\
    topic app = "mac2mqtt/studio" /\
    userActivityState app = "inactive".
Proof.
  assert (H : fst NewApplication0 =
              returns (Some (mkApplication (mkConfig "10.0.0.2" "1883" false 0) []
                               "mac2mqtt/studio" None idle_media "inactive" None
                               (mkCpu 0 0 0 0 0 0 0 0)), None)) by reflexivity.
  destruct (NewApplication_never_returns_an_error id (fun f => f / 1000000) playing_output
              filepath_Dir0 minimal_yaml _ _ _ _ _ _ _ _ H)
    as (app & Hr & _ & _ & _ & Htopic & _ & _ & _ & Hstate).
  exists app. split; [rewrite H, Hr; reflexivity|]. split; [exact Htopic | exact Hstate].
Defined.

Lemma missing_idle_time_arms_a_zero_timer_witness :
  In (Log "No idle_activity_time specified in config, using default 10 seconds")
     (snd NewApplication0) /\
  exists w tr,
    resetActivityTimer true
      (initial_world (mkApplication (mkConfig "10.0.0.2" "1883" false 0) []
                        "mac2mqtt/studio" None idle_media "inactive" None
                        (mkCpu 0 0 0 0 0 0 0 0))) = Some (tt, w, tr) /\
    List.filter is_timer_action tr = [AfterFunc 0%nat 0].
Proof.
  assert (H : fst NewApplication0 =
              returns (Some (mkApplication (mkConfig "10.0.0.2" "1883" false 0) []
                               "mac2mqtt/studio" None idle_media "inactive" None
                               (mkCpu 0 0 0 0 0 0 0 0)), None)) by reflexivity.
  destruct (missing_idle_time_arms_a_zero_timer id (fun f => f / 1000000) playing_output
              filepath_Dir0 minimal_yaml _ _ _ _ _ _ _ _ true H eq_refl)
    as (Hlog & _ & Hrun).
  split; [exact Hlog | exact Hrun].
Defined.

Lemma getMuteStatus_uses_fallback_only_for_missing_value_witness :
  audio.getMuteStatus ("missing value", None) ("LG Monitor", None) (fun _ => audio.Body "on") =
    Some (true,
          [audio.Println "Getting mute status";
           audio.http_Get "http://localhost:55777/get?name=LG%20Monitor&mute";
           audio.Println "Mute Output: on"]) /\
  sources.has_byte " " "http://localhost:55777/get?name=LG%20Monitor&mute" = false.
Proof.
  assert (H : audio.getMuteStatus ("missing value", None) ("LG Monitor", None)
                (fun _ => audio.Body "on") =
              Some (true,
                    [audio.Println "Getting mute status";
                     audio.http_Get "http://localhost:55777/get?name=LG%20Monitor&mute";
                     audio.Println "Mute Output: on"])) by reflexivity.
  split; [exact H|].
  destruct (getMuteStatus_uses_fallback_only_for_missing_value _ _ _ _ _ H)
    as (output & _ & _ & Hurl).
  destruct (Hurl "http://localhost:55777/get?name=LG%20Monitor&mute"
              ltac:(right; left; reflexivity)) as (_ & Hspace & _).
  exact Hspace.
Defined.
